(** * Layout and pagination engine of the report generator

    A shallow embedding of the two page-generation modules,
    [pdf_generator.py] (module [V1] below) and [pdf_generator_v2.py]
    (module [V2]), together with the properties their specification states
    about text wrapping, image-tag resolution, block classification,
    at-most-once image placement, the layout cursor and the end-to-end
    page structure.

    Conventions of the embedding.
    - A Python [str] is a list of Unicode code points ([list N]); string
      literals are written in UTF-8 and decoded by [u].
    - Python floats are idealised as exact rationals ([Q]): every length
      (points, margins, scale factors) is computed with the same
      arithmetic expressions as the source, without rounding.
    - reportlab's canvas is a list of finished pages plus the operations
      of the page being drawn; [showPage] and [save] are modelled as
      reportlab defines them.
    - What the code reads from its surroundings (font metrics, the image
      decoder, the Unicode tables behind [str.lower] and [\d], the image
      directory, the clock) is gathered in the record [Env] or passed as
      an argument. *)

From Stdlib Require Import List ZArith NArith QArith Qround Lqa Lia Bool.
From Stdlib Require Import Strings.String Strings.Ascii Numbers.DecimalString.
From stdpp Require Import gmap sorting.
Import ListNotations.

(** ** Python strings *)

Module Py.

(** A Python string: its code points, in order. *)
Abbreviation str := (list N).
Abbreviation bytes := (list N).

(** UTF-8 decoding of a literal, so that the source's literals can be
    written as they stand in the Python files. *)
Fixpoint utf8_decode (bs : list N) : str :=
  match bs with
  | [] => []
  | b :: r =>
      if (b <? 128)%N then b :: utf8_decode r
      else if (b <? 224)%N then
        match r with
        | c1 :: r' => ((b - 192) * 64 + (c1 - 128))%N :: utf8_decode r'
        | _ => []
        end
      else if (b <? 240)%N then
        match r with
        | c1 :: c2 :: r' =>
            ((b - 224) * 4096 + (c1 - 128) * 64 + (c2 - 128))%N :: utf8_decode r'
        | _ => []
        end
      else
        match r with
        | c1 :: c2 :: c3 :: r' =>
            ((b - 240) * 262144 + (c1 - 128) * 4096 + (c2 - 128) * 64 + (c3 - 128))%N
              :: utf8_decode r'
        | _ => []
        end
  end.

Definition u (s : string) : str :=
  utf8_decode (List.map N_of_ascii (list_ascii_of_string s)).

(** [a == b] on strings. *)
Fixpoint str_eqb (a b : str) : bool :=
  match a, b with
  | [], [] => true
  | x :: a', y :: b' => (x =? y)%N && str_eqb a' b'
  | _, _ => false
  end.

(** [str.isspace] of one character: the code points Python treats as
    whitespace ([str.strip()] and [str.split()] with no separator). *)
Definition isspace (c : N) : bool :=
  ((9 <=? c) && (c <=? 13) || (28 <=? c) && (c <=? 32)
   || (c =? 133) || (c =? 160) || (c =? 5760)
   || (8192 <=? c) && (c <=? 8202)
   || (c =? 8232) || (c =? 8233) || (c =? 8239) || (c =? 8287)
   || (c =? 12288))%N.

Fixpoint lstrip (s : str) : str :=
  match s with
  | [] => []
  | c :: r => if isspace c then lstrip r else s
  end.

Definition rstrip (s : str) : str := rev (lstrip (rev s)).

(** [s.strip()] *)
Definition strip (s : str) : str := rstrip (lstrip s).

(** Truth value of a string or of a byte string: non-empty. *)
Definition truthy {A} (s : list A) : bool :=
  match s with [] => false | _ => true end.

(** [s.startswith(p)] *)
Fixpoint startswith (s p : str) : bool :=
  match p, s with
  | [], _ => true
  | x :: p', y :: s' => (x =? y)%N && startswith s' p'
  | _ :: _, [] => false
  end.

(** [s.endswith(p)] *)
Definition endswith (s p : str) : bool := startswith (rev s) (rev p).

(** [sub in s]: [sub] occurs in [s] as a contiguous substring. *)
Fixpoint contains (s sub : str) : bool :=
  startswith s sub ||
  match s with
  | [] => false
  | _ :: r => contains r sub
  end.

(** [s.split('\n')]: always at least one piece. *)
Fixpoint split_nl (s : str) : list str :=
  match s with
  | [] => [[]]
  | c :: r =>
      if (c =? 10)%N then [] :: split_nl r
      else match split_nl r with
           | h :: t => (c :: h) :: t
           | [] => [[c]]
           end
  end.

(** The longest prefix whose characters satisfy [p], and the rest. *)
Fixpoint span (p : N -> bool) (s : str) : str * str :=
  match s with
  | [] => ([], [])
  | c :: r => if p c then let (a, b) := span p r in (c :: a, b) else ([], s)
  end.

(** [s.split(maxsplit=1)]: split on runs of whitespace, at most once;
    the remainder keeps its trailing whitespace. *)
Definition split_maxsplit1 (s : str) : list str :=
  match lstrip s with
  | [] => []
  | s1 =>
      let (w, r) := span (fun c => negb (isspace c)) s1 in
      match lstrip r with
      | [] => [w]
      | r' => [w; r']
      end
  end.

(** [str(n)] for a non-negative integer. *)
Definition str_of_N (n : N) : str :=
  List.map N_of_ascii (list_ascii_of_string (NilEmpty.string_of_uint (N.to_uint n))).

(** [str(z)] for an integer. *)
Definition str_of_Z (z : Z) : str :=
  match z with
  | Zneg p => 45%N :: str_of_N (Npos p)
  | _ => str_of_N (Z.to_N z)
  end.

(** Zero-padded decimal of width 2 ([%m], [%d]) and 4 ([%Y]). *)
Definition pad2 (n : N) : str :=
  if (n <? 10)%N then 48%N :: str_of_N n else str_of_N n.

Definition pad4 (n : N) : str :=
  let d := str_of_N n in
  repeat 48%N (4 - length d) ++ d.

(** Order of strings ([<=] on [str]: lexicographic on code points), the
    key order of [list.sort(key=lambda x: x[0])]. *)
Fixpoint str_leb (a b : str) : bool :=
  match a, b with
  | [], _ => true
  | _ :: _, [] => false
  | x :: a', y :: b' => (x <? y)%N || ((x =? y)%N && str_leb a' b')
  end.

(** [list.sort(key=...)]: a stable sort by key. *)
Fixpoint insert_by {A} (key : A -> str) (x : A) (l : list A) : list A :=
  match l with
  | [] => [x]
  | y :: r => if str_leb (key y) (key x) then y :: insert_by key x r else x :: l
  end.

Definition sort_by {A} (key : A -> str) (l : list A) : list A :=
  fold_left (fun acc x => insert_by key x acc) l [].

(** *** [os.path.splitext]

    [genericpath._splitext]: the extension starts at the last dot of the
    last path component, provided a character other than a dot stands
    before it in that component.  [is_sep] tells the path separators of
    the platform ([/] on POSIX; also the backslash on Windows). *)

(** [p.rfind(...)]: index of the last character satisfying [f], or -1. *)
Definition rfind (f : N -> bool) (p : str) : Z :=
  snd (fold_left (fun (acc : Z * Z) c =>
                    let (i, found) := acc in
                    ((i + 1)%Z, if f c then i else found))
                 p (0%Z, (-1)%Z)).

Definition splitext (is_sep : N -> bool) (p : str) : str * str :=
  let sepIndex := rfind is_sep p in
  let dotIndex := rfind (N.eqb 46) p in
  if (dotIndex >? sepIndex)%Z then
    let filename := skipn (Z.to_nat (sepIndex + 1)) (firstn (Z.to_nat dotIndex) p) in
    if existsb (fun c => negb (c =? 46)%N) filename
    then (firstn (Z.to_nat dotIndex) p, skipn (Z.to_nat dotIndex) p)
    else (p, [])
  else (p, []).

(** *** The two regular expressions of the source *)

(** Strip a literal prefix. *)
Fixpoint drop_prefix (p s : str) : option str :=
  match p, s with
  | [], _ => Some s
  | x :: p', y :: s' => if (x =? y)%N then drop_prefix p' s' else None
  | _ :: _, [] => None
  end.

(** One attempt of [\{\{IMG:([^}]+)\}\}] at the start of [s]: the literal
    [{{IMG:], the longest non-empty run of characters other than [}]
    (the group), then [}}].  A shorter run cannot match: the character
    after it would belong to the run, hence not be [}]. *)
Definition img_tag_at (s : str) : option str :=
  match drop_prefix (u "{{IMG:") s with
  | None => None
  | Some r =>
      let (g, r') := span (fun c => negb (c =? 125)%N) r in
      if truthy g && startswith r' (u "}}") then Some g else None
  end.

(** [IMG_TAG_PATTERN.search(s)]: the leftmost match; the result is
    [match.group(1)]. *)
Fixpoint img_tag_search (s : str) : option str :=
  match img_tag_at s with
  | Some g => Some g
  | None =>
      match s with
      | [] => None
      | _ :: r => img_tag_search r
      end
  end.

(** [re.match(r'^\d+\.', s)]; [is_decimal] is the Unicode class [\d]. *)
Definition match_number_dot (is_decimal : N -> bool) (s : str) : bool :=
  let (d, r) := span is_decimal s in
  truthy d && startswith r [46%N].

End Py.

(** ** The reportlab canvas and the surroundings of the code *)

Import Py.

(** Where a drawn image comes from: [ImageReader(io.BytesIO(data))] or
    [ImageReader(img_path)].  [TableBuffer] is the buffer of the
    placeholder site of [create_pdf]; it records the pool key [img_name]
    whose bytes are drawn (reportlab itself only sees the bytes). *)
Inductive image_source :=
| Buffer (data : bytes)
| TableBuffer (img_name : str) (data : bytes)
| File (path : str).

(** The canvas calls the two generators make. *)
Inductive op :=
| SetFont (name : str) (size : Q)
| DrawString (x y : Q) (text : str)
| DrawCentredString (x y : Q) (text : str)
| DrawImage (src : image_source) (x y w h : Q).

(** A canvas: the pages closed by [showPage], and the operations of the
    page being drawn. *)
Record canvas := Canvas { pages : list (list op); current : list op }.

Definition empty_canvas : canvas := Canvas [] [].

Definition draw (c : canvas) (o : op) : canvas :=
  Canvas (pages c) (current c ++ [o]).

(** [c.showPage()]: closes the current page, empty or not. *)
Definition showPage (c : canvas) : canvas :=
  Canvas (pages c ++ [current c]) [].

(** [c.save()]: closes the current page when something was drawn on it. *)
Definition save (c : canvas) : canvas :=
  if truthy (current c) then showPage c else c.

(** What the code reads from outside its arguments. *)
Record Env := {
  (** [setup_fonts]: a candidate font file exists and registers *)
  font_loaded : bool;
  (** [c.stringWidth(text, fontName, fontSize)] *)
  stringWidth : str -> str -> Q -> Q;
  (** [Image.open(io.BytesIO(data)).size]; [None] when PIL raises *)
  image_size : bytes -> option (N * N);
  (** [c.drawImage(ImageReader(io.BytesIO(data)), ...)] returns *)
  image_drawable : bytes -> bool;
  (** the same two for an image file, by path *)
  file_image_size : str -> option (N * N);
  file_drawable : str -> bool;
  (** [str.lower] *)
  str_lower : str -> str;
  (** the class [\d] of [re] *)
  is_decimal : N -> bool;
  (** the path separators of [os.path] *)
  is_sep : N -> bool;
  (** [os.path.join] *)
  path_join : str -> str -> str;
  (** [os.listdir(d)] when [os.path.exists(d)], [None] otherwise *)
  listdir : str -> option (list str)
}.

(** [min(a, b, c)] of Python: the first of the smallest. *)
Definition min2 (a b : Q) : Q := if Qle_bool a b then a else b.
Definition min3 (a b c : Q) : Q := min2 (min2 a b) c.

(** [x < y] on floats. *)
Definition Qlt_bool (x y : Q) : bool := negb (Qle_bool y x).

(** An [int] as a float. *)
Definition QN (n : N) : Q := inject_Z (Z.of_N n).

(** reportlab's units: [inch = 72.0], [mm = inch / 2.54 * 0.1], and
    [A4 = (210*mm, 297*mm)]. *)
Definition mm : Q := (72 / (254 # 100) * (1 # 10))%Q.
Definition A4 : Q * Q := ((210 * mm)%Q, (297 * mm)%Q).

(** The image sources drawn at a placeholder, in drawing order. *)
Definition placed_of_op (o : op) : list str :=
  match o with
  | DrawImage (TableBuffer n _) _ _ _ _ => [n]
  | DrawImage (File p) _ _ _ _ => [p]
  | _ => []
  end.

Definition placed_assets (c : canvas) : list str :=
  flat_map (flat_map placed_of_op) (pages c) ++ flat_map placed_of_op (current c).

(** The sizes (width, height) of the images drawn at placeholders, as
    reduced fractions, in drawing order. *)
Definition size_of_op (o : op) : list (Q * Q) :=
  match o with
  | DrawImage (TableBuffer _ _) _ _ w h => [(Qred w, Qred h)]
  | DrawImage (File _) _ _ w h => [(Qred w, Qred h)]
  | _ => []
  end.

Definition placed_sizes (c : canvas) : list (Q * Q) :=
  flat_map (flat_map size_of_op) (pages c) ++ flat_map size_of_op (current c).

(** The strings drawn on a page, in drawing order. *)
Definition text_of_op (o : op) : list str :=
  match o with
  | DrawString _ _ t => [t]
  | DrawCentredString _ _ t => [t]
  | _ => []
  end.

Definition page_texts (p : list op) : list str := flat_map text_of_op p.

(** ** [pdf_generator.py] *)

Module V1.
Section Generator.
Context (env : Env).
Local Open Scope Q_scope.

(** [setup_fonts]: the registered pair, or the built-in fallback. *)
Definition setup_fonts : str * str :=
  if font_loaded env then (u "Korean", u "KoreanBold")
  else (u "Helvetica", u "Helvetica-Bold").

(** The result of [classify_images]. *)
Record classified := Classified {
  cover : option bytes;
  page_bg : option bytes;
  chapter_bg : option bytes;
  toc : list (str * bytes);
  guide : list (str * bytes);
  tables : list (str * bytes)
}.

(** [d[name] = data] on a dict kept in insertion order. *)
Fixpoint dict_set (d : list (str * bytes)) (name : str) (data : bytes) : list (str * bytes) :=
  match d with
  | [] => [(name, data)]
  | (k, v) :: r => if str_eqb k name then (k, data) :: r else (k, v) :: dict_set r name data
  end.

(** One turn of the loop of [classify_images]. *)
Definition classify_image (r : classified) (entry : str * bytes) : classified :=
  let (name, data) := entry in
  let name_lower := str_lower env name in
  if contains name (u "표지") || contains name_lower (u "cover") then
    Classified (Some data) (page_bg r) (chapter_bg r) (toc r) (guide r) (tables r)
  else if contains name (u "장배경") || contains name_lower (u "chapter") then
    Classified (cover r) (page_bg r) (Some data) (toc r) (guide r) (tables r)
  else if contains name (u "내지") || contains name_lower (u "bg")
          || contains name_lower (u "page") then
    Classified (cover r) (Some data) (chapter_bg r) (toc r) (guide r) (tables r)
  else if contains name (u "목차") || contains name_lower (u "toc") then
    Classified (cover r) (page_bg r) (chapter_bg r) (toc r ++ [(name, data)]) (guide r) (tables r)
  else if contains name (u "안내") || contains name_lower (u "guide") then
    Classified (cover r) (page_bg r) (chapter_bg r) (toc r) (guide r ++ [(name, data)]) (tables r)
  else
    Classified (cover r) (page_bg r) (chapter_bg r) (toc r) (guide r) (dict_set (tables r) name data).

Definition classify_images (images : list (str * bytes)) : classified :=
  let r := fold_left classify_image images (Classified None None None [] [] []) in
  Classified (cover r) (page_bg r) (chapter_bg r)
             (sort_by fst (toc r)) (sort_by fst (guide r)) (tables r).

(** The matching condition of [find_image_by_tag] for one pool entry. *)
Definition tag_matches (tag_name img_name : str) : bool :=
  let img_base := fst (splitext (is_sep env) img_name) in
  str_eqb tag_name img_name
  || str_eqb tag_name img_base
  || contains img_name tag_name
  || endswith img_base tag_name.

(** The [for] loop of [find_image_by_tag]. *)
Fixpoint find_in_pool (tag_name : str) (images_dict : list (str * bytes))
  : option str * option bytes * option str :=
  match images_dict with
  | [] => (Some tag_name, None, None)
  | (img_name, img_data) :: rest =>
      if tag_matches tag_name img_name
      then (Some tag_name, Some img_data, Some img_name)
      else find_in_pool tag_name rest
  end.

Definition find_image_by_tag (text : str) (images_dict : list (str * bytes))
  : option str * option bytes * option str :=
  match img_tag_search text with
  | None => (None, None, None)
  | Some g => find_in_pool (strip g) images_dict
  end.

(** *** [create_pdf] *)

Definition width : Q := fst A4.
Definition height : Q := snd A4.

Definition TITLE_SIZE : Q := 30.
Definition SUBTITLE_SIZE : Q := 25.
Definition BODY_SIZE : Q := 17.

(** [int(BODY_SIZE * 1.7)] *)
Definition LINE_HEIGHT : Q := inject_Z (Qfloor (BODY_SIZE * (17 # 10))).

Definition MARGIN_TOP : Q := 15 * (283465 # 100000).
Definition MARGIN_BOTTOM : Q := 15 * (283465 # 100000).
Definition MARGIN_LEFT : Q := 25 * (283465 # 100000).
Definition MARGIN_RIGHT : Q := 25 * (283465 # 100000).

Definition MAX_WIDTH : Q := width - MARGIN_LEFT - MARGIN_RIGHT.

Definition has_img_tag (text : str) : bool :=
  match img_tag_search text with Some _ => true | None => false end.

Definition is_chapter_title (text : str) : bool :=
  startswith text (u "제") && contains (firstn 10 text) (u "장").

Definition is_subtitle (text : str) : bool :=
  existsb (startswith text) [u "▶"; u "●"; u "◆"; u "★"; u "■"; u "□"; u "○"].

(** The inline wrapping loop of the subtitle and body branches:
    [line] is extended while the measured width stays below [MAX_WIDTH];
    otherwise it is appended to [lines] as it is and restarted. *)
Fixpoint wrap_loop (font : str) (size : Q) (text : str) (line : str) (lines : list str)
  : list str :=
  match text with
  | [] => if truthy line then lines ++ [line] else lines
  | char :: rest =>
      if Qlt_bool (stringWidth env (line ++ [char]) font size) MAX_WIDTH
      then wrap_loop font size rest (line ++ [char]) lines
      else wrap_loop font size rest [char] (lines ++ [line])
  end.

Definition wrap_inline (font : str) (size : Q) (text : str) : list str :=
  wrap_loop font size text [] [].

(** The variables [create_pdf] carries through the chapters. *)
Record state := State {
  cv : canvas;
  page_num : N;
  y : Q;
  first_item : bool;
  used_images : gset str
}.

Section Body.
(** The fonts and the classified images of one call. *)
Context (font_name bold_name : str) (cl : classified).

(** [try: c.drawImage(ImageReader(io.BytesIO(img)), 0, 0, width, height)
    except: pass], under [if img:]. *)
Definition draw_background (c : canvas) (img : option bytes) : canvas :=
  match img with
  | Some data =>
      if truthy data && image_drawable env data
      then draw c (DrawImage (Buffer data) 0 0 width height)
      else c
  | None => c
  end.

(** A table-of-contents or guide page: the image scaled to the page and
    centred, then [showPage]; a failure inside [try] leaves the page
    empty. *)
Definition full_page_image (c : canvas) (entry : str * bytes) : canvas :=
  let data := snd entry in
  let c' :=
    match image_size env data with
    | Some (img_w, img_h) =>
        if (img_w =? 0)%N || (img_h =? 0)%N then c
        else
          let scale := min3 (width / QN img_w) (height / QN img_h) 1 in
          let new_w := QN img_w * scale in
          let new_h := QN img_h * scale in
          if image_drawable env data
          then draw c (DrawImage (Buffer data) ((width - new_w) / 2) ((height - new_h) / 2)
                                 new_w new_h)
          else c
    | None => c
    end in
  showPage c'.

(** The closure [new_page]. *)
Definition new_page (st : state) : state :=
  let c := draw (cv st) (SetFont font_name 10) in
  let c := draw c (DrawString (width - MARGIN_RIGHT) MARGIN_BOTTOM (str_of_N (page_num st))) in
  let c := showPage c in
  let c := draw_background c (page_bg cl) in
  State c (page_num st + 1) (height - MARGIN_TOP - 40) (first_item st) (used_images st).

Definition set_cv (st : state) (c : canvas) : state :=
  State c (page_num st) (y st) (first_item st) (used_images st).

Definition set_y (st : state) (v : Q) : state :=
  State (cv st) (page_num st) v (first_item st) (used_images st).

(** The chapter-title branch. *)
Definition title_item (st : state) (text : str) : state :=
  let c := draw_background (cv st) (chapter_bg cl) in
  let parts := split_maxsplit1 text in
  let main_title := match parts with p0 :: _ => p0 | [] => text end in
  let sub_title := match parts with _ :: p1 :: _ => p1 | _ => [] end in
  let c := draw c (SetFont bold_name TITLE_SIZE) in
  let title_width := stringWidth env main_title bold_name TITLE_SIZE in
  let c := draw c (DrawString ((width - title_width) / 2) (height * (55 # 100)) main_title) in
  let c :=
    if truthy sub_title then
      let c := draw c (SetFont font_name SUBTITLE_SIZE) in
      let sub_width := stringWidth env sub_title font_name SUBTITLE_SIZE in
      draw c (DrawString ((width - sub_width) / 2)
                         (height * (55 # 100) - TITLE_SIZE - 15) sub_title)
    else c in
  let c := showPage c in
  let c := draw_background c (page_bg cl) in
  State c (page_num st + 1) (height - MARGIN_TOP - 40) false (used_images st).

(** The image-tag branch.  Inside [try]: PIL opens the image, the scale
    is computed (a zero dimension raises), the page is broken when the
    image does not fit, the image is drawn, its name is recorded and the
    cursor moves below it.  An exception leaves what was done before it. *)
Definition image_item (st : state) (text : str) : state :=
  match find_image_by_tag text (tables cl) with
  | (_, Some img_data, Some img_name) =>
      if truthy img_data && negb (bool_decide (img_name ∈ used_images st)) then
        match image_size env img_data with
        | Some (img_w, img_h) =>
            if (img_w =? 0)%N || (img_h =? 0)%N then st
            else
              let scale := min3 (MAX_WIDTH / QN img_w) (height * (5 # 10) / QN img_h) 1 in
              let new_w := QN img_w * scale in
              let new_h := QN img_h * scale in
              let st1 :=
                if Qlt_bool (y st - new_h) (MARGIN_BOTTOM + 40) then new_page st else st in
              let img_x := (width - new_w) / 2 in
              let img_y := y st1 - new_h in
              if image_drawable env img_data then
                State (draw (cv st1)
                            (DrawImage (TableBuffer img_name img_data) img_x img_y new_w new_h))
                      (page_num st1)
                      (img_y - LINE_HEIGHT * 2)
                      (first_item st1)
                      ({[ img_name ]} ∪ used_images st1)
              else st1
        | None => st
        end
      else st
  | _ => st
  end.

(** Drawing the wrapped lines of a subtitle. *)
Fixpoint draw_subtitle_lines (st : state) (lines : list str) : state :=
  match lines with
  | [] => st
  | ln :: rest =>
      let st := set_cv st (draw (cv st) (DrawString MARGIN_LEFT (y st) ln)) in
      draw_subtitle_lines (set_y st (y st - (SUBTITLE_SIZE + 5))) rest
  end.

(** The subtitle branch. *)
Definition subtitle_item (st : state) (text : str) : state :=
  let st := set_cv st (draw (cv st) (SetFont font_name SUBTITLE_SIZE)) in
  let subtitle_lines := wrap_inline font_name SUBTITLE_SIZE text in
  let subtitle_height :=
    QN (N.of_nat (length subtitle_lines)) * (SUBTITLE_SIZE + 5) + LINE_HEIGHT * 2 in
  let st :=
    if Qlt_bool (y st - subtitle_height) (MARGIN_BOTTOM + 40) then
      let st := new_page st in
      set_cv st (draw (cv st) (SetFont font_name SUBTITLE_SIZE))
    else st in
  let st := set_y st (y st - LINE_HEIGHT * 2) in
  let st := draw_subtitle_lines st subtitle_lines in
  set_y st (y st - 10).

(** Drawing the wrapped lines of a paragraph, page by page. *)
Fixpoint draw_body_lines (st : state) (lines : list str) : state :=
  match lines with
  | [] => st
  | ln :: rest =>
      let st :=
        if Qlt_bool (y st) (MARGIN_BOTTOM + 40) then
          let st := new_page st in
          set_cv st (draw (cv st) (SetFont font_name BODY_SIZE))
        else st in
      let st := set_cv st (draw (cv st) (DrawString MARGIN_LEFT (y st) ln)) in
      draw_body_lines (set_y st (y st - LINE_HEIGHT)) rest
  end.

(** The body branch. *)
Definition body_item (st : state) (text : str) : state :=
  let st := set_cv st (draw (cv st) (SetFont font_name BODY_SIZE)) in
  let lines := wrap_inline font_name BODY_SIZE text in
  let st := draw_body_lines st lines in
  State (cv st) (page_num st) (y st - 5) false (used_images st).

(** One turn of the [while] loop over the paragraphs of a chapter:
    the four tests in the order of the source. *)
Definition item (st : state) (text : str) : state :=
  if is_chapter_title text && first_item st then title_item st text
  else if has_img_tag text then image_item st text
  else if is_subtitle text then subtitle_item st text
  else body_item st text.

(** One chapter document: its paragraphs ([content[i]["text"]], the
    style is not read), then the page number and [showPage]. *)
Definition chapter (st : state) (doc : str * list (str * str)) : state :=
  let st := State (cv st) (page_num st) (height - MARGIN_TOP) true (used_images st) in
  let st := fold_left item (List.map fst (snd doc)) st in
  let c := draw (cv st) (SetFont font_name 10) in
  let c := draw c (DrawString (width - MARGIN_RIGHT) MARGIN_BOTTOM (str_of_N (page_num st))) in
  State (showPage c) (page_num st + 1) (y st) (first_item st) (used_images st).

(** The cover page. *)
Definition cover_page (customer_name : str) : canvas :=
  let c := draw_background empty_canvas (cover cl) in
  let c := draw c (SetFont font_name 28) in
  let name_text := customer_name ++ u " 님" in
  let text_width := stringWidth env name_text font_name 28 in
  let c := draw c (DrawString ((width - text_width) / 2) (height * (2 # 10)) name_text) in
  showPage c.

End Body.

(** The state in which [create_pdf] ends; the calls of
    [progress_callback] and the copy to [output_path] are left out. *)
Definition run (docx_contents : list (str * list (str * str)))
  (images : list (str * bytes)) (customer_name : str) : state :=
  let (font_name, bold_name) := setup_fonts in
  let cl := classify_images images in
  let c := cover_page font_name cl customer_name in
  let c := fold_left full_page_image (toc cl) c in
  let st := State c (2 + N.of_nat (length (toc cl))) 0 true ∅ in
  let st := fold_left (chapter font_name bold_name cl) docx_contents st in
  let c := fold_left full_page_image (guide cl) (cv st) in
  set_cv st (save c).

(** The document [create_pdf] returns. *)
Definition create_pdf (docx_contents : list (str * list (str * str)))
  (images : list (str * bytes)) (customer_name : str) : canvas :=
  cv (run docx_contents images customer_name).

End Generator.
End V1.

(** ** [pdf_generator_v2.py] *)

Module V2.
Section Generator.
Context (env : Env).
Local Open Scope Q_scope.

Definition PAGE_WIDTH : Q := fst A4.
Definition PAGE_HEIGHT : Q := snd A4.

Definition MARGIN_TOP : Q := 25 * mm.
Definition MARGIN_BOTTOM : Q := 25 * mm.
Definition MARGIN_LEFT : Q := 25 * mm.
Definition MARGIN_RIGHT : Q := 25 * mm.

Definition TITLE_SIZE : Q := 30.
Definition SUBTITLE_SIZE : Q := 25.
Definition BODY_SIZE : Q := 17.

Definition LINE_HEIGHT_RATIO : Q := 12 # 10.
Definition BODY_LINE_HEIGHT : Q := BODY_SIZE * LINE_HEIGHT_RATIO.
Definition SUBTITLE_LINE_HEIGHT : Q := SUBTITLE_SIZE * LINE_HEIGHT_RATIO.

Definition TEXT_WIDTH : Q := PAGE_WIDTH - MARGIN_LEFT - MARGIN_RIGHT.
Definition TEXT_HEIGHT : Q := PAGE_HEIGHT - MARGIN_TOP - MARGIN_BOTTOM.

(** [setup_fonts]: the registered pair, or the built-in fallback. *)
Definition setup_fonts : str * str :=
  if font_loaded env then (u "Korean", u "KoreanBold")
  else (u "Helvetica", u "Helvetica-Bold").

(** The test of [find_image] for one file name. *)
Definition file_matches (tag_name filename : str) : bool :=
  let base_name := fst (splitext (is_sep env) filename) in
  str_eqb tag_name filename || str_eqb tag_name base_name || contains filename tag_name.

(** The [for] loop of [find_image]. *)
Fixpoint find_file (tag_name images_dir : str) (files : list str) : option str :=
  match files with
  | [] => None
  | filename :: rest =>
      if file_matches tag_name filename
      then Some (path_join env images_dir filename)
      else find_file tag_name images_dir rest
  end.

(** [find_image]; an [images_dir] of [None] is the empty string here. *)
Definition find_image (tag_name images_dir : str) : option str :=
  if negb (truthy images_dir) then None
  else match listdir env images_dir with
       | None => None
       | Some files => find_file tag_name images_dir files
       end.

(** The inner loop of [wrap_text] over the characters of a paragraph,
    and what follows it. *)
Fixpoint wrap_chars (font_name : str) (font_size max_width : Q)
  (paragraph line : str) (lines : list str) : list str :=
  match paragraph with
  | [] => if truthy line then lines ++ [line] else lines
  | char :: rest =>
      let test_line := line ++ [char] in
      if Qle_bool (stringWidth env test_line font_name font_size) max_width
      then wrap_chars font_name font_size max_width rest test_line lines
      else wrap_chars font_name font_size max_width rest [char]
                      (if truthy line then lines ++ [line] else lines)
  end.

(** One turn of the outer loop of [wrap_text]. *)
Definition wrap_paragraph (font_name : str) (font_size max_width : Q)
  (lines : list str) (paragraph : str) : list str :=
  if negb (truthy (strip paragraph)) then lines ++ [[]]
  else wrap_chars font_name font_size max_width paragraph [] lines.

Definition wrap_text (text font_name : str) (font_size max_width : Q) : list str :=
  fold_left (wrap_paragraph font_name font_size max_width) (split_nl text) [].

(** *** [create_full_pdf] *)

(** The dict [chapter_titles]. *)
Definition chapter_titles (ch_num : Z) : option str :=
  match ch_num with
  | 1%Z => Some (u "일년 운세 리포트의 해석 관점")
  | 2%Z => Some (u "사주 구조 핵심 요약")
  | 3%Z => Some (u "일년 전체 운의 큰 흐름")
  | 4%Z => Some (u "상반기 월별 운의 작동 구조")
  | 5%Z => Some (u "하반기 월별 운의 변화 포인트")
  | 6%Z => Some (u "감정·심리 흐름")
  | 7%Z => Some (u "인간관계 전반의 운 흐름")
  | 8%Z => Some (u "연애·부부·이성 운")
  | 9%Z => Some (u "직업·일·커리어 운")
  | 10%Z => Some (u "재물·수입·지출 운")
  | 11%Z => Some (u "건강·에너지 흐름")
  | 12%Z => Some (u "선택이 중요한 시점들")
  | 13%Z => Some (u "조심해야 할 작용")
  | 14%Z => Some (u "해 운을 활용하는 전략")
  | 15%Z => Some (u "이 한 해가 남기는 의미")
  | _ => None
  end.

(** [chapter_titles.get(ch_num, "")] *)
Definition chapter_title (ch_num : Z) : str := default [] (chapter_titles ch_num).

(** The variables [create_full_pdf] carries through the document. *)
Record state := State {
  cv : canvas;
  page_num : N;
  y : Q;
  used_images : gset str
}.

Definition set_cv (st : state) (c : canvas) : state :=
  State c (page_num st) (y st) (used_images st).

Definition set_y (st : state) (v : Q) : state :=
  State (cv st) (page_num st) v (used_images st).

(** [datetime.now().strftime('%Y년 %m월 %d일')] for the date
    (year, month, day) the clock gives. *)
Definition strftime (now : N * N * N) : str :=
  let '(year, month, day) := now in
  pad4 year ++ u "년 " ++ pad2 month ++ u "월 " ++ pad2 day ++ u "일".

Section Body.
Context (font_name font_bold : str) (images_dir : str).

(** [y = new_page()]: the page number closes every page but none
    before the first. *)
Definition new_page (st : state) : state :=
  let c :=
    if (0 <? page_num st)%N then
      let c := draw (cv st) (SetFont font_name 10) in
      let c := draw c (DrawCentredString (PAGE_WIDTH / 2) (MARGIN_BOTTOM - 10 * mm)
                                         (str_of_N (page_num st))) in
      showPage c
    else cv st in
  State c (page_num st + 1) (PAGE_HEIGHT - MARGIN_TOP) (used_images st).

(** The cover page. *)
Definition cover_page (st : state) (customer_name : str)
  (basic_info : option (gmap str str)) (now : N * N * N) : state :=
  let st := new_page st in
  let c := draw (cv st) (SetFont font_bold 40) in
  let c := draw c (DrawCentredString (PAGE_WIDTH / 2) (PAGE_HEIGHT * (6 # 10))
                                     (u "사주 분석 보고서")) in
  let c := draw c (SetFont font_name 28) in
  let c := draw c (DrawCentredString (PAGE_WIDTH / 2) (PAGE_HEIGHT * (45 # 100))
                                     (customer_name ++ u " 님")) in
  let c :=
    match basic_info with
    | Some info =>
        if bool_decide (info = ∅) then c
        else
          let c := draw c (SetFont font_name 14) in
          let info_y := PAGE_HEIGHT * (35 # 100) in
          let c := draw c (DrawCentredString (PAGE_WIDTH / 2) info_y
                             (u "양력: " ++ default [] (info !! u "양력"))) in
          draw c (DrawCentredString (PAGE_WIDTH / 2) (info_y - 20)
                    (u "음력: " ++ default [] (info !! u "음력")))
    | None => c
    end in
  let c := draw c (SetFont font_name 12) in
  let c := draw c (DrawCentredString (PAGE_WIDTH / 2) (PAGE_HEIGHT * (15 # 100))
                                     (u "생성일: " ++ strftime now)) in
  set_cv st c.

(** One turn of the loop over [range(1, 16)] of the table of contents. *)
Definition toc_entry (st : state) (ch_num : Z) : state :=
  let title := chapter_title ch_num in
  let c := draw (cv st) (DrawString (MARGIN_LEFT + 20) (y st)
                           (u "제" ++ str_of_Z ch_num ++ u "장. " ++ title)) in
  let st := State c (page_num st) (y st - 25) (used_images st) in
  if Qlt_bool (y st) (MARGIN_BOTTOM + 50) then
    let st := new_page st in
    set_cv st (draw (cv st) (SetFont font_name 14))
  else st.

(** The table of contents. *)
Definition toc_pages (st : state) : state :=
  let st := new_page st in
  let c := draw (cv st) (SetFont font_bold TITLE_SIZE) in
  let c := draw c (DrawCentredString (PAGE_WIDTH / 2) (y st) (u "목 차")) in
  let st := State c (page_num st) (y st - 50) (used_images st) in
  let st := set_cv st (draw (cv st) (SetFont font_name 14)) in
  fold_left toc_entry (List.map Z.of_nat (seq 1 15)) st.

(** The image-tag branch for the tag [tag_name].  Inside [try]: PIL
    opens the file, the scale is computed (a zero dimension raises), the
    page is broken when the image does not fit, the image is drawn, its
    path is recorded and the cursor moves below it. *)
Definition image_line (st : state) (tag_name : str) : state :=
  match find_image tag_name images_dir with
  | Some img_path =>
      if truthy img_path && negb (bool_decide (img_path ∈ used_images st)) then
        match file_image_size env img_path with
        | Some (img_w, img_h) =>
            if (img_w =? 0)%N || (img_h =? 0)%N then st
            else
              let max_img_width := TEXT_WIDTH * (9 # 10) in
              let max_img_height := PAGE_HEIGHT * (4 # 10) in
              let scale := min3 (max_img_width / QN img_w) (max_img_height / QN img_h) 1 in
              let new_w := QN img_w * scale in
              let new_h := QN img_h * scale in
              let st1 :=
                if Qlt_bool (y st - new_h) (MARGIN_BOTTOM + 50) then new_page st else st in
              let img_x := (PAGE_WIDTH - new_w) / 2 in
              let img_y := y st1 - new_h in
              if file_drawable env img_path then
                State (draw (cv st1) (DrawImage (File img_path) img_x img_y new_w new_h))
                      (page_num st1)
                      (img_y - BODY_LINE_HEIGHT * 2)
                      ({[ img_path ]} ∪ used_images st1)
              else st1
        | None => st
        end
      else st
  | None => st
  end.

(** The subtitle test: [^\d+\.] or one of five leading glyphs. *)
Definition is_subtitle (line : str) : bool :=
  if match_number_dot (is_decimal env) line then true
  else existsb (startswith line) [u "▶"; u "●"; u "◆"; u "★"; u "■"].

Fixpoint draw_subtitle_lines (st : state) (wrapped : list str) : state :=
  match wrapped with
  | [] => st
  | wline :: rest =>
      let st := set_cv st (draw (cv st) (DrawString MARGIN_LEFT (y st) wline)) in
      draw_subtitle_lines (set_y st (y st - SUBTITLE_LINE_HEIGHT)) rest
  end.

(** The subtitle branch. *)
Definition subtitle_line (st : state) (line : str) : state :=
  let st := set_cv st (draw (cv st) (SetFont font_bold SUBTITLE_SIZE)) in
  let wrapped := wrap_text line font_bold SUBTITLE_SIZE TEXT_WIDTH in
  let needed_height := QN (N.of_nat (length wrapped)) * SUBTITLE_LINE_HEIGHT + 20 in
  let st :=
    if Qlt_bool (y st - needed_height) (MARGIN_BOTTOM + 30) then
      let st := new_page st in
      set_cv st (draw (cv st) (SetFont font_bold SUBTITLE_SIZE))
    else st in
  let st := set_y st (y st - 15) in
  let st := draw_subtitle_lines st wrapped in
  set_y st (y st - 10).

(** Placing one wrapped line of body text. *)
Definition body_wline (st : state) (wline : str) : state :=
  let st :=
    if Qlt_bool (y st) (MARGIN_BOTTOM + 30) then
      let st := new_page st in
      set_cv st (draw (cv st) (SetFont font_name BODY_SIZE))
    else st in
  let st := set_cv st (draw (cv st) (DrawString MARGIN_LEFT (y st) wline)) in
  set_y st (y st - BODY_LINE_HEIGHT).

(** The body branch. *)
Definition body_line (st : state) (line : str) : state :=
  let st := set_cv st (draw (cv st) (SetFont font_name BODY_SIZE)) in
  let wrapped := wrap_text line font_name BODY_SIZE TEXT_WIDTH in
  fold_left body_wline wrapped st.

(** The empty-line branch. *)
Definition blank_line (st : state) : state :=
  set_y st (y st - BODY_LINE_HEIGHT * (5 # 10)).

(** One turn of the loop over the lines of a chapter. *)
Definition content_line (st : state) (raw_line : str) : state :=
  let line := strip raw_line in
  if negb (truthy line) then blank_line st
  else
    match img_tag_search line with
    | Some tag_name => image_line st tag_name
    | None =>
        if is_subtitle line then subtitle_line st line
        else body_line st line
    end.

(** One chapter: its title page, then its lines. *)
Definition chapter (st : state) (ch : Z * str) : state :=
  let (ch_num, content) := ch in
  let ch_title := chapter_title ch_num in
  let st := new_page st in
  let c := draw (cv st) (SetFont font_bold TITLE_SIZE) in
  let c := draw c (DrawCentredString (PAGE_WIDTH / 2) (PAGE_HEIGHT * (55 # 100))
                                     (u "제" ++ str_of_Z ch_num ++ u "장")) in
  let c := draw c (SetFont font_name SUBTITLE_SIZE) in
  let c := draw c (DrawCentredString (PAGE_WIDTH / 2) (PAGE_HEIGHT * (55 # 100) - 45)
                                     ch_title) in
  let st := set_cv st c in
  let st := new_page st in
  fold_left content_line (split_nl content) st.

(** The chapters of a document from its first page on. *)
Definition assemble (chs : list (Z * str)) (customer_name : str)
  (basic_info : option (gmap str str)) (now : N * N * N) : state :=
  let st := State empty_canvas 0 0 ∅ in
  let st := cover_page st customer_name basic_info now in
  let st := toc_pages st in
  let st := State (cv st) (page_num st) (y st) ∅ in
  let st := fold_left chapter chs st in
  let c := draw (cv st) (SetFont font_name 10) in
  let c := draw c (DrawCentredString (PAGE_WIDTH / 2) (MARGIN_BOTTOM - 10 * mm)
                                     (str_of_N (page_num st))) in
  set_cv st (save c).

End Body.

(** [(ch_num, chapters[ch_num]) for ch_num in sorted(chapters.keys())] *)
Definition sorted_chapters (chapters : gmap Z str) : list (Z * str) :=
  omap (fun ch_num => pair ch_num <$> chapters !! ch_num)
       (merge_sort Z.le (elements (dom chapters))).

(** The state in which [create_full_pdf] ends: the canvas it saves and
    the page count it prints.  [basic_info] is the dict passed as
    [기본정보]; [now] is the date [datetime.now()] gives. *)
Definition run (chapters : gmap Z str) (images_dir customer_name : str)
  (basic_info : option (gmap str str)) (now : N * N * N) : state :=
  let (font_name, font_bold) := setup_fonts in
  assemble font_name font_bold images_dir (sorted_chapters chapters)
           customer_name basic_info now.

Definition create_full_pdf (chapters : gmap Z str) (images_dir customer_name : str)
  (basic_info : option (gmap str str)) (now : N * N * N) : canvas :=
  cv (run chapters images_dir customer_name basic_info now).

End Generator.
End V2.

(** ** Block roles *)

(** The roles a line or paragraph of a chapter is rendered in. *)
Inductive role := ChapterTitle | ImagePlaceholder | Subtitle | Paragraph | Spacing.

(** The branch [V1.item] takes, as a role. *)
Definition classify_v1 (first_item : bool) (text : str) : role :=
  if V1.is_chapter_title text && first_item then ChapterTitle
  else if V1.has_img_tag text then ImagePlaceholder
  else if V1.is_subtitle text then Subtitle
  else Paragraph.

(** The branch [V2.content_line] takes, as a role. *)
Definition classify_v2 (env : Env) (raw_line : str) : role :=
  let line := strip raw_line in
  if negb (truthy line) then Spacing
  else match img_tag_search line with
       | Some _ => ImagePlaceholder
       | None => if V2.is_subtitle env line then Subtitle else Paragraph
       end.

(** ** A concrete environment and the inputs of the scenarios *)

Module Sample.

(** [str.lower] on ASCII letters. *)
Definition ascii_lower (s : str) : str :=
  List.map (fun c => if (65 <=? c)%N && (c <=? 90)%N then (c + 32)%N else c) s.

(** [posixpath.join] for a relative second component. *)
Definition posix_join (a b : str) : str :=
  if negb (truthy a) || endswith a (u "/") then a ++ b else a ++ u "/" ++ b.

(** A toy image format: the first two bytes are the width and the
    height in units of 100 pixels. *)
Definition toy_size (data : bytes) : option (N * N) :=
  match data with
  | w :: h :: _ => Some (w * 100, h * 100)%N
  | _ => None
  end.

(** The image folder of the samples and the size of its files. *)
Definition sample_dir : list str := [u "05_오행분석.png"].

Definition sample_file_size (path : str) : option (N * N) :=
  if str_eqb path (u "images/05_오행분석.png") then Some (1000, 400)%N else None.

(** A font whose every glyph is one em wide: the width of a string is
    its length times the font size. *)
Definition em_width (text _font : str) (size : Q) : Q :=
  (QN (N.of_nat (length text)) * size)%Q.

Definition env : Env := {|
  font_loaded := true;
  stringWidth := em_width;
  image_size := toy_size;
  image_drawable := fun data => truthy data;
  file_image_size := sample_file_size;
  file_drawable := fun _ => true;
  str_lower := ascii_lower;
  is_decimal := fun c => (48 <=? c)%N && (c <=? 57)%N;
  is_sep := N.eqb 47;
  path_join := posix_join;
  listdir := fun d => if str_eqb d (u "images") then Some sample_dir else None
|}.

Definition nl : str := [10%N].

(** Scenario A: one chapter, no images. *)
Definition scenario_A_text : str := u "제1장 테스트" ++ nl ++ u "본문입니다.".

Definition scenario_A_chapters : gmap Z str := {[ 1%Z := scenario_A_text ]}.

Definition scenario_A_docx : list (str * list (str * str)) :=
  [(u "01.docx", [(u "제1장 테스트", u "Normal"); (u "본문입니다.", u "Normal")])].

Definition today : N * N * N := (2026, 11, 4)%N.
Definition tomorrow : N * N * N := (2026, 11, 5)%N.

(** Scenario B: one placeholder, one matching asset of 1000 x 400 pixels. *)
Definition scenario_B_chapters : gmap Z str := {[ 1%Z := u "{{IMG:05_오행분석}}" ]}.

Definition scenario_B_docx : list (str * list (str * str)) :=
  [(u "01.docx", [(u "{{IMG:05_오행분석}}", u "Normal")])].

Definition scenario_B_images : list (str * bytes) := [(u "05_오행분석.png", [10; 4]%N)].

(** Scenario C: two chapters name the same asset. *)
Definition scenario_C_chapters : gmap Z str :=
  {[ 1%Z := u "{{IMG:05_오행분석}}"; 2%Z := u "{{IMG:오행분석}}" ]}.

Definition scenario_C_docx : list (str * list (str * str)) :=
  [(u "01.docx", [(u "{{IMG:05_오행분석}}", u "Normal")]);
   (u "02.docx", [(u "{{IMG:오행분석}}", u "Normal")])].

(** The pool of the priority example, in two insertion orders. *)
Definition table_pool : list (str * bytes) :=
  [(u "01_table.png", [1; 1]%N); (u "table.png", [2; 2]%N)].

Definition table_pool_swapped : list (str * bytes) :=
  [(u "table.png", [2; 2]%N); (u "01_table.png", [1; 1]%N)].

(** A chapter whose second paragraph matches the title pattern, after
    a subtitle. *)
Definition title_after_subtitle_docx : list (str * list (str * str)) :=
  [(u "01.docx", [(u "▶ 개요", u "Normal"); (u "제1장 테스트", u "Normal")])].

(** A chapter of eighty empty lines. *)
Definition blank_chapters : gmap Z str := {[ 1%Z := concat (repeat nl 80) ]}.

End Sample.

(** ** Predicates of the statements *)

(** What every line [wrap_text] produces satisfies: it is the empty
    line of a blank paragraph, or a single character, or it fits. *)
Definition line_ok (env : Env) (font : str) (size max_width : Q) (l : str) : Prop :=
  l = [] \/ (exists c, l = [c]) \/ Qle_bool (stringWidth env l font size) max_width = true.

(** Every width test of a wrapping loop succeeds on [rest], the line
    being built starting as [line]: the text fits on one line. *)
Fixpoint tests_pass (test : str -> bool) (line rest : str) : bool :=
  match rest with
  | [] => true
  | c :: r => test (line ++ [c]) && tests_pass test (line ++ [c]) r
  end.

(** For the loop of [wrap_text] (width at most [w]) and for the inline
    loops of [create_pdf] (width below [w]). *)
Definition fits (env : Env) (font : str) (size w : Q) (s : str) : bool :=
  tests_pass (fun l => Qle_bool (stringWidth env l font size) w) [] s.

Definition fits_strictly (env : Env) (font : str) (size w : Q) (s : str) : bool :=
  tests_pass (fun l => Qlt_bool (stringWidth env l font size) w) [] s.

(** The four matching rules of [find_image_by_tag], as propositions. *)
Definition rule_a (tag name : str) : Prop := tag = name.
Definition rule_b (env : Env) (tag name : str) : Prop :=
  tag = fst (splitext (is_sep env) name).
Definition rule_c (tag name : str) : Prop := contains name tag = true.
Definition rule_d (env : Env) (tag name : str) : Prop :=
  endswith (fst (splitext (is_sep env) name)) tag = true.

Definition any_rule (env : Env) (tag name : str) : Prop :=
  rule_a tag name \/ rule_b env tag name \/ rule_c tag name \/ rule_d env tag name.

(** ** Relations of the at-most-once proofs *)

(** [create_pdf]: the names drawn at placeholders are distinct and all
    recorded in [used_images]. *)
Definition placed_inv_v1 (st : V1.state) : Prop :=
  NoDup (placed_assets (V1.cv st))
  /\ forall n, In n (placed_assets (V1.cv st)) -> n ∈ V1.used_images st.

(** A step of [create_pdf] that draws no placeholder image and leaves
    [used_images]. *)
Definition placed_same_v1 (st st' : V1.state) : Prop :=
  placed_assets (V1.cv st') = placed_assets (V1.cv st)
  /\ V1.used_images st' = V1.used_images st.

(** [create_full_pdf]: the paths drawn at placeholders are distinct and
    all recorded in [used_images]. *)
Definition placed_inv_v2 (st : V2.state) : Prop :=
  NoDup (placed_assets (V2.cv st))
  /\ forall p, In p (placed_assets (V2.cv st)) -> p ∈ V2.used_images st.

(** A step of [create_full_pdf] that draws no placeholder image and
    leaves [used_images]. *)
Definition placed_same_v2 (st st' : V2.state) : Prop :=
  placed_assets (V2.cv st') = placed_assets (V2.cv st)
  /\ V2.used_images st' = V2.used_images st.

(** ** Relations of the clock proofs *)

(** The operations of the cover page of [create_full_pdf] before its
    date line. *)
Definition cover_before (font_name font_bold customer_name : str)
  (basic_info : option (gmap str str)) : list op :=
  [SetFont font_bold 40;
   DrawCentredString (V2.PAGE_WIDTH / 2) (V2.PAGE_HEIGHT * (6 # 10)) (u "사주 분석 보고서");
   SetFont font_name 28;
   DrawCentredString (V2.PAGE_WIDTH / 2) (V2.PAGE_HEIGHT * (45 # 100))
                     (customer_name ++ u " 님")]
  ++ match basic_info with
     | Some info =>
         if bool_decide (info = ∅) then []
         else [SetFont font_name 14;
               DrawCentredString (V2.PAGE_WIDTH / 2) (V2.PAGE_HEIGHT * (35 # 100))
                                 (u "양력: " ++ default [] (info !! u "양력"));
               DrawCentredString (V2.PAGE_WIDTH / 2) (V2.PAGE_HEIGHT * (35 # 100) - 20)
                                 (u "음력: " ++ default [] (info !! u "음력"))]
     | None => []
     end
  ++ [SetFont font_name 12].

(** The date line of the cover page. *)
Definition date_line (now : N * N * N) : op :=
  DrawCentredString (V2.PAGE_WIDTH / 2) (V2.PAGE_HEIGHT * (15 # 100))
                    (u "생성일: " ++ V2.strftime now).

(** Two canvases that differ in one operation of their first page, which
    follows the operations [b]: [d1] in the one, [d2] in the other. *)
Inductive differ (b : list op) (d1 d2 : op) : canvas -> canvas -> Prop :=
| differ_current (a : list op) :
    differ b d1 d2 (Canvas [] (b ++ d1 :: a)) (Canvas [] (b ++ d2 :: a))
| differ_first (a : list op) (rest : list (list op)) (cur : list op) :
    differ b d1 d2 (Canvas ((b ++ d1 :: a) :: rest) cur) (Canvas ((b ++ d2 :: a) :: rest) cur).

(** Two states of [create_full_pdf] that differ in that operation only. *)
Definition agree (b : list op) (d1 d2 : op) (s1 s2 : V2.state) : Prop :=
  differ b d1 d2 (V2.cv s1) (V2.cv s2)
  /\ V2.page_num s1 = V2.page_num s2
  /\ V2.y s1 = V2.y s2
  /\ V2.used_images s1 = V2.used_images s2.

(** ** Predicates of the further properties *)

(** What every line of the inline loops of [create_pdf] satisfies: it is
    empty, or a single character, or measures below the maximum width. *)
Definition line_ok_v1 (env : Env) (font : str) (size : Q) (l : str) : Prop :=
  l = [] \/ (exists c, l = [c])
  \/ Qlt_bool (stringWidth env l font size) V1.MAX_WIDTH = true.

(** The text of a marker with the tag [g], and the tags the pattern
    [[^}]+] can capture. *)
Definition marker (g : str) : str := u "{{IMG:" ++ g ++ u "}}".

Definition valid_tag (g : str) : bool :=
  truthy g && forallb (fun c => negb (c =? 125)%N) g.

(** The text has a marker with the tag [g] right after the prefix
    [pre]. *)
Definition marker_at (text pre g : str) : Prop :=
  valid_tag g = true /\ exists post, text = pre ++ marker g ++ post.

(** [g] is the tag of the first marker of the text: no marker starts
    before it. *)
Definition first_marker (text g : str) : Prop :=
  exists pre,
    marker_at text pre g
    /\ forall pre' g', marker_at text pre' g' -> (length pre <= length pre')%nat.

(** [t] is [g] without its leading and trailing whitespace. *)
Definition stripped (g t : str) : Prop :=
  exists before after,
    g = before ++ t ++ after
    /\ forallb isspace before = true /\ forallb isspace after = true
    /\ match t with [] => True | c :: _ => isspace c = false end
    /\ match rev t with [] => True | c :: _ => isspace c = false end.

(** The tag occurs in the name: the name is some characters, the tag,
    and some more characters. *)
Definition occurs_in (tag name : str) : Prop :=
  exists before after, name = before ++ tag ++ after.

(** What [create_full_pdf] draws in a state: text and font settings,
    or an image file placed between the left and right margins, at
    least 50 points above the bottom margin, with its top edge at or
    below the cursor. *)
Definition placed_ok (st : V2.state) (o : op) : Prop :=
  match o with
  | DrawImage (File _) x v w h =>
      (V2.MARGIN_LEFT <= x)%Q /\ (x + w <= V2.PAGE_WIDTH - V2.MARGIN_RIGHT)%Q
      /\ (V2.MARGIN_BOTTOM + 50 <= v)%Q /\ (v + h <= V2.y st)%Q
  | DrawImage _ _ _ _ _ => False
  | _ => True
  end.

(** A run of elementary steps of [create_full_pdf]: drawing on the
    current page, moving the cursor down or marking an image used, and
    [new_page]. *)
Inductive steps (font_name : str) : V2.state -> V2.state -> Prop :=
| steps_done (st : V2.state) : steps font_name st st
| steps_draw (st : V2.state) (o : op) (st' : V2.state) :
    placed_ok st o ->
    steps font_name (V2.set_cv st (draw (V2.cv st) o)) st' -> steps font_name st st'
| steps_move (st : V2.state) (v : Q) (us : gset str) (st' : V2.state) :
    (v <= V2.y st)%Q ->
    steps font_name (V2.State (V2.cv st) (V2.page_num st) v us) st' ->
    steps font_name st st'
| steps_new_page (st st' : V2.state) :
    steps font_name (V2.new_page font_name st) st' -> steps font_name st st'.

(** A placeholder image that lies within the text area of its page. *)
Definition image_in_text_area (o : op) : Prop :=
  match o with
  | DrawImage (File _) x v w h =>
      (V2.MARGIN_LEFT <= x)%Q /\ (x + w <= V2.PAGE_WIDTH - V2.MARGIN_RIGHT)%Q
      /\ (V2.MARGIN_BOTTOM <= v)%Q /\ (v + h <= V2.PAGE_HEIGHT - V2.MARGIN_TOP)%Q
  | _ => True
  end.

(** All the operations of a canvas, page after page. *)
Definition all_ops (c : canvas) : list op := concat (pages c) ++ current c.

(** The last string drawn on a page. *)
Definition last_text (page : list op) : option str := last (page_texts page).

(** The pages [ps] end with the numbers [k], [k + 1], ... in turn. *)
Fixpoint numbered_from (k : N) (ps : list (list op)) : Prop :=
  match ps with
  | [] => True
  | p :: r => last_text p = Some (str_of_N k) /\ numbered_from (k + 1) r
  end.

(** The closed pages of a state of [create_full_pdf] are numbered from
    1, and [page_num] is the number of the page being drawn. *)
Definition numbered (st : V2.state) : Prop :=
  (N.of_nat (length (pages (V2.cv st))) + 1)%N = V2.page_num st
  /\ numbered_from 1 (pages (V2.cv st)).

(** What the table of contents draws on its page: the operations
    [toc_pages] leaves on the current page when it starts from a closed
    page. *)
Definition toc_ops (font_name font_bold : str) : list op :=
  current (V2.cv (V2.toc_pages font_name font_bold (V2.State empty_canvas 1 0 ∅))).

(** The strings of the table of contents: its heading and one entry for
    each of the numbers 1 to 15. *)
Definition toc_texts : list str :=
  u "목 차"
  :: List.map (fun n => u "제" ++ str_of_Z n ++ u "장. " ++ V2.chapter_title n)
              (List.map Z.of_nat (seq 1 15)).

(** The page number, as [new_page] and the end of [create_full_pdf]
    draw it. *)
Definition number_ops (font_name : str) (n : N) : list op :=
  [SetFont font_name 10;
   DrawCentredString (V2.PAGE_WIDTH / 2) (V2.MARGIN_BOTTOM - 10 * mm) (str_of_N n)].

(** The title page of the chapter [ch_num], closed as page [k]: the
    chapter number, the fixed title of that number, the page number. *)
Definition title_page (font_name font_bold : str) (ch_num : Z) (k : N) : list op :=
  [SetFont font_bold V2.TITLE_SIZE;
   DrawCentredString (V2.PAGE_WIDTH / 2) (V2.PAGE_HEIGHT * (55 # 100))
                     (u "제" ++ str_of_Z ch_num ++ u "장");
   SetFont font_name V2.SUBTITLE_SIZE;
   DrawCentredString (V2.PAGE_WIDTH / 2) (V2.PAGE_HEIGHT * (55 # 100) - 45)
                     (V2.chapter_title ch_num)]
  ++ number_ops font_name k.

(** The pages of a state of [create_full_pdf] once the page being drawn
    is closed by its number. *)
Definition closed_pages (font_name : str) (st : V2.state) : list (list op) :=
  pages (V2.cv st) ++ [current (V2.cv st) ++ number_ops font_name (V2.page_num st)].

(** The content pages of a chapter: the lines of its text rendered from
    the top of a fresh page of number [k], with the images [used] so
    far, and the last page closed by its number. *)
Definition content_pages (env : Env) (font_name font_bold images_dir : str)
  (content : str) (k : N) (used : gset str) : list (list op) :=
  closed_pages font_name
    (fold_left (V2.content_line env font_name font_bold images_dir) (split_nl content)
               (V2.State empty_canvas k (V2.PAGE_HEIGHT - V2.MARGIN_TOP) used)).

(** The pages of one chapter of a document: the title page of the
    chapter number, closed as page [k], then the content pages of the
    chapter's text. *)
Definition section_pages (env : Env) (font_name font_bold images_dir : str)
  (s : Z * str * N * gset str) : list (list op) :=
  let '(ch_num, content, k, used) := s in
  title_page font_name font_bold ch_num k
  :: content_pages env font_name font_bold images_dir content (k + 1) used.

(** A state with the pages [P] put before its own. *)
Definition frame (P : list (list op)) (st : V2.state) : V2.state :=
  V2.State (Canvas (P ++ pages (V2.cv st)) (current (V2.cv st)))
           (V2.page_num st) (V2.y st) (V2.used_images st).

(** In a state of [create_full_pdf], every placeholder image drawn so
    far lies within the text area and the cursor is not above it. *)
Definition boxed (st : V2.state) : Prop :=
  Forall image_in_text_area (all_ops (V2.cv st))
  /\ (V2.y st <= V2.PAGE_HEIGHT - V2.MARGIN_TOP)%Q.

(** [used_images] holds exactly what was drawn at placeholders. *)
Definition used_exact_v1 (st : V1.state) : Prop :=
  forall n, n ∈ V1.used_images st <-> In n (placed_assets (V1.cv st)).

Definition used_exact_v2 (st : V2.state) : Prop :=
  forall p, p ∈ V2.used_images st <-> In p (placed_assets (V2.cv st)).

(** ** Facts about strings *)

Lemma str_eqb_eq (a b : str) : str_eqb a b = true <-> a = b.
Proof.
  revert b; induction a as [|x a IH]; intros [|y b]; simpl; split; try congruence; try easy.
  - intros H. apply andb_prop in H as [Hx Hr].
    apply N.eqb_eq in Hx. apply IH in Hr. congruence.
  - intros H. injection H as -> ->.
    rewrite N.eqb_refl. simpl. now apply IH.
Qed.

Lemma str_eqb_neq (a b : str) : str_eqb a b = false <-> a <> b.
Proof.
  split.
  - intros H E. apply str_eqb_eq in E. congruence.
  - intros H. destruct (str_eqb a b) eqn:E; [|reflexivity].
    apply str_eqb_eq in E. contradiction.
Qed.

Lemma split_nl_one (s : str) :
  forallb (fun c => negb (c =? 10)%N) s = true -> split_nl s = [s].
Proof.
  induction s as [|c s IH]; simpl; [reflexivity|].
  intros H. apply andb_prop in H as [Hc Hs].
  apply negb_true_iff in Hc. rewrite Hc, (IH Hs). reflexivity.
Qed.

(** ** The text wrapper *)

Section WrapFacts.
Context (env : Env) (font : str) (size w : Q).

Local Abbreviation wrap_chars := (V2.wrap_chars env font size w).
Local Abbreviation wrap_paragraph := (V2.wrap_paragraph env font size w).
Local Abbreviation ok := (line_ok env font size w).

(** The inner loop loses nothing: the lines so far, the line being
    built and the characters still to come make up its result. *)
Lemma wrap_chars_concat (p line : str) (lines : list str) :
  concat (wrap_chars p line lines) = concat lines ++ line ++ p.
Proof.
  revert line lines; induction p as [|c p IH]; intros line lines; simpl.
  - destruct line as [|x line]; simpl.
    + now rewrite app_nil_r.
    + rewrite concat_app. simpl. now rewrite !app_nil_r.
  - destruct (Qle_bool _ w).
    + rewrite IH. now rewrite <- app_assoc.
    + rewrite IH. destruct line as [|x line]; simpl; [reflexivity|].
      rewrite concat_app. simpl. rewrite app_nil_r.
      now rewrite <- !app_assoc.
Qed.

Lemma Forall_snoc {A} (P : A -> Prop) (l : list A) (x : A) :
  Forall P l -> P x -> Forall P (l ++ [x]).
Proof. intros Hl Hx. apply Forall_app. split; [assumption|]. now constructor. Qed.

(** Every committed line fits or is a single character. *)
Lemma wrap_chars_ok (p line : str) (lines : list str) :
  Forall ok lines -> ok line -> Forall ok (wrap_chars p line lines).
Proof.
  revert line lines; induction p as [|c p IH]; intros line lines Hl Hline; simpl.
  - destruct line; simpl; [assumption|]. now apply Forall_snoc.
  - destruct (Qle_bool (stringWidth env (line ++ [c]) font size) w) eqn:E.
    + apply IH; [assumption|]. right; right. exact E.
    + apply IH.
      * destruct line; simpl; [assumption|]. now apply Forall_snoc.
      * right; left. now exists c.
Qed.

Lemma wrap_paragraph_concat (lines : list str) (p : str) :
  concat (wrap_paragraph lines p)
  = concat lines ++ (if truthy (strip p) then p else []).
Proof.
  unfold V2.wrap_paragraph. destruct (truthy (strip p)); simpl.
  - now rewrite wrap_chars_concat.
  - rewrite concat_app. simpl. reflexivity.
Qed.

Lemma wrap_paragraph_ok (lines : list str) (p : str) :
  Forall ok lines -> Forall ok (wrap_paragraph lines p).
Proof.
  intros Hl. unfold V2.wrap_paragraph. destruct (negb (truthy (strip p))).
  - apply Forall_snoc; [assumption|]. now left.
  - apply wrap_chars_ok; [assumption|]. now left.
Qed.

Lemma wrap_fold_concat (ps : list str) (lines : list str) :
  concat (fold_left wrap_paragraph ps lines)
  = concat lines ++ concat (List.filter (fun p => truthy (strip p)) ps).
Proof.
  revert lines; induction ps as [|p ps IH]; intros lines; simpl.
  - now rewrite app_nil_r.
  - rewrite IH, wrap_paragraph_concat.
    destruct (truthy (strip p)); simpl.
    + now rewrite <- app_assoc.
    + now rewrite app_nil_r.
Qed.

Lemma wrap_fold_ok (ps : list str) (lines : list str) :
  Forall ok lines -> Forall ok (fold_left wrap_paragraph ps lines).
Proof.
  revert lines; induction ps as [|p ps IH]; intros lines Hl; simpl; [assumption|].
  apply IH. now apply wrap_paragraph_ok.
Qed.

(** C1 (as amended).  [wrap_text] splits its input at the newlines and
    wraps each paragraph by itself.  The lines joined with no separator
    are the paragraphs of the input that are not blank, joined: the
    newlines and the paragraphs made of whitespace only are not part of
    the output (a blank paragraph gives one empty line).  An input with
    no newline that is not blank is reconstructed exactly.  Every line
    is the empty line of a blank paragraph, or a single character, or
    measures at most the maximum width. *)
Theorem wrap_text_lines (text : str) :
  concat (V2.wrap_text env text font size w)
    = concat (List.filter (fun p => truthy (strip p)) (split_nl text))
  /\ (forallb (fun c => negb (c =? 10)%N) text = true ->
      truthy (strip text) = true ->
      concat (V2.wrap_text env text font size w) = text)
  /\ Forall (line_ok env font size w) (V2.wrap_text env text font size w).
Proof.
  unfold V2.wrap_text. split; [|split].
  - now rewrite wrap_fold_concat.
  - intros Hnl Hblank. rewrite wrap_fold_concat, (split_nl_one _ Hnl).
    simpl. rewrite Hblank. simpl. now rewrite app_nil_r.
  - apply wrap_fold_ok. constructor.
Qed.

End WrapFacts.

(** C1, counterexample: the newline between two paragraphs and a
    paragraph of one space are dropped, so the lines do not join back
    to the input. *)
Lemma wrap_text_drops_newline :
  V2.wrap_text Sample.env (u "a" ++ Sample.nl ++ u "b") (u "Korean") 17 100 = [u "a"; u "b"]
  /\ str_eqb (concat (V2.wrap_text Sample.env (u "a" ++ Sample.nl ++ u "b") (u "Korean") 17 100))
             (u "a" ++ Sample.nl ++ u "b") = false
  /\ V2.wrap_text Sample.env (u " ") (u "Korean") 17 100 = [[]]
  /\ str_eqb (concat (V2.wrap_text Sample.env (u " ") (u "Korean") 17 100)) (u " ") = false.
Proof. vm_compute. repeat split; reflexivity. Qed.

(** ** Image-tag resolution *)

Section ResolveFacts.
Context (env : Env).

(** The boolean test of the loop is the disjunction of the four rules. *)
Lemma tag_matches_rules (tag name : str) :
  V1.tag_matches env tag name = true <-> any_rule env tag name.
Proof.
  unfold V1.tag_matches, any_rule, rule_a, rule_b, rule_c, rule_d.
  rewrite !orb_true_iff, !str_eqb_eq. tauto.
Qed.

Lemma tag_matches_no_rule (tag name : str) :
  V1.tag_matches env tag name = false <-> ~ any_rule env tag name.
Proof.
  rewrite <- tag_matches_rules. destruct (V1.tag_matches env tag name); split; congruence.
Qed.

(** The loop returns the first entry, in the order of the pool, that
    satisfies some rule. *)
Lemma find_in_pool_found (tag : str) (pool : list (str * bytes)) (data : bytes) (name : str) :
  V1.find_in_pool env tag pool = (Some tag, Some data, Some name) <->
  exists before after,
    pool = before ++ (name, data) :: after
    /\ any_rule env tag name
    /\ Forall (fun e => ~ any_rule env tag (fst e)) before.
Proof.
  induction pool as [|[n d] pool IH]; simpl.
  - split; [discriminate|]. intros (before & after & E & _). now destruct before.
  - destruct (V1.tag_matches env tag n) eqn:M.
    + split.
      * intros H. injection H as -> ->. exists [], pool. split; [reflexivity|].
        split; [now apply tag_matches_rules | constructor].
      * intros (before & after & E & Hr & Hb). destruct before as [|[n' d'] before].
        -- simpl in E. now injection E as -> ->.
        -- simpl in E. injection E as -> -> _. apply Forall_inv in Hb. simpl in Hb.
           apply tag_matches_rules in M. contradiction.
    + rewrite IH. split.
      * intros (before & after & -> & Hr & Hb). exists ((n, d) :: before), after.
        split; [reflexivity|]. split; [assumption|]. constructor; [|assumption].
        simpl. now apply tag_matches_no_rule.
      * intros (before & after & E & Hr & Hb). destruct before as [|[n' d'] before].
        -- simpl in E. injection E as -> ->. apply tag_matches_no_rule in M. contradiction.
        -- simpl in E. injection E as -> -> ->. exists before, after.
           split; [reflexivity|]. split; [assumption|]. now apply Forall_inv_tail in Hb.
Qed.

Lemma find_in_pool_none (tag : str) (pool : list (str * bytes)) :
  existsb (fun e => V1.tag_matches env tag (fst e)) pool = false ->
  V1.find_in_pool env tag pool = (Some tag, None, None).
Proof.
  induction pool as [|[n d] pool IH]; simpl; [reflexivity|].
  intros H. apply orb_false_iff in H as [H1 H2]. rewrite H1. now apply IH.
Qed.

Lemma find_in_pool_some (tag : str) (pool : list (str * bytes)) :
  existsb (fun e => V1.tag_matches env tag (fst e)) pool = true ->
  exists data name,
    V1.find_in_pool env tag pool = (Some tag, Some data, Some name)
    /\ In (name, data) pool /\ V1.tag_matches env tag name = true.
Proof.
  induction pool as [|[n d] pool IH]; simpl; [discriminate|].
  destruct (V1.tag_matches env tag n) eqn:M.
  - intros _. exists d, n. auto.
  - simpl. intros H. destruct (IH H) as (data & name & E & Hin & Hm).
    exists data, name. auto.
Qed.

(** The shapes of the result of the loop. *)
Lemma find_in_pool_shape (tag : str) (pool : list (str * bytes)) :
  V1.find_in_pool env tag pool = (Some tag, None, None)
  \/ exists data name,
       V1.find_in_pool env tag pool = (Some tag, Some data, Some name)
       /\ In (name, data) pool.
Proof.
  destruct (existsb (fun e => V1.tag_matches env tag (fst e)) pool) eqn:E.
  - right. destruct (find_in_pool_some _ _ E) as (d & n & H & Hin & _). eauto.
  - left. now apply find_in_pool_none.
Qed.

(** C2 (as amended).  [find_image_by_tag] resolves a marker to the
    first asset, in the order of the pool, that satisfies any of the
    four rules (a) to (d): the rules are the alternatives of one test
    made per asset, not priorities applied across the pool. *)
Theorem find_image_by_tag_first_match
  (text : str) (pool : list (str * bytes)) (tag : str) (data : bytes) (name : str) :
  V1.find_image_by_tag env text pool = (Some tag, Some data, Some name) <->
  (exists g, img_tag_search text = Some g /\ tag = strip g)
  /\ exists before after,
       pool = before ++ (name, data) :: after
       /\ any_rule env tag name
       /\ Forall (fun e => ~ any_rule env tag (fst e)) before.
Proof.
  unfold V1.find_image_by_tag. destruct (img_tag_search text) as [g|].
  - split.
    + intros H.
      assert (tag = strip g) as ->.
      { destruct (find_in_pool_shape (strip g) pool) as [E|(d & n & E & _)];
          rewrite E in H; congruence. }
      split; [now exists g|]. now apply find_in_pool_found.
    + intros [(g' & Eg & ->) H]. injection Eg as <-. now apply find_in_pool_found.
  - split; [discriminate|]. intros [(g & Eg & _) _]. discriminate.
Qed.

End ResolveFacts.

(** C2, counterexample: with ["01_table.png"] before ["table.png"] in the
    pool, the tag ["table"] resolves to ["01_table.png"], by the
    substring rule, although ["table.png"] matches with its extension
    stripped; with the pool in the other order it resolves to
    ["table.png"]. *)
Lemma table_tag_resolves_to_first_in_pool :
  V1.find_image_by_tag Sample.env (u "{{IMG:table}}") Sample.table_pool
    = (Some (u "table"), Some [1; 1]%N, Some (u "01_table.png"))
  /\ V1.find_image_by_tag Sample.env (u "{{IMG:table}}") Sample.table_pool_swapped
    = (Some (u "table"), Some [2; 2]%N, Some (u "table.png"))
  /\ V2.find_file Sample.env (u "table") (u "images") [u "01_table.png"; u "table.png"]
    = Some (u "images/01_table.png").
Proof. vm_compute. repeat split; reflexivity. Qed.

(** ** At-most-once placement *)

Lemma placed_draw (c : canvas) (o : op) :
  placed_assets (draw c o) = placed_assets c ++ placed_of_op o.
Proof. unfold placed_assets, draw. simpl. rewrite flat_map_app. simpl.
  now rewrite app_nil_r, app_assoc. Qed.

Lemma placed_showPage (c : canvas) : placed_assets (showPage c) = placed_assets c.
Proof. unfold placed_assets, showPage. simpl. rewrite flat_map_app. simpl.
  now rewrite !app_nil_r. Qed.

Lemma placed_save (c : canvas) : placed_assets (save c) = placed_assets c.
Proof. unfold save. destruct (truthy (current c)); [apply placed_showPage | reflexivity]. Qed.

Create Rewrite HintDb placed.
#[local] Hint Rewrite placed_draw placed_showPage placed_save @app_nil_r : placed.

(** Drawing a name that was not drawn before keeps the drawn names
    distinct. *)
Lemma NoDup_snoc (l : list str) (x : str) : NoDup l -> ~ In x l -> NoDup (l ++ [x]).
Proof.
  induction l as [|y l IH]; simpl; intros Hl Hx.
  - constructor; [|constructor]. now rewrite elem_of_nil.
  - apply NoDup_cons in Hl as [Hy Hl]. constructor.
    + rewrite elem_of_app, list_elem_of_singleton. intros [H| ->]; [contradiction|].
      apply Hx. now left.
    + apply IH; [assumption|]. intros H. apply Hx. now right.
Qed.

Module V1Once.
Section Facts.
Context (env : Env) (font_name bold_name : str) (cl : V1.classified).
Import V1.

Local Abbreviation inv := placed_inv_v1.
Local Abbreviation same := placed_same_v1.

Lemma same_refl st : same st st.
Proof. now split. Qed.

Lemma same_trans st1 st2 st3 : same st1 st2 -> same st2 st3 -> same st1 st3.
Proof. intros [A B] [C D]. split; congruence. Qed.

Lemma same_inv st st' : same st st' -> inv st -> inv st'.
Proof. intros [A B] [C D]. split; rewrite A, ?B; assumption. Qed.

Lemma placed_background (c : canvas) (img : option bytes) :
  placed_assets (draw_background env c img) = placed_assets c.
Proof.
  unfold draw_background. destruct img as [d|]; [|reflexivity].
  destruct (truthy d && image_drawable env d); [|reflexivity].
  autorewrite with placed. simpl. now autorewrite with placed.
Qed.

Lemma placed_full_page_image (c : canvas) (e : str * bytes) :
  placed_assets (full_page_image env c e) = placed_assets c.
Proof.
  unfold full_page_image. autorewrite with placed.
  destruct (image_size env (snd e)) as [[iw ih]|]; [|reflexivity].
  destruct ((iw =? 0)%N || (ih =? 0)%N); [reflexivity|].
  destruct (image_drawable env (snd e)); [|reflexivity].
  autorewrite with placed. simpl. now autorewrite with placed.
Qed.

Lemma placed_full_pages (l : list (str * bytes)) (c : canvas) :
  placed_assets (fold_left (full_page_image env) l c) = placed_assets c.
Proof.
  revert c; induction l as [|e l IH]; intros c; simpl; [reflexivity|].
  now rewrite IH, placed_full_page_image.
Qed.

Lemma same_new_page st : same st (new_page env font_name cl st).
Proof.
  split; [|reflexivity]. unfold new_page. simpl.
  rewrite placed_background. autorewrite with placed. simpl. now autorewrite with placed.
Qed.

Lemma same_title_item st text : same st (title_item env font_name bold_name cl st text).
Proof.
  split; [|reflexivity]. unfold title_item. simpl.
  rewrite placed_background. autorewrite with placed.
  destruct (truthy _); autorewrite with placed; simpl; autorewrite with placed;
    apply placed_background.
Qed.

Lemma same_draw_subtitle_lines lines st : same st (draw_subtitle_lines st lines).
Proof.
  revert st; induction lines as [|ln lines IH]; intros st; simpl; [apply same_refl|].
  eapply same_trans; [|apply IH]. split; [|reflexivity]. simpl.
  autorewrite with placed. simpl. now autorewrite with placed.
Qed.

Lemma same_subtitle_item st text : same st (subtitle_item env font_name cl st text).
Proof.
  unfold subtitle_item.
  match goal with |- same _ (set_y ?s _) => assert (same st s) as H end.
  { eapply same_trans; [|apply same_draw_subtitle_lines].
    destruct (Qlt_bool _ _).
    - eapply same_trans; [|eapply same_trans; [apply same_new_page|]].
      + instantiate (1 := set_cv st (draw (cv st) (SetFont font_name SUBTITLE_SIZE))).
        split; [|reflexivity]. simpl. autorewrite with placed. simpl.
        now autorewrite with placed.
      + split; [|reflexivity]. simpl. autorewrite with placed. simpl.
        now autorewrite with placed.
    - split; [|reflexivity]. simpl. autorewrite with placed. simpl.
      now autorewrite with placed. }
  destruct H as [A B]. split; simpl; assumption.
Qed.

Lemma same_draw_body_lines lines st : same st (draw_body_lines env font_name cl st lines).
Proof.
  revert st; induction lines as [|ln lines IH]; intros st; simpl; [apply same_refl|].
  eapply same_trans; [|apply IH]. destruct (Qlt_bool _ _).
  - destruct (same_new_page st) as [A B]. split; simpl; [|assumption].
    autorewrite with placed. simpl. now autorewrite with placed.
  - split; [|reflexivity]. simpl. autorewrite with placed. simpl.
    now autorewrite with placed.
Qed.

Lemma same_body_item st text : same st (body_item env font_name cl st text).
Proof.
  unfold body_item.
  match goal with |- same _ (State (cv ?s) _ _ _ (used_images ?s)) =>
    assert (same st s) as [A B] end.
  { eapply same_trans; [|apply same_draw_body_lines].
    split; [|reflexivity]. simpl. autorewrite with placed. simpl.
    now autorewrite with placed. }
  split; simpl; assumption.
Qed.

(** The placeholder branch draws a name only when it is not yet in
    [used_images], and records it. *)
Lemma inv_image_item st text : inv st -> inv (image_item env font_name cl st text).
Proof.
  intros Hinv. unfold image_item.
  destruct (find_image_by_tag env text (tables cl)) as [[t [d|]] [n|]]; try assumption.
  destruct (truthy d); simpl; [|assumption].
  destruct (bool_decide (n ∈ used_images st)) eqn:U; simpl; [assumption|].
  apply bool_decide_eq_false in U.
  destruct (image_size env d) as [[iw ih]|]; [|assumption].
  destruct ((iw =? 0)%N || (ih =? 0)%N); [assumption|].
  match goal with |- context [if Qlt_bool ?a ?b then new_page _ _ _ st else st] =>
    set (st1 := if Qlt_bool a b then new_page env font_name cl st else st) end.
  assert (same st st1) as Hs.
  { subst st1. destruct (Qlt_bool _ _); [apply same_new_page | apply same_refl]. }
  pose proof (same_inv _ _ Hs Hinv) as [Hnd Hused]. destruct Hs as [Hp Hu].
  destruct (image_drawable env d); [|now split].
  split; simpl; autorewrite with placed; simpl.
  - apply NoDup_snoc; [assumption|]. intros Hin. apply Hused in Hin.
    rewrite Hu in Hin. contradiction.
  - intros m Hm. apply in_app_or in Hm as [Hm|[<-|[]]].
    + apply elem_of_union_r, Hused, Hm.
    + apply elem_of_union_l, elem_of_singleton. reflexivity.
Qed.

Lemma inv_item st text : inv st -> inv (item env font_name bold_name cl st text).
Proof.
  intros H. unfold item.
  destruct (is_chapter_title text && first_item st).
  { eapply same_inv; [apply same_title_item | assumption]. }
  destruct (has_img_tag text); [now apply inv_image_item|].
  destruct (is_subtitle text).
  - eapply same_inv; [apply same_subtitle_item | assumption].
  - eapply same_inv; [apply same_body_item | assumption].
Qed.

Lemma inv_items texts st :
  inv st -> inv (fold_left (item env font_name bold_name cl) texts st).
Proof.
  revert st; induction texts as [|t texts IH]; intros st H; simpl; [assumption|].
  apply IH. now apply inv_item.
Qed.

Lemma inv_chapter st doc : inv st -> inv (chapter env font_name bold_name cl st doc).
Proof.
  intros [A B]. unfold chapter.
  match goal with |- context [fold_left _ _ ?s0] =>
    assert (inv s0) as H0 by (split; assumption);
    pose proof (inv_items (List.map fst (snd doc)) s0 H0) as [C D] end.
  split; simpl; autorewrite with placed; simpl; autorewrite with placed; assumption.
Qed.

Lemma inv_chapters docs st :
  inv st -> inv (fold_left (chapter env font_name bold_name cl) docs st).
Proof.
  revert st; induction docs as [|d docs IH]; intros st H; simpl; [assumption|].
  apply IH. now apply inv_chapter.
Qed.

Lemma placed_cover_page name : placed_assets (cover_page env font_name cl name) = [].
Proof.
  unfold cover_page. autorewrite with placed. simpl. autorewrite with placed.
  now rewrite placed_background.
Qed.

End Facts.

Lemma create_pdf_once (env : Env) docs images name :
  NoDup (placed_assets (V1.create_pdf env docs images name)).
Proof.
  unfold V1.create_pdf, V1.run. destruct (V1.setup_fonts env) as [font_name bold_name].
  simpl. autorewrite with placed. rewrite placed_full_pages.
  apply inv_chapters. split; simpl.
  - rewrite placed_full_pages, placed_cover_page. constructor.
  - rewrite placed_full_pages, placed_cover_page. intros n [].
Qed.

End V1Once.

Module V2Once.
Section Facts.
Context (env : Env) (font_name font_bold images_dir : str).
Import V2.

Local Abbreviation inv := placed_inv_v2.
Local Abbreviation same := placed_same_v2.

Lemma same_refl_v2 st : same st st.
Proof. now split. Qed.

Lemma same_trans_v2 st1 st2 st3 : same st1 st2 -> same st2 st3 -> same st1 st3.
Proof. intros [A B] [C D]. split; congruence. Qed.

Lemma same_inv_v2 st st' : same st st' -> inv st -> inv st'.
Proof. intros [A B] [C D]. split; rewrite A, ?B; assumption. Qed.

Lemma same_draw st o :
  placed_of_op o = [] -> same st (set_cv st (draw (cv st) o)).
Proof. intros H. split; [|reflexivity]. simpl. rewrite placed_draw, H. apply app_nil_r. Qed.

Lemma same_set_y st v : same st (set_y st v).
Proof. now split. Qed.

Lemma same_new_page_v2 st : same st (new_page font_name st).
Proof.
  split; [|reflexivity]. unfold new_page. simpl.
  destruct (0 <? page_num st)%N; [|reflexivity].
  autorewrite with placed. simpl. now autorewrite with placed.
Qed.

Lemma same_draw_subtitle_lines_v2 wrapped st : same st (draw_subtitle_lines st wrapped).
Proof.
  revert st; induction wrapped as [|l wrapped IH]; intros st; simpl; [apply same_refl_v2|].
  eapply same_trans_v2; [|apply IH]. eapply same_trans_v2; [|apply same_set_y].
  now apply same_draw.
Qed.

Lemma same_subtitle_line st line : same st (subtitle_line env font_name font_bold st line).
Proof.
  unfold subtitle_line.
  eapply same_trans_v2; [|apply same_set_y].
  eapply same_trans_v2; [|apply same_draw_subtitle_lines_v2].
  eapply same_trans_v2; [|apply same_set_y].
  eapply same_trans_v2; [apply (same_draw st (SetFont font_bold SUBTITLE_SIZE)); reflexivity|].
  destruct (Qlt_bool _ _); [|apply same_refl_v2].
  eapply same_trans_v2; [apply same_new_page_v2|]. now apply same_draw.
Qed.

Lemma same_body_wline st wline : same st (body_wline font_name st wline).
Proof.
  unfold body_wline.
  eapply same_trans_v2; [|apply same_set_y].
  eapply same_trans_v2; [|now apply same_draw].
  destruct (Qlt_bool _ _); [|apply same_refl_v2].
  eapply same_trans_v2; [apply same_new_page_v2|]. now apply same_draw.
Qed.

Lemma same_body_wlines wrapped st : same st (fold_left (body_wline font_name) wrapped st).
Proof.
  revert st; induction wrapped as [|l wrapped IH]; intros st; simpl; [apply same_refl_v2|].
  eapply same_trans_v2; [apply same_body_wline | apply IH].
Qed.

Lemma same_body_line st line : same st (body_line env font_name st line).
Proof.
  unfold body_line. eapply same_trans_v2; [|apply same_body_wlines]. now apply same_draw.
Qed.

(** The placeholder branch draws a path only when it is not yet in
    [used_images], and records it. *)
Lemma inv_image_line st tag :
  inv st -> inv (image_line env font_name images_dir st tag).
Proof.
  intros Hinv. unfold image_line.
  destruct (find_image env tag images_dir) as [p|]; [|assumption].
  destruct (truthy p); simpl; [|assumption].
  destruct (bool_decide (p ∈ used_images st)) eqn:U; simpl; [assumption|].
  apply bool_decide_eq_false in U.
  destruct (file_image_size env p) as [[iw ih]|]; [|assumption].
  destruct ((iw =? 0)%N || (ih =? 0)%N); [assumption|].
  match goal with |- context [if Qlt_bool ?a ?b then new_page _ st else st] =>
    set (st1 := if Qlt_bool a b then new_page font_name st else st) end.
  assert (same st st1) as Hs.
  { subst st1. destruct (Qlt_bool _ _); [apply same_new_page_v2 | apply same_refl_v2]. }
  pose proof (same_inv_v2 _ _ Hs Hinv) as [Hnd Hused]. destruct Hs as [Hp Hu].
  destruct (file_drawable env p); [|now split].
  split; simpl; autorewrite with placed; simpl.
  - apply NoDup_snoc; [assumption|]. intros Hin. apply Hused in Hin.
    rewrite Hu in Hin. contradiction.
  - intros m Hm. apply in_app_or in Hm as [Hm|[<-|[]]].
    + apply elem_of_union_r, Hused, Hm.
    + apply elem_of_union_l, elem_of_singleton. reflexivity.
Qed.

Lemma inv_content_line st raw_line :
  inv st -> inv (content_line env font_name font_bold images_dir st raw_line).
Proof.
  intros H. unfold content_line.
  destruct (negb (truthy (strip raw_line))).
  { eapply same_inv_v2; [apply same_set_y | assumption]. }
  destruct (img_tag_search (strip raw_line)); [now apply inv_image_line|].
  destruct (is_subtitle env (strip raw_line)).
  - eapply same_inv_v2; [apply same_subtitle_line | assumption].
  - eapply same_inv_v2; [apply same_body_line | assumption].
Qed.

Lemma inv_content_lines ls st :
  inv st -> inv (fold_left (content_line env font_name font_bold images_dir) ls st).
Proof.
  revert st; induction ls as [|l ls IH]; intros st H; simpl; [assumption|].
  apply IH. now apply inv_content_line.
Qed.

Lemma inv_chapter_v2 st ch :
  inv st -> inv (chapter env font_name font_bold images_dir st ch).
Proof.
  intros H. unfold chapter. destruct ch as [ch_num content].
  apply inv_content_lines. eapply same_inv_v2; [|exact H].
  eapply same_trans_v2; [apply same_new_page_v2|].
  eapply same_trans_v2; [|apply same_new_page_v2].
  split; [|reflexivity]. simpl. autorewrite with placed. simpl. now autorewrite with placed.
Qed.

Lemma inv_chapters_v2 chs st :
  inv st -> inv (fold_left (chapter env font_name font_bold images_dir) chs st).
Proof.
  revert st; induction chs as [|c chs IH]; intros st H; simpl; [assumption|].
  apply IH. now apply inv_chapter_v2.
Qed.

Lemma same_cover_page st name info now :
  same st (cover_page font_name font_bold st name info now).
Proof.
  unfold cover_page. destruct (same_new_page_v2 st) as [A B].
  split; [|exact B]. simpl. autorewrite with placed. simpl. autorewrite with placed.
  destruct info as [info|].
  - destruct (bool_decide (info = ∅)); autorewrite with placed; simpl;
      autorewrite with placed; exact A.
  - autorewrite with placed. simpl. autorewrite with placed. exact A.
Qed.

Lemma same_toc_entry st n : same st (toc_entry font_name st n).
Proof.
  unfold toc_entry.
  match goal with |- context [Qlt_bool (y ?s) _] => assert (same st s) as H end.
  { split; [|reflexivity]. simpl. autorewrite with placed. simpl. now autorewrite with placed. }
  destruct (Qlt_bool _ _); [|exact H].
  eapply same_trans_v2; [exact H|]. eapply same_trans_v2; [apply same_new_page_v2|].
  now apply same_draw.
Qed.

Lemma same_toc_entries ns st : same st (fold_left (toc_entry font_name) ns st).
Proof.
  revert st; induction ns as [|n ns IH]; intros st; simpl; [apply same_refl_v2|].
  eapply same_trans_v2; [apply same_toc_entry | apply IH].
Qed.

Lemma same_toc_pages st : same st (toc_pages font_name font_bold st).
Proof.
  unfold toc_pages. eapply same_trans_v2; [|apply same_toc_entries].
  eapply same_trans_v2; [apply same_new_page_v2|].
  eapply same_trans_v2; [|now apply same_draw].
  split; [|reflexivity]. simpl. autorewrite with placed. simpl. now autorewrite with placed.
Qed.

Lemma inv_reset st :
  same (State empty_canvas 0 0 ∅) st -> inv (State (cv st) (page_num st) (y st) ∅).
Proof.
  intros [A B]. split; cbn [cv used_images]; rewrite A; [constructor | intros p []].
Qed.

Lemma once_finish st o1 o2 :
  placed_of_op o1 = [] -> placed_of_op o2 = [] -> inv st ->
  NoDup (placed_assets (cv (set_cv st (save (draw (draw (cv st) o1) o2))))).
Proof.
  intros H1 H2 [A _]. cbn [cv set_cv]. autorewrite with placed.
  rewrite H1, H2, ?app_nil_r. exact A.
Qed.

Lemma assemble_once chs name info now :
  NoDup (placed_assets (cv (assemble env font_name font_bold images_dir chs name info now))).
Proof.
  unfold assemble. apply once_finish; [reflexivity | reflexivity |].
  apply inv_chapters_v2. apply inv_reset.
  eapply same_trans_v2; [apply same_cover_page | apply same_toc_pages].
Qed.

End Facts.

Lemma create_full_pdf_once (env : Env) chapters images_dir name info now :
  NoDup (placed_assets (V2.create_full_pdf env chapters images_dir name info now)).
Proof.
  unfold V2.create_full_pdf, V2.run. destruct (V2.setup_fonts env) as [font_name font_bold].
  apply assemble_once.
Qed.

End V2Once.

(** C3.  In the document of either generator the assets drawn at
    placeholders are pairwise distinct, whatever the chapters and the
    pool: an asset is drawn for a placeholder at most once.  A
    placeholder that resolves to an asset already in [used_images] leaves
    the state as it is (nothing is drawn, nothing is raised), in whatever
    chapter it stands, since [used_images] lives through the chapters. *)
Theorem placed_at_most_once (env : Env) :
  (forall docs images name,
      NoDup (placed_assets (V1.create_pdf env docs images name)))
  /\ (forall chapters images_dir name info now,
      NoDup (placed_assets (V2.create_full_pdf env chapters images_dir name info now)))
  /\ (forall font_name cl st text tag data n,
      V1.find_image_by_tag env text (V1.tables cl) = (tag, Some data, Some n) ->
      n ∈ V1.used_images st ->
      V1.image_item env font_name cl st text = st)
  /\ (forall font_name images_dir st tag p,
      V2.find_image env tag images_dir = Some p ->
      p ∈ V2.used_images st ->
      V2.image_line env font_name images_dir st tag = st).
Proof.
  split; [|split; [|split]].
  - intros. apply V1Once.create_pdf_once.
  - intros. apply V2Once.create_full_pdf_once.
  - intros font_name cl st text tag data n F U. unfold V1.image_item. rewrite F.
    rewrite (bool_decide_eq_true_2 _ U). simpl. now rewrite andb_false_r.
  - intros font_name images_dir st tag p F U. unfold V2.image_line. rewrite F.
    rewrite (bool_decide_eq_true_2 _ U). simpl. now rewrite andb_false_r.
Qed.

(** Scenario C: two chapters name the same asset; it is drawn once, in
    the first chapter. *)
Example scenario_C_placed_once :
  placed_assets (V1.create_pdf Sample.env Sample.scenario_C_docx Sample.scenario_B_images
                               (u "홍길동"))
    = [u "05_오행분석.png"]
  /\ placed_assets (V2.create_full_pdf Sample.env Sample.scenario_C_chapters (u "images")
                                       (u "홍길동") None Sample.today)
    = [u "images/05_오행분석.png"]
  /\ List.map (fun p => length (flat_map placed_of_op p))
       (pages (V2.create_full_pdf Sample.env Sample.scenario_C_chapters (u "images")
                                  (u "홍길동") None Sample.today))
    = [0; 0; 0; 1; 0; 0]%nat.
Proof. vm_compute. repeat split; reflexivity. Qed.

(** ** Classification of the blocks of a chapter *)

(** C5 (as amended).  The branch a block is rendered by is its role.
    In [create_pdf] the tests are made in the order chapter title (only
    while the first-item flag is set), image placeholder, subtitle,
    paragraph: a paragraph with an image marker is never a subtitle or a
    body paragraph, and it is a chapter title exactly when the flag is
    set and it matches the title pattern.  In [create_full_pdf] the
    order is empty line, image placeholder, subtitle, paragraph, and no
    line is classified as a chapter title: a non-blank line with a
    marker is always an image placeholder. *)
Theorem classification_precedence (env : Env) :
  (forall font_name bold_name cl st text,
      V1.item env font_name bold_name cl st text =
      match classify_v1 (V1.first_item st) text with
      | ChapterTitle => V1.title_item env font_name bold_name cl st text
      | ImagePlaceholder => V1.image_item env font_name cl st text
      | Subtitle => V1.subtitle_item env font_name cl st text
      | _ => V1.body_item env font_name cl st text
      end)
  /\ (forall first_item text,
      V1.has_img_tag text = true ->
      classify_v1 first_item text =
      if V1.is_chapter_title text && first_item then ChapterTitle else ImagePlaceholder)
  /\ (forall first_item text,
      classify_v1 first_item text = ChapterTitle <->
      V1.is_chapter_title text = true /\ first_item = true)
  /\ (forall font_name font_bold images_dir st raw_line,
      V2.content_line env font_name font_bold images_dir st raw_line =
      match classify_v2 env raw_line with
      | Spacing => V2.blank_line st
      | ImagePlaceholder =>
          match img_tag_search (strip raw_line) with
          | Some tag_name => V2.image_line env font_name images_dir st tag_name
          | None => st
          end
      | Subtitle => V2.subtitle_line env font_name font_bold st (strip raw_line)
      | _ => V2.body_line env font_name st (strip raw_line)
      end)
  /\ (forall raw_line tag_name,
      truthy (strip raw_line) = true ->
      img_tag_search (strip raw_line) = Some tag_name ->
      classify_v2 env raw_line = ImagePlaceholder)
  /\ (forall raw_line, classify_v2 env raw_line <> ChapterTitle).
Proof.
  split; [|split; [|split; [|split; [|split]]]].
  - intros font_name bold_name cl st text. unfold V1.item, classify_v1.
    destruct (V1.is_chapter_title text && V1.first_item st); [reflexivity|].
    destruct (V1.has_img_tag text); [reflexivity|].
    destruct (V1.is_subtitle text); reflexivity.
  - intros first_item text H. unfold classify_v1. rewrite H.
    destruct (V1.is_chapter_title text && first_item); reflexivity.
  - intros first_item text. unfold classify_v1. split.
    + destruct (V1.is_chapter_title text), first_item; simpl; auto;
        destruct (V1.has_img_tag text), (V1.is_subtitle text); discriminate.
    + intros [-> ->]. reflexivity.
  - intros font_name font_bold images_dir st raw_line.
    unfold V2.content_line, classify_v2.
    destruct (negb (truthy (strip raw_line))); [reflexivity|].
    destruct (img_tag_search (strip raw_line)); [reflexivity|].
    destruct (V2.is_subtitle env (strip raw_line)); reflexivity.
  - intros raw_line tag_name H1 H2. unfold classify_v2.
    destruct (truthy (strip raw_line)); [|discriminate]. now rewrite H2.
  - intros raw_line. unfold classify_v2.
    destruct (negb (truthy (strip raw_line))); [discriminate|].
    destruct (img_tag_search (strip raw_line)); [discriminate|].
    destruct (V2.is_subtitle env (strip raw_line)); discriminate.
Qed.

(** C5, counterexample: in [create_pdf] the first paragraph of a
    chapter, when it matches the title pattern, is a chapter title even
    though it carries an image marker that resolves: a title page is
    drawn with the marker as its second line, and no image. *)
Lemma marker_in_first_paragraph_is_title :
  V1.has_img_tag (u "제1장 {{IMG:05_오행분석}}") = true
  /\ classify_v1 true (u "제1장 {{IMG:05_오행분석}}") = ChapterTitle
  /\ List.map page_texts
       (pages (V1.create_pdf Sample.env
                 [(u "01.docx", [(u "제1장 {{IMG:05_오행분석}}", u "Normal")])]
                 Sample.scenario_B_images (u "홍길동")))
     = [[u "홍길동 님"]; [u "제1장"; u "{{IMG:05_오행분석}}"]; [u "3"]]
  /\ placed_assets
       (V1.create_pdf Sample.env
          [(u "01.docx", [(u "제1장 {{IMG:05_오행분석}}", u "Normal")])]
          Sample.scenario_B_images (u "홍길동"))
     = [].
Proof. vm_compute. repeat split; reflexivity. Qed.

(** C6, the behaviour of the code at the failing input.  The subtitle
    and image branches of [create_pdf] leave the first-item flag as it
    is; so after a leading subtitle the second paragraph, which matches
    the title pattern, is still drawn as a chapter title, on the page
    that already carries the subtitle. *)
Theorem title_after_subtitle_is_title_page (env : Env) :
  (forall font_name cl st text,
      V1.first_item (V1.subtitle_item env font_name cl st text) = V1.first_item st)
  /\ (forall font_name cl st text,
      V1.first_item (V1.image_item env font_name cl st text) = V1.first_item st)
  /\ classify_v1 true (u "▶ 개요") = Subtitle
  /\ classify_v1 true (u "제1장 테스트") = ChapterTitle
  /\ List.map page_texts
       (pages (V1.create_pdf Sample.env Sample.title_after_subtitle_docx [] (u "홍길동")))
     = [[u "홍길동 님"]; [u "▶ 개요"; u "제1장"; u "테스트"]; [u "3"]].
Proof.
  split; [|split; [|vm_compute; repeat split; reflexivity]].
  - intros font_name cl st text. unfold V1.subtitle_item. simpl.
    assert (forall lines s, V1.first_item (V1.draw_subtitle_lines s lines) = V1.first_item s) as D.
    { induction lines as [|l lines IH]; intros s; simpl; [reflexivity|]. now rewrite IH. }
    rewrite D. simpl. destruct (Qlt_bool _ _); reflexivity.
  - intros font_name cl st text. unfold V1.image_item.
    destruct (V1.find_image_by_tag env text (V1.tables cl)) as [[t [d|]] [n|]]; try reflexivity.
    destruct (truthy d && _); [|reflexivity].
    destruct (image_size env d) as [[iw ih]|]; [|reflexivity].
    destruct ((iw =? 0)%N || (ih =? 0)%N); [reflexivity|].
    destruct (image_drawable env d); simpl; destruct (Qlt_bool _ _); reflexivity.
Qed.

(** ** The layout cursor and the scale of images *)

Lemma Qlt_bool_true (x y : Q) : Qlt_bool x y = true <-> (x < y)%Q.
Proof.
  unfold Qlt_bool. rewrite negb_true_iff. split.
  - intros H. apply Qnot_le_lt. intros L. apply Qle_bool_iff in L. congruence.
  - intros H. destruct (Qle_bool y x) eqn:E; [|reflexivity].
    apply Qle_bool_iff in E. exfalso. apply (Qlt_not_le _ _ H E).
Qed.

Lemma Qlt_bool_false (x y : Q) : Qlt_bool x y = false <-> (y <= x)%Q.
Proof.
  unfold Qlt_bool. rewrite negb_false_iff. apply Qle_bool_iff.
Qed.

Lemma min2_cases (a b : Q) : (min2 a b = a /\ (a <= b)%Q) \/ (min2 a b = b /\ (b <= a)%Q).
Proof.
  unfold min2. destruct (Qle_bool a b) eqn:E.
  - left. split; [reflexivity|]. now apply Qle_bool_iff.
  - right. split; [reflexivity|]. apply Qlt_le_weak, Qnot_le_lt. intros L.
    apply Qle_bool_iff in L. congruence.
Qed.

(** [min(a, b, c)] is one of its arguments and below each of them. *)
Lemma min3_spec (a b c : Q) :
  (min3 a b c = a \/ min3 a b c = b \/ min3 a b c = c)
  /\ (min3 a b c <= a)%Q /\ (min3 a b c <= b)%Q /\ (min3 a b c <= c)%Q.
Proof.
  unfold min3.
  destruct (min2_cases a b) as [[E1 L1]|[E1 L1]];
    destruct (min2_cases (min2 a b) c) as [[E2 L2]|[E2 L2]];
    rewrite ?E2, ?E1 in *; repeat split; auto; lra.
Qed.

Lemma QN_pos (n : N) : n <> 0%N -> (0 < QN n)%Q.
Proof.
  intros H. unfold QN, Qlt. simpl. lia.
Qed.

Lemma QN_nonneg (n : N) : (0 <= QN n)%Q.
Proof. unfold QN, Qle. simpl. lia. Qed.

(** A length [d] scaled by a factor below [B / d] is below [B]. *)
Lemma scaled_le (d B s : Q) : (0 < d)%Q -> (s <= B / d)%Q -> (d * s <= B)%Q.
Proof.
  intros Hd Hs.
  assert (d * s <= d * (B / d))%Q as H.
  { rewrite !(Qmult_comm d). apply Qmult_le_compat_r; [assumption|]. lra. }
  rewrite Qmult_div_r in H; [assumption|]. lra.
Qed.

Lemma div_pos (B d : Q) : (0 < B)%Q -> (0 < d)%Q -> (0 < B / d)%Q.
Proof.
  intros HB Hd. apply Qlt_shift_div_l; [assumption|]. lra.
Qed.

(** The bounds of a scaled image: the factor is positive and at most
    one, and the scaled sides are within the two limits and the native
    sides. *)
Lemma scale_bounds (W H : Q) (iw ih : N) :
  (0 < W)%Q -> (0 < H)%Q -> iw <> 0%N -> ih <> 0%N ->
  let scale := min3 (W / QN iw) (H / QN ih) 1 in
  (0 < scale)%Q /\ (scale <= 1)%Q
  /\ (QN iw * scale <= W)%Q /\ (QN ih * scale <= H)%Q
  /\ (QN iw * scale <= QN iw)%Q /\ (QN ih * scale <= QN ih)%Q
  /\ (0 <= QN ih * scale)%Q.
Proof.
  intros HW HH Hiw Hih scale.
  pose proof (QN_pos _ Hiw) as Pw. pose proof (QN_pos _ Hih) as Ph.
  pose proof (div_pos _ _ HW Pw) as Dw. pose proof (div_pos _ _ HH Ph) as Dh.
  destruct (min3_spec (W / QN iw) (H / QN ih) 1) as (Hc & L1 & L2 & L3).
  fold scale in Hc, L1, L2, L3.
  assert (0 < scale)%Q as Hs by (destruct Hc as [-> | [-> | ->]]; lra).
  split; [assumption|]. split; [assumption|].
  split; [now apply scaled_le|]. split; [now apply scaled_le|].
  assert (forall d, (0 < d)%Q -> (d * scale <= d)%Q) as M.
  { intros d Hd. rewrite <- (Qmult_1_r d) at 2. rewrite !(Qmult_comm d).
    apply Qmult_le_compat_r; lra. }
  split; [now apply M|]. split; [now apply M|].
  apply Qmult_le_0_compat; lra.
Qed.

(** The constants of [pdf_generator_v2.py], in points. *)
Lemma v2_constants :
  (V2.PAGE_WIDTH == 75600 # 127)%Q /\ (V2.PAGE_HEIGHT == 106920 # 127)%Q
  /\ (V2.MARGIN_TOP == 9000 # 127)%Q /\ (V2.MARGIN_BOTTOM == 9000 # 127)%Q
  /\ (V2.TEXT_WIDTH == 57600 # 127)%Q
  /\ (V2.BODY_LINE_HEIGHT == 102 # 5)%Q /\ (V2.SUBTITLE_LINE_HEIGHT == 30)%Q.
Proof. repeat split; reflexivity. Qed.

(** The constants of [pdf_generator.py], in points. *)
Lemma v1_constants :
  (V1.width == 75600 # 127)%Q /\ (V1.height == 106920 # 127)%Q
  /\ (V1.MARGIN_BOTTOM == 4251975 # 100000)%Q
  /\ (V1.MAX_WIDTH == (75600 # 127) - (14173250 # 100000))%Q
  /\ (V1.LINE_HEIGHT == 28)%Q.
Proof. repeat split; reflexivity. Qed.

Section CursorFacts.
Context (env : Env) (font_name font_bold images_dir : str).
Import V2.

Local Abbreviation top := (PAGE_HEIGHT - MARGIN_TOP)%Q.

Local Ltac st_simpl := cbn [y set_y set_cv cv page_num used_images new_page blank_line].

Lemma y_draw_subtitle_lines (wrapped : list str) (st : state) :
  (y (draw_subtitle_lines st wrapped)
   == y st - QN (N.of_nat (length wrapped)) * SUBTITLE_LINE_HEIGHT)%Q
  /\ page_num (draw_subtitle_lines st wrapped) = page_num st.
Proof.
  revert st; induction wrapped as [|l wrapped IH]; intros st.
  - cbn [draw_subtitle_lines length]. split; [|reflexivity].
    change (QN (N.of_nat 0)) with 0%Q. lra.
  - cbn [draw_subtitle_lines]. destruct (IH (set_y (set_cv st (draw (cv st)
        (DrawString MARGIN_LEFT (y st) l))) (y st - SUBTITLE_LINE_HEIGHT)%Q)) as [Hy Hp].
    split; [|exact Hp]. rewrite Hy. cbn [y set_y set_cv length].
    rewrite Nat2N.inj_succ. unfold QN. rewrite N2Z.inj_succ.
    unfold Z.succ. rewrite inject_Z_plus. change (inject_Z 1) with 1%Q. ring.
Qed.

Lemma body_wline_y (st : state) (wline : str) :
  (MARGIN_BOTTOM <= y (body_wline font_name st wline))%Q
  /\ ((y st <= top)%Q -> (y (body_wline font_name st wline) <= top)%Q).
Proof.
  destruct v2_constants as (PW & PH & MT & MB & TW & BLH & SLH).
  unfold body_wline. destruct (Qlt_bool (y st) (MARGIN_BOTTOM + 30)) eqn:E; st_simpl.
  - split; [|intros _]; lra.
  - apply Qlt_bool_false in E. split; [|intros Hy]; lra.
Qed.

Lemma body_wlines_top (wrapped : list str) (st : state) :
  (y st <= top)%Q -> (y (fold_left (body_wline font_name) wrapped st) <= top)%Q.
Proof.
  revert st; induction wrapped as [|l wrapped IH]; intros st H; simpl; [assumption|].
  apply IH. now apply body_wline_y.
Qed.

Lemma subtitle_line_y (st : state) (line : str) :
  (page_num (subtitle_line env font_name font_bold st line) = page_num st ->
   (MARGIN_BOTTOM <= y (subtitle_line env font_name font_bold st line))%Q)
  /\ ((y st <= top)%Q -> (y (subtitle_line env font_name font_bold st line) <= top)%Q).
Proof.
  destruct v2_constants as (PW & PH & MT & MB & TW & BLH & SLH).
  unfold subtitle_line.
  set (wrapped := wrap_text env line font_bold SUBTITLE_SIZE TEXT_WIDTH).
  pose proof (QN_nonneg (N.of_nat (length wrapped))) as Hn.
  cbn [y set_y set_cv cv page_num].
  destruct (Qlt_bool _ _) eqn:E.
  - match goal with |- context [draw_subtitle_lines ?s wrapped] =>
      destruct (y_draw_subtitle_lines wrapped s) as [Hy Hp] end.
    split.
    + rewrite Hp. st_simpl. intros H. exfalso. lia.
    + intros _. rewrite Hy. st_simpl.
      set (h := (QN (N.of_nat (length wrapped)) * SUBTITLE_LINE_HEIGHT)%Q) in *.
      assert (0 <= h)%Q by (subst h; apply Qmult_le_0_compat; lra). lra.
  - apply Qlt_bool_false in E.
    match goal with |- context [draw_subtitle_lines ?s wrapped] =>
      destruct (y_draw_subtitle_lines wrapped s) as [Hy Hp] end.
    cbn [y set_y set_cv cv page_num] in E. split.
    + intros _. rewrite Hy. st_simpl.
      set (h := (QN (N.of_nat (length wrapped)) * SUBTITLE_LINE_HEIGHT)%Q) in *. lra.
    + intros H. rewrite Hy. st_simpl.
      set (h := (QN (N.of_nat (length wrapped)) * SUBTITLE_LINE_HEIGHT)%Q) in *.
      assert (0 <= h)%Q by (subst h; apply Qmult_le_0_compat; lra). lra.
Qed.

Lemma image_line_y (st : state) (tag : str) :
  (image_line env font_name images_dir st tag = st
   \/ (MARGIN_BOTTOM <= y (image_line env font_name images_dir st tag))%Q)
  /\ ((y st <= top)%Q -> (y (image_line env font_name images_dir st tag) <= top)%Q).
Proof.
  destruct v2_constants as (PW & PH & MT & MB & TW & BLH & SLH).
  unfold image_line.
  destruct (find_image env tag images_dir) as [p|]; [|now split; [left|]].
  destruct (truthy p && negb (bool_decide (p ∈ used_images st))); [|now split; [left|]].
  destruct (file_image_size env p) as [[iw ih]|]; [|now split; [left|]].
  destruct ((iw =? 0)%N || (ih =? 0)%N) eqn:Z; [now split; [left|]|].
  apply orb_false_iff in Z as [Zw Zh]. apply N.eqb_neq in Zw, Zh.
  assert (0 < TEXT_WIDTH * (9 # 10))%Q as HW by lra.
  assert (0 < PAGE_HEIGHT * (4 # 10))%Q as HH by lra.
  destruct (scale_bounds _ _ iw ih HW HH Zw Zh) as (S0 & S1 & Bw & Bh & Nw & Nh & H0).
  cbv zeta in *.
  set (new_h := (QN ih * min3 (TEXT_WIDTH * (9 # 10) / QN iw)
                                (PAGE_HEIGHT * (4 # 10) / QN ih) 1)%Q) in *.
  destruct (Qlt_bool (y st - new_h) (MARGIN_BOTTOM + 50)) eqn:E.
  - destruct (file_drawable env p); st_simpl; (split; [right | intros _]); lra.
  - apply Qlt_bool_false in E. destruct (file_drawable env p); st_simpl.
    + split; [right | intros Hy]; lra.
    + split; [now left | auto].
Qed.

(** C7 (as amended).  In [create_full_pdf], immediately after a body
    line or an image is placed the cursor is at or above the bottom
    margin, and after a subtitle it is so when no page was broken for
    it; the cursor never rises above the top of the text area.  The
    empty-line directive lowers the cursor by half a body line without
    any test, so after it the cursor can be below the bottom margin. *)
Theorem cursor_after_placement :
  (forall st wline, (MARGIN_BOTTOM <= y (body_wline font_name st wline))%Q)
  /\ (forall st tag,
        image_line env font_name images_dir st tag = st
        \/ (MARGIN_BOTTOM <= y (image_line env font_name images_dir st tag))%Q)
  /\ (forall st line,
        page_num (subtitle_line env font_name font_bold st line) = page_num st ->
        (MARGIN_BOTTOM <= y (subtitle_line env font_name font_bold st line))%Q)
  /\ (forall st, (y (blank_line st) == y st - BODY_LINE_HEIGHT * (5 # 10))%Q)
  /\ (forall st raw_line,
        (y st <= PAGE_HEIGHT - MARGIN_TOP)%Q ->
        (y (content_line env font_name font_bold images_dir st raw_line)
         <= PAGE_HEIGHT - MARGIN_TOP)%Q).
Proof.
  split; [|split; [|split; [|split]]].
  - intros st wline. apply body_wline_y.
  - intros st tag. apply image_line_y.
  - intros st line. apply subtitle_line_y.
  - intros st. st_simpl. reflexivity.
  - intros st raw_line Hy. unfold content_line.
    destruct (negb (truthy (strip raw_line))).
    { st_simpl. destruct v2_constants as (PW & PH & MT & MB & TW & BLH & SLH). lra. }
    destruct (img_tag_search (strip raw_line)); [now apply image_line_y|].
    destruct (is_subtitle env (strip raw_line)); [now apply subtitle_line_y|].
    unfold body_line. apply body_wlines_top. exact Hy.
Qed.

End CursorFacts.

(** C7, counterexample: a chapter of eighty empty lines ends with the
    cursor below the bottom margin (and below zero), on the fourth
    page: no page break has occurred since the chapter began. *)
Lemma blank_lines_pass_bottom_margin :
  Qlt_bool (V2.y (V2.run Sample.env Sample.blank_chapters (u "images") (u "홍길동")
                          None Sample.today))
           V2.MARGIN_BOTTOM = true
  /\ Qred (V2.y (V2.run Sample.env Sample.blank_chapters (u "images") (u "홍길동")
                         None Sample.today)) = (-35037 # 635)%Q
  /\ V2.page_num (V2.run Sample.env Sample.blank_chapters (u "images") (u "홍길동")
                         None Sample.today) = 4%N
  /\ length (pages (V2.create_full_pdf Sample.env Sample.blank_chapters (u "images")
                                       (u "홍길동") None Sample.today)) = 4%nat.
Proof. vm_compute. repeat split; reflexivity. Qed.

(** ** The scale of a placed image *)

Section ScaleFacts.
Context (env : Env).

(** The placeholder branch of [create_full_pdf] when the file resolves,
    opens with a non-zero size and draws. *)
Lemma image_line_drawn (font_name images_dir : str) (st : V2.state) (tag p : str) (iw ih : N) :
  V2.find_image env tag images_dir = Some p ->
  truthy p = true -> p ∉ V2.used_images st ->
  file_image_size env p = Some (iw, ih) -> iw <> 0%N -> ih <> 0%N ->
  file_drawable env p = true ->
  let scale := min3 (V2.TEXT_WIDTH * (9 # 10) / QN iw) (V2.PAGE_HEIGHT * (4 # 10) / QN ih) 1 in
  let new_w := (QN iw * scale)%Q in
  let new_h := (QN ih * scale)%Q in
  let st1 := if Qlt_bool (V2.y st - new_h) (V2.MARGIN_BOTTOM + 50)
             then V2.new_page font_name st else st in
  V2.image_line env font_name images_dir st tag =
  V2.State (draw (V2.cv st1)
              (DrawImage (File p) ((V2.PAGE_WIDTH - new_w) / 2) (V2.y st1 - new_h) new_w new_h))
           (V2.page_num st1)
           (V2.y st1 - new_h - V2.BODY_LINE_HEIGHT * 2)
           ({[ p ]} ∪ V2.used_images st1).
Proof.
  intros F T U S Zw Zh D. unfold V2.image_line. rewrite F, T, S, D.
  rewrite (bool_decide_eq_false_2 _ U).
  apply N.eqb_neq in Zw, Zh. rewrite Zw, Zh. reflexivity.
Qed.

(** The same for the placeholder branch of [create_pdf]. *)
Lemma image_item_drawn (font_name : str) (cl : V1.classified) (st : V1.state)
  (text : str) (tag : option str) (data : bytes) (n : str) (iw ih : N) :
  V1.find_image_by_tag env text (V1.tables cl) = (tag, Some data, Some n) ->
  truthy data = true -> n ∉ V1.used_images st ->
  image_size env data = Some (iw, ih) -> iw <> 0%N -> ih <> 0%N ->
  image_drawable env data = true ->
  let scale := min3 (V1.MAX_WIDTH / QN iw) (V1.height * (5 # 10) / QN ih) 1 in
  let new_w := (QN iw * scale)%Q in
  let new_h := (QN ih * scale)%Q in
  let st1 := if Qlt_bool (V1.y st - new_h) (V1.MARGIN_BOTTOM + 40)
             then V1.new_page env font_name cl st else st in
  V1.image_item env font_name cl st text =
  V1.State (draw (V1.cv st1)
              (DrawImage (TableBuffer n data) ((V1.width - new_w) / 2) (V1.y st1 - new_h)
                         new_w new_h))
           (V1.page_num st1)
           (V1.y st1 - new_h - V1.LINE_HEIGHT * 2)
           (V1.first_item st1)
           ({[ n ]} ∪ V1.used_images st1).
Proof.
  intros F T U S Zw Zh D. unfold V1.image_item. rewrite F, T, S, D.
  rewrite (bool_decide_eq_false_2 _ U).
  apply N.eqb_neq in Zw, Zh. rewrite Zw, Zh. reflexivity.
Qed.

(** C8 (as amended).  A placeholder that resolves to a drawable asset of
    [iw] x [ih] pixels, not yet used, draws it once, with both sides
    multiplied by [scale = min(W / iw, H / ih, 1)] and centred between
    the page edges; so the drawn size is within [W] x [H] and within the
    native size.  In [create_full_pdf] the limits are [W] = 90% of the
    text width and [H] = 40% of the page height; in [create_pdf] they are
    [W] = the whole text width and [H] = 50% of the page height. *)
Theorem placed_image_scale :
  (forall font_name images_dir st tag p iw ih,
      V2.find_image env tag images_dir = Some p ->
      truthy p = true -> p ∉ V2.used_images st ->
      file_image_size env p = Some (iw, ih) -> iw <> 0%N -> ih <> 0%N ->
      file_drawable env p = true ->
      let W := (V2.TEXT_WIDTH * (9 # 10))%Q in
      let H := (V2.PAGE_HEIGHT * (4 # 10))%Q in
      let scale := min3 (W / QN iw) (H / QN ih) 1 in
      let w := (QN iw * scale)%Q in
      let h := (QN ih * scale)%Q in
      (exists st1,
          (st1 = st \/ st1 = V2.new_page font_name st)
          /\ V2.cv (V2.image_line env font_name images_dir st tag)
             = draw (V2.cv st1)
                 (DrawImage (File p) ((V2.PAGE_WIDTH - w) / 2) (V2.y st1 - h) w h))
      /\ (0 < scale)%Q /\ (scale <= 1)%Q
      /\ (w <= W)%Q /\ (h <= H)%Q /\ (w <= QN iw)%Q /\ (h <= QN ih)%Q
      /\ ((V2.PAGE_WIDTH - w) / 2 + w / 2 == V2.PAGE_WIDTH / 2)%Q)
  /\ (forall font_name cl st text tag data n iw ih,
      V1.find_image_by_tag env text (V1.tables cl) = (tag, Some data, Some n) ->
      truthy data = true -> n ∉ V1.used_images st ->
      image_size env data = Some (iw, ih) -> iw <> 0%N -> ih <> 0%N ->
      image_drawable env data = true ->
      let W := V1.MAX_WIDTH in
      let H := (V1.height * (5 # 10))%Q in
      let scale := min3 (W / QN iw) (H / QN ih) 1 in
      let w := (QN iw * scale)%Q in
      let h := (QN ih * scale)%Q in
      (exists st1,
          (st1 = st \/ st1 = V1.new_page env font_name cl st)
          /\ V1.cv (V1.image_item env font_name cl st text)
             = draw (V1.cv st1)
                 (DrawImage (TableBuffer n data) ((V1.width - w) / 2) (V1.y st1 - h) w h))
      /\ (0 < scale)%Q /\ (scale <= 1)%Q
      /\ (w <= W)%Q /\ (h <= H)%Q /\ (w <= QN iw)%Q /\ (h <= QN ih)%Q
      /\ ((V1.width - w) / 2 + w / 2 == V1.width / 2)%Q).
Proof.
  split.
  - intros font_name images_dir st tag p iw ih F T U S Zw Zh D W H scale w h.
    destruct v2_constants as (PW & PH & MT & MB & TW & BLH & SLH).
    assert (0 < W)%Q as HW by (subst W; lra).
    assert (0 < H)%Q as HH by (subst H; lra).
    destruct (scale_bounds W H iw ih HW HH Zw Zh) as (S0 & S1 & Bw & Bh & Nw & Nh & _).
    split; [|repeat (split; [assumption|]); field].
    rewrite (image_line_drawn font_name images_dir st tag p iw ih F T U S Zw Zh D).
    cbv zeta. fold W H. fold scale. fold w h.
    destruct (Qlt_bool (V2.y st - h) (V2.MARGIN_BOTTOM + 50));
      eexists; (split; [|reflexivity]); [right | left]; reflexivity.
  - intros font_name cl st text tag data n iw ih F T U S Zw Zh D W H scale w h.
    destruct v1_constants as (Vw & Vh & MB & MW & LH).
    assert (0 < W)%Q as HW by (subst W; lra).
    assert (0 < H)%Q as HH by (subst H; lra).
    destruct (scale_bounds W H iw ih HW HH Zw Zh) as (S0 & S1 & Bw & Bh & Nw & Nh & _).
    split; [|repeat (split; [assumption|]); field].
    rewrite (image_item_drawn font_name cl st text tag data n iw ih F T U S Zw Zh D).
    cbv zeta. fold W H. fold scale. fold w h.
    destruct (Qlt_bool (V1.y st - h) (V1.MARGIN_BOTTOM + 40));
      eexists; (split; [|reflexivity]); [right | left]; reflexivity.
Qed.

End ScaleFacts.

(** C8, an instance: the placeholder of scenario B at the top of a fresh
    content page, with the asset of 1000 x 400 pixels. *)
Lemma scenario_B_image_scale :
  let st := V2.State empty_canvas 4 (V2.PAGE_HEIGHT - V2.MARGIN_TOP) ∅ in
  let p := u "images/05_오행분석.png" in
  let W := (V2.TEXT_WIDTH * (9 # 10))%Q in
  let H := (V2.PAGE_HEIGHT * (4 # 10))%Q in
  let scale := min3 (W / QN 1000) (H / QN 400) 1 in
  let w := (QN 1000 * scale)%Q in
  let h := (QN 400 * scale)%Q in
  (exists st1,
      (st1 = st \/ st1 = V2.new_page (u "Korean") st)
      /\ V2.cv (V2.image_line Sample.env (u "Korean") (u "images") st (u "05_오행분석"))
         = draw (V2.cv st1)
             (DrawImage (File p) ((V2.PAGE_WIDTH - w) / 2) (V2.y st1 - h) w h))
  /\ (0 < scale)%Q /\ (scale <= 1)%Q
  /\ (w <= W)%Q /\ (h <= H)%Q /\ (w <= QN 1000)%Q /\ (h <= QN 400)%Q
  /\ ((V2.PAGE_WIDTH - w) / 2 + w / 2 == V2.PAGE_WIDTH / 2)%Q.
Proof.
  intros st p.
  apply (proj1 (placed_image_scale Sample.env) (u "Korean") (u "images") st
               (u "05_오행분석") p 1000%N 400%N).
  - vm_compute. reflexivity.
  - reflexivity.
  - apply not_elem_of_empty.
  - vm_compute. reflexivity.
  - discriminate.
  - discriminate.
  - reflexivity.
Defined.

(** C8, counterexample: in scenario B [create_pdf] draws the asset of
    1000 x 400 pixels as wide as the whole text width, which is more
    than 90% of it; [create_full_pdf] draws it at 90% of the text
    width. *)
Lemma create_pdf_image_fills_text_width :
  placed_sizes (V1.create_pdf Sample.env Sample.scenario_B_docx Sample.scenario_B_images
                              (u "홍길동"))
    = [((23039989 # 50800)%Q, (23039989 # 127000)%Q)]
  /\ Qred V1.MAX_WIDTH = (23039989 # 50800)%Q
  /\ Qlt_bool (V1.MAX_WIDTH * (9 # 10)) (23039989 # 50800) = true
  /\ placed_sizes (V2.create_full_pdf Sample.env Sample.scenario_B_chapters (u "images")
                                      (u "홍길동") None Sample.today)
    = [((51840 # 127)%Q, (20736 # 127)%Q)]
  /\ Qred (V2.TEXT_WIDTH * (9 # 10)) = (51840 # 127)%Q.
Proof. vm_compute. repeat split; reflexivity. Qed.

(** ** The clock *)

Section ClockFacts.
Context (env : Env) (font_name font_bold images_dir : str).
Context (b : list op) (d1 d2 : op).
Import V2.

Local Abbreviation differ := (differ b d1 d2).
Local Abbreviation agree := (agree b d1 d2).

Lemma differ_draw (c1 c2 : canvas) (o : op) :
  differ c1 c2 -> differ (draw c1 o) (draw c2 o).
Proof.
  intros [a | a rest cur]; unfold draw; cbn [pages current].
  - rewrite <- !app_assoc, <- !app_comm_cons. constructor.
  - constructor.
Qed.

Lemma differ_showPage (c1 c2 : canvas) :
  differ c1 c2 -> differ (showPage c1) (showPage c2).
Proof.
  intros [a | a rest cur]; unfold showPage; cbn [pages current app]; constructor.
Qed.

Lemma differ_save (c1 c2 : canvas) : differ c1 c2 -> differ (save c1) (save c2).
Proof.
  intros H. unfold save.
  assert (truthy (current c1) = truthy (current c2)) as E.
  { destruct H as [a | a rest cur]; cbn [current]; [|reflexivity].
    destruct b; reflexivity. }
  rewrite E. destruct (truthy (current c2)); [now apply differ_showPage | assumption].
Qed.

Lemma agree_intro (c1 c2 : canvas) (n : N) (v : Q) (us : gset str) :
  differ c1 c2 -> agree (State c1 n v us) (State c2 n v us).
Proof. intros H. repeat split. exact H. Qed.

Lemma agree_elim (s1 s2 : state) :
  agree s1 s2 ->
  exists c1 c2 n v us, s1 = State c1 n v us /\ s2 = State c2 n v us /\ differ c1 c2.
Proof.
  destruct s1 as [c1 n1 v1 u1], s2 as [c2 n2 v2 u2].
  intros (D & N1 & Y1 & U1). cbn in *. subst.
  exists c1, c2, n2, v2, u2. auto.
Qed.

Local Ltac split_agree H :=
  let c1 := fresh "c1" in let c2 := fresh "c2" in
  let n := fresh "n" in let v := fresh "v" in let us := fresh "us" in
  let D := fresh "D" in
  destruct (agree_elim _ _ H) as (c1 & c2 & n & v & us & -> & -> & D).

Local Ltac step_agree :=
  cbn [cv page_num y used_images set_cv set_y];
  repeat (first
    [ apply agree_intro
    | apply differ_draw
    | apply differ_showPage
    | assumption
    | match goal with
      | |- context [if ?c then _ else _] => destruct c
      end ]).

Lemma agree_new_page (s1 s2 : state) :
  agree s1 s2 -> agree (new_page font_name s1) (new_page font_name s2).
Proof. intros H. split_agree H. unfold new_page. step_agree. Qed.

Lemma agree_fold {A : Type} (f : state -> A -> state) :
  (forall s1 s2 a, agree s1 s2 -> agree (f s1 a) (f s2 a)) ->
  forall (l : list A) s1 s2, agree s1 s2 -> agree (fold_left f l s1) (fold_left f l s2).
Proof.
  intros Hf l. induction l as [|a l IH]; intros s1 s2 H; simpl; [assumption|].
  apply IH, Hf, H.
Qed.

Lemma agree_set_y (s1 s2 : state) (f : Q -> Q) :
  agree s1 s2 -> agree (set_y s1 (f (y s1))) (set_y s2 (f (y s2))).
Proof. intros H. split_agree H. step_agree. Qed.

Lemma agree_draw (s1 s2 : state) (f : state -> op) :
  (forall c1 c2 n v us, f (State c1 n v us) = f (State c2 n v us)) ->
  agree s1 s2 ->
  agree (set_cv s1 (draw (cv s1) (f s1))) (set_cv s2 (draw (cv s2) (f s2))).
Proof.
  intros Hf H. split_agree H. rewrite (Hf c1 c2). step_agree.
Qed.

Lemma agree_toc_entry (s1 s2 : state) (ch_num : Z) :
  agree s1 s2 -> agree (toc_entry font_name s1 ch_num) (toc_entry font_name s2 ch_num).
Proof.
  intros H. split_agree H. unfold toc_entry. cbn [cv page_num y used_images].
  destruct (Qlt_bool _ _).
  - apply (agree_draw _ _ (fun _ => SetFont font_name 14)); [reflexivity|].
    apply agree_new_page. step_agree.
  - step_agree.
Qed.

Lemma agree_toc_pages (s1 s2 : state) :
  agree s1 s2 -> agree (toc_pages font_name font_bold s1) (toc_pages font_name font_bold s2).
Proof.
  intros H. unfold toc_pages. apply agree_fold; [intros; now apply agree_toc_entry|].
  apply agree_new_page in H. split_agree H. step_agree.
Qed.

Lemma agree_image_line (s1 s2 : state) (tag : str) :
  agree s1 s2 ->
  agree (image_line env font_name images_dir s1 tag)
        (image_line env font_name images_dir s2 tag).
Proof.
  intros H. unfold image_line.
  destruct (find_image env tag images_dir) as [p|]; [|assumption].
  destruct (agree_elim _ _ H) as (c1 & c2 & n & v & us & E1 & E2 & D).
  rewrite E1, E2 in *. cbn [used_images y].
  destruct (truthy p && negb (bool_decide (p ∈ us))); [|assumption].
  destruct (file_image_size env p) as [[iw ih]|]; [|assumption].
  destruct ((iw =? 0)%N || (ih =? 0)%N); [assumption|].
  cbv zeta.
  match goal with |- context [Qlt_bool ?a ?c] => destruct (Qlt_bool a c) end.
  - apply agree_new_page in H. split_agree H.
    destruct (file_drawable env p); step_agree.
  - destruct (file_drawable env p); step_agree.
Qed.

Lemma agree_draw_subtitle_lines (wrapped : list str) (s1 s2 : state) :
  agree s1 s2 -> agree (draw_subtitle_lines s1 wrapped) (draw_subtitle_lines s2 wrapped).
Proof.
  revert s1 s2; induction wrapped as [|l wrapped IH]; intros s1 s2 H; [assumption|].
  cbn [draw_subtitle_lines]. apply IH. split_agree H. step_agree.
Qed.

Lemma agree_subtitle_line (s1 s2 : state) (line : str) :
  agree s1 s2 ->
  agree (subtitle_line env font_name font_bold s1 line)
        (subtitle_line env font_name font_bold s2 line).
Proof.
  intros H. unfold subtitle_line. cbv zeta.
  apply (agree_set_y _ _ (fun v => (v - 10)%Q)).
  apply agree_draw_subtitle_lines.
  apply (agree_set_y _ _ (fun v => (v - 15)%Q)).
  destruct (agree_elim _ _ H) as (c1 & c2 & n & v & us & E1 & E2 & D).
  rewrite E1, E2 in *. cbn [y set_cv cv page_num used_images].
  destruct (Qlt_bool _ _).
  - apply (agree_draw _ _ (fun _ => SetFont font_bold SUBTITLE_SIZE)); [reflexivity|].
    apply agree_new_page. step_agree.
  - step_agree.
Qed.

Lemma agree_body_wline (s1 s2 : state) (wline : str) :
  agree s1 s2 -> agree (body_wline font_name s1 wline) (body_wline font_name s2 wline).
Proof.
  intros H. unfold body_wline. cbv zeta.
  apply (agree_set_y _ _ (fun v => (v - BODY_LINE_HEIGHT)%Q)).
  apply (agree_draw _ _ (fun s => DrawString MARGIN_LEFT (y s) wline)); [reflexivity|].
  destruct (agree_elim _ _ H) as (c1 & c2 & n & v & us & E1 & E2 & D).
  rewrite E1, E2 in *. cbn [y].
  destruct (Qlt_bool _ _); [|assumption].
  apply (agree_draw _ _ (fun _ => SetFont font_name BODY_SIZE)); [reflexivity|].
  now apply agree_new_page.
Qed.

Lemma agree_body_line (s1 s2 : state) (line : str) :
  agree s1 s2 -> agree (body_line env font_name s1 line) (body_line env font_name s2 line).
Proof.
  intros H. unfold body_line. cbv zeta.
  apply agree_fold; [intros; now apply agree_body_wline|].
  now apply (agree_draw _ _ (fun _ => SetFont font_name BODY_SIZE)).
Qed.

Lemma agree_content_line (s1 s2 : state) (raw_line : str) :
  agree s1 s2 ->
  agree (content_line env font_name font_bold images_dir s1 raw_line)
        (content_line env font_name font_bold images_dir s2 raw_line).
Proof.
  intros H. unfold content_line. cbv zeta.
  destruct (negb (truthy (strip raw_line))).
  { unfold blank_line. now apply (agree_set_y _ _ (fun v => (v - BODY_LINE_HEIGHT * (5 # 10))%Q)). }
  destruct (img_tag_search (strip raw_line)); [now apply agree_image_line|].
  destruct (is_subtitle env (strip raw_line));
    [now apply agree_subtitle_line | now apply agree_body_line].
Qed.

Lemma agree_chapter (s1 s2 : state) (ch : Z * str) :
  agree s1 s2 ->
  agree (chapter env font_name font_bold images_dir s1 ch)
        (chapter env font_name font_bold images_dir s2 ch).
Proof.
  intros H. unfold chapter. destruct ch as [ch_num content].
  apply agree_fold; [intros; now apply agree_content_line|].
  apply agree_new_page.
  apply agree_new_page in H. split_agree H. step_agree.
Qed.

End ClockFacts.

(** The cover page of [create_full_pdf]: its operations are
    [cover_before], then the date line. *)
Lemma cover_page_canvas (font_name font_bold name : str) (info : option (gmap str str))
  (now : N * N * N) :
  V2.cover_page font_name font_bold (V2.State empty_canvas 0 0 ∅) name info now
  = V2.State (Canvas [] (cover_before font_name font_bold name info ++ [date_line now]))
             1 (V2.PAGE_HEIGHT - V2.MARGIN_TOP) ∅.
Proof.
  unfold V2.cover_page, cover_before, date_line, V2.new_page.
  destruct info as [info|]; [destruct (bool_decide (info = ∅))|]; reflexivity.
Qed.

(** Two runs of the assembly on any two dates stay in step. *)
Lemma assemble_agree (env : Env) (font_name font_bold images_dir : str)
  (chs : list (Z * str)) (name : str) (info : option (gmap str str)) (now1 now2 : N * N * N) :
  agree (cover_before font_name font_bold name info) (date_line now1) (date_line now2)
        (V2.assemble env font_name font_bold images_dir chs name info now1)
        (V2.assemble env font_name font_bold images_dir chs name info now2).
Proof.
  unfold V2.assemble. cbv zeta. rewrite !cover_page_canvas.
  set (B := cover_before font_name font_bold name info).
  set (e1 := date_line now1). set (e2 := date_line now2).
  assert (agree B e1 e2
            (V2.State (Canvas [] (B ++ [e1])) 1 (V2.PAGE_HEIGHT - V2.MARGIN_TOP) ∅)
            (V2.State (Canvas [] (B ++ [e2])) 1 (V2.PAGE_HEIGHT - V2.MARGIN_TOP) ∅)) as H.
  { apply agree_intro. apply (differ_current B e1 e2 []). }
  apply (agree_toc_pages font_name font_bold) in H.
  destruct (agree_elim _ _ _ _ _ H) as (c1 & c2 & n & v & us & -> & -> & D).
  cbn [V2.cv V2.page_num V2.y].
  assert (agree B e1 e2 (V2.State c1 n v ∅) (V2.State c2 n v ∅)) as H1
    by now apply agree_intro.
  apply (agree_fold B e1 e2 _
           (fun s1 s2 ch => agree_chapter env font_name font_bold images_dir B e1 e2 s1 s2 ch)
           chs) in H1.
  destruct (agree_elim _ _ _ _ _ H1) as (c1' & c2' & n' & v' & us' & -> & -> & D').
  cbn [V2.cv V2.page_num V2.set_cv V2.y V2.used_images].
  apply agree_intro, differ_save, differ_draw, differ_draw, D'.
Qed.

Lemma current_save_draw (c : canvas) (o : op) : current (save (draw c o)) = [].
Proof.
  unfold save, draw. cbn [current]. destruct (current c); reflexivity.
Qed.

(** Once saved, the two canvases are two lists of closed pages. *)
Lemma differ_saved (b : list op) (d1 d2 : op) (c1 c2 : canvas) :
  differ b d1 d2 c1 c2 -> current c1 = [] ->
  exists a rest,
    c1 = Canvas ((b ++ d1 :: a) :: rest) [] /\ c2 = Canvas ((b ++ d2 :: a) :: rest) [].
Proof.
  intros [a | a rest cur] H; cbn [current] in H.
  - destruct b; discriminate.
  - subst cur. eauto.
Qed.

(** C9 (as amended).  [create_full_pdf] reads the clock: its cover page
    carries the date of the run.  For given chapters, image folder,
    customer name, basic information and surroundings (fonts, files),
    the saved document is the same list of pages on every run except for
    that one date line on the first page, and the page count it reports
    is the same; two runs whose dates print alike give the same
    document. *)
Theorem output_varies_with_date_only (env : Env) (chapters : gmap Z str)
  (images_dir customer_name : str) (basic_info : option (gmap str str)) :
  (exists after rest n,
      forall now,
        V2.create_full_pdf env chapters images_dir customer_name basic_info now
        = Canvas ((cover_before (fst (V2.setup_fonts env)) (snd (V2.setup_fonts env))
                                customer_name basic_info
                   ++ date_line now :: after) :: rest) []
        /\ V2.page_num (V2.run env chapters images_dir customer_name basic_info now) = n)
  /\ (forall now1 now2,
        V2.strftime now1 = V2.strftime now2 ->
        V2.create_full_pdf env chapters images_dir customer_name basic_info now1
        = V2.create_full_pdf env chapters images_dir customer_name basic_info now2).
Proof.
  unfold V2.create_full_pdf, V2.run.
  destruct (V2.setup_fonts env) as [font_name font_bold]. cbn [fst snd].
  set (B := cover_before font_name font_bold customer_name basic_info).
  set (r := V2.assemble env font_name font_bold images_dir (V2.sorted_chapters chapters)
                        customer_name basic_info).
  assert (forall now, current (V2.cv (r now)) = []) as Hcur.
  { intros now. subst r. unfold V2.assemble. cbv zeta. cbn [V2.cv V2.set_cv].
    apply current_save_draw. }
  pose (now0 := (0, 0, 0)%N).
  assert (forall now, agree B (date_line now0) (date_line now) (r now0) (r now)) as Hag
    by (intros now; apply assemble_agree).
  destruct (Hag now0) as (D0 & _).
  destruct (differ_saved _ _ _ _ _ D0 (Hcur now0)) as (a0 & rest0 & E0 & _).
  assert (forall now,
             V2.cv (r now) = Canvas ((B ++ date_line now :: a0) :: rest0) []
             /\ V2.page_num (r now) = V2.page_num (r now0)) as Hall.
  { intros now. destruct (Hag now) as (D & P & _).
    destruct (differ_saved _ _ _ _ _ D (Hcur now0)) as (a & rest & E1 & E2).
    rewrite E0 in E1. injection E1 as E1 ->.
    apply app_inv_head in E1. injection E1 as ->.
    split; [exact E2 | symmetry; exact P]. }
  split.
  - exists a0, rest0, (V2.page_num (r now0)). exact Hall.
  - intros now1 now2 E. rewrite (proj1 (Hall now1)), (proj1 (Hall now2)).
    unfold date_line. now rewrite E.
Qed.

(** C9, counterexample: scenario A assembled on two consecutive days;
    the cover pages carry different date lines. *)
Lemma cover_date_follows_clock :
  page_texts (hd [] (pages (V2.create_full_pdf Sample.env Sample.scenario_A_chapters
                              (u "images") (u "홍길동") None Sample.today)))
    = [u "사주 분석 보고서"; u "홍길동 님"; u "생성일: 2026년 11월 04일"; u "1"]
  /\ page_texts (hd [] (pages (V2.create_full_pdf Sample.env Sample.scenario_A_chapters
                                 (u "images") (u "홍길동") None Sample.tomorrow)))
    = [u "사주 분석 보고서"; u "홍길동 님"; u "생성일: 2026년 11월 05일"; u "1"]
  /\ str_eqb (u "생성일: 2026년 11월 04일") (u "생성일: 2026년 11월 05일") = false.
Proof. vm_compute. repeat split; reflexivity. Qed.

(** ** Scenario A, end to end *)

Section OneLine.
Context (env : Env) (font : str) (size w : Q).

(** A paragraph all of whose width tests succeed stays on one line. *)
Lemma wrap_chars_fits (p line : str) (lines : list str) :
  tests_pass (fun l => Qle_bool (stringWidth env l font size) w) line p = true ->
  V2.wrap_chars env font size w p line lines
  = if truthy (line ++ p) then lines ++ [line ++ p] else lines.
Proof.
  revert line; induction p as [|c p IH]; intros line H; simpl.
  - now rewrite app_nil_r.
  - simpl in H. apply andb_prop in H as [H1 H2]. rewrite H1, (IH _ H2).
    now rewrite <- app_assoc.
Qed.

Lemma wrap_text_one_line (s : str) :
  forallb (fun c => negb (c =? 10)%N) s = true ->
  truthy (strip s) = true ->
  fits env font size w s = true ->
  V2.wrap_text env s font size w = [s].
Proof.
  intros Hnl Hb Hf. unfold V2.wrap_text. rewrite (split_nl_one _ Hnl). simpl.
  unfold V2.wrap_paragraph. rewrite Hb. simpl.
  rewrite (wrap_chars_fits _ _ _ Hf). simpl.
  destruct s; [discriminate Hb | reflexivity].
Qed.

End OneLine.

Lemma wrap_loop_fits (env : Env) (font : str) (size : Q) (p line : str) (lines : list str) :
  tests_pass (fun l => Qlt_bool (stringWidth env l font size) V1.MAX_WIDTH) line p = true ->
  V1.wrap_loop env font size p line lines
  = if truthy (line ++ p) then lines ++ [line ++ p] else lines.
Proof.
  revert line; induction p as [|c p IH]; intros line H; simpl.
  - now rewrite app_nil_r.
  - simpl in H. apply andb_prop in H as [H1 H2]. rewrite H1, (IH _ H2).
    now rewrite <- app_assoc.
Qed.

(** A paragraph of [create_pdf] all of whose width tests succeed is one
    line. *)
Lemma wrap_inline_one_line (env : Env) (font : str) (size : Q) (s : str) :
  truthy s = true ->
  fits_strictly env font size V1.MAX_WIDTH s = true ->
  V1.wrap_inline env font size s = [s].
Proof.
  intros Hs Hf. unfold V1.wrap_inline. rewrite (wrap_loop_fits env font size s [] [] Hf).
  simpl. now rewrite Hs.
Qed.

(** A line of [create_full_pdf] that is not blank, starts with no digit
    and no subtitle glyph, carries no marker and fits is drawn as one
    line of body text. *)
Lemma content_line_plain (env : Env) (font_name font_bold images_dir : str)
  (st : V2.state) (raw_line : str) (c : N) (s : str) :
  strip raw_line = c :: s ->
  is_decimal env c = false ->
  existsb (startswith (c :: s)) [u "▶"; u "●"; u "◆"; u "★"; u "■"] = false ->
  img_tag_search (c :: s) = None ->
  forallb (fun x => negb (x =? 10)%N) (c :: s) = true ->
  truthy (strip (c :: s)) = true ->
  fits env font_name V2.BODY_SIZE V2.TEXT_WIDTH (c :: s) = true ->
  V2.content_line env font_name font_bold images_dir st raw_line
  = V2.body_wline font_name
      (V2.set_cv st (draw (V2.cv st) (SetFont font_name V2.BODY_SIZE))) (c :: s).
Proof.
  intros Hstrip Hd Hg Hi Hnl Hb Hf. unfold V2.content_line. cbv zeta.
  rewrite Hstrip, Hi. cbn [truthy negb].
  unfold V2.is_subtitle, match_number_dot. cbn [span]. rewrite Hd. cbn [truthy andb].
  rewrite Hg. unfold V2.body_line. cbv zeta.
  rewrite (wrap_text_one_line env font_name V2.BODY_SIZE V2.TEXT_WIDTH _ Hnl Hb Hf).
  reflexivity.
Qed.

Local Ltac plain_line :=
  match goal with
  | |- context [V2.content_line ?env ?fn ?fb ?dir ?st ?raw] =>
      match eval vm_compute in (strip raw) with
      | ?c :: ?s =>
          rewrite (content_line_plain env fn fb dir st raw c s);
          [ | vm_compute; reflexivity | assumption | vm_compute; reflexivity
            | vm_compute; reflexivity | vm_compute; reflexivity
            | vm_compute; reflexivity | assumption ]
      end
  end.

(** C4 (as amended).  Scenario A, for any customer name, basic
    information and date, when the two lines fit the text width and
    their first characters are no digits.  [create_full_pdf] gives four
    pages: the cover; the table of contents, which lists the fifteen
    fixed chapter titles; the title page, which shows the chapter number
    and the fixed title of chapter 1, not the text after the number in
    the chapter; one content page with both lines of the raw text, the
    first included; its page count is 4.  [create_pdf], on the same two
    paragraphs and no images, gives three pages: the cover, the title
    page with the two parts of the first paragraph, and one content
    page with the second paragraph; it draws no table of contents. *)
Theorem scenario_A_document (env : Env) (images_dir customer_name : str)
  (basic_info : option (gmap str str)) (now : N * N * N) :
  is_decimal env 51228 = false ->
  is_decimal env 48376 = false ->
  fits env (fst (V2.setup_fonts env)) V2.BODY_SIZE V2.TEXT_WIDTH (u "제1장 테스트") = true ->
  fits env (fst (V2.setup_fonts env)) V2.BODY_SIZE V2.TEXT_WIDTH (u "본문입니다.") = true ->
  fits_strictly env (fst (V1.setup_fonts env)) V1.BODY_SIZE V1.MAX_WIDTH (u "본문입니다.") = true ->
  List.map page_texts
    (pages (V2.create_full_pdf env Sample.scenario_A_chapters images_dir customer_name
                               basic_info now))
  = [ page_texts (cover_before (fst (V2.setup_fonts env)) (snd (V2.setup_fonts env))
                               customer_name basic_info)
        ++ [u "생성일: " ++ V2.strftime now; u "1"];
      u "목 차"
        :: List.map (fun n => u "제" ++ str_of_Z n ++ u "장. " ++ V2.chapter_title n)
                    (List.map Z.of_nat (seq 1 15))
        ++ [u "2"];
      [u "제1장"; u "일년 운세 리포트의 해석 관점"; u "3"];
      [u "제1장 테스트"; u "본문입니다."; u "4"] ]
  /\ V2.page_num (V2.run env Sample.scenario_A_chapters images_dir customer_name
                          basic_info now) = 4%N
  /\ List.map page_texts
       (pages (V1.create_pdf env Sample.scenario_A_docx [] customer_name))
     = [ [customer_name ++ u " 님"];
         [u "제1장"; u "테스트"];
         [u "본문입니다."; u "3"] ].
Proof.
  intros D1 D2 F1 F2 F3.
  assert (V2.sorted_chapters Sample.scenario_A_chapters = [(1%Z, Sample.scenario_A_text)])
    as Esorted by (vm_compute; reflexivity).
  assert (split_nl Sample.scenario_A_text = [u "제1장 테스트"; u "본문입니다."])
    as Esplit by (vm_compute; reflexivity).
  split; [|split].
  - unfold V2.create_full_pdf, V2.run, V2.setup_fonts in *.
    destruct (font_loaded env); cbn [fst snd] in *;
      unfold V2.assemble; cbv zeta; rewrite Esorted; cbn [fold_left];
      unfold V2.chapter; rewrite Esplit; cbn [fold_left];
      plain_line; plain_line;
      rewrite cover_page_canvas; unfold date_line;
      generalize (V2.strftime now); intros date;
      (destruct basic_info as [info|]; [destruct (bool_decide (info = ∅)) eqn:Einfo|]);
      unfold cover_before; try rewrite Einfo;
      try (generalize (default [] (info !! u "양력")); intros solar;
           generalize (default [] (info !! u "음력")); intros lunar);
      vm_compute; reflexivity.
  - unfold V2.run, V2.setup_fonts in *.
    destruct (font_loaded env); cbn [fst snd] in *;
      unfold V2.assemble; cbv zeta; rewrite Esorted; cbn [fold_left];
      unfold V2.chapter; rewrite Esplit; cbn [fold_left];
      plain_line; plain_line;
      rewrite cover_page_canvas; unfold date_line;
      generalize (V2.strftime now); intros date;
      (destruct basic_info as [info|]; [destruct (bool_decide (info = ∅)) eqn:Einfo|]);
      unfold cover_before; try rewrite Einfo;
      try (generalize (default [] (info !! u "양력")); intros solar;
           generalize (default [] (info !! u "음력")); intros lunar);
      vm_compute; reflexivity.
  - unfold V1.create_pdf, V1.run, V1.setup_fonts in *.
    assert (V1.is_chapter_title (u "제1장 테스트") = true) as T1 by (vm_compute; reflexivity).
    assert (V1.is_chapter_title (u "본문입니다.") = false) as T2 by (vm_compute; reflexivity).
    assert (V1.has_img_tag (u "본문입니다.") = false) as I2 by (vm_compute; reflexivity).
    assert (V1.is_subtitle (u "본문입니다.") = false) as S2 by (vm_compute; reflexivity).
    destruct (font_loaded env); cbn [fst snd] in *;
      change (V1.classify_images env []) with (V1.Classified None None None [] [] []);
      cbv zeta; unfold Sample.scenario_A_docx; cbn [fold_left V1.toc V1.guide];
      unfold V1.chapter; cbn [snd fst List.map fold_left];
      unfold V1.item at 2; rewrite T1; cbn [V1.first_item andb];
      unfold V1.item; rewrite T2, I2, S2; cbn [andb];
      unfold V1.body_item;
      rewrite (wrap_inline_one_line env _ V1.BODY_SIZE (u "본문입니다.") eq_refl F3);
      vm_compute; reflexivity.
Qed.

(** C4, an instance: scenario A in the sample surroundings, where every
    glyph is one em wide. *)
Lemma scenario_A_sample :
  List.map page_texts
    (pages (V2.create_full_pdf Sample.env Sample.scenario_A_chapters (u "images")
                               (u "홍길동") None Sample.today))
  = [ page_texts (cover_before (fst (V2.setup_fonts Sample.env))
                               (snd (V2.setup_fonts Sample.env)) (u "홍길동") None)
        ++ [u "생성일: " ++ V2.strftime Sample.today; u "1"];
      u "목 차"
        :: List.map (fun n => u "제" ++ str_of_Z n ++ u "장. " ++ V2.chapter_title n)
                    (List.map Z.of_nat (seq 1 15))
        ++ [u "2"];
      [u "제1장"; u "일년 운세 리포트의 해석 관점"; u "3"];
      [u "제1장 테스트"; u "본문입니다."; u "4"] ]
  /\ V2.page_num (V2.run Sample.env Sample.scenario_A_chapters (u "images") (u "홍길동")
                         None Sample.today) = 4%N
  /\ List.map page_texts
       (pages (V1.create_pdf Sample.env Sample.scenario_A_docx [] (u "홍길동")))
     = [ [u "홍길동" ++ u " 님"];
         [u "제1장"; u "테스트"];
         [u "본문입니다."; u "3"] ].
Proof.
  apply (scenario_A_document Sample.env (u "images") (u "홍길동") None Sample.today);
    vm_compute; reflexivity.
Defined.

(** C4, counterexample: in scenario A the title page of
    [create_full_pdf] shows the fixed title of chapter 1 under the
    chapter number, not the text of the chapter's first line; that line
    is drawn on the content page; and [create_pdf], whose title page
    shows that text, gives three pages, none of them a table of
    contents. *)
Lemma title_page_shows_fixed_title :
  nth 2 (List.map page_texts
           (pages (V2.create_full_pdf Sample.env Sample.scenario_A_chapters (u "images")
                                      (u "홍길동") None Sample.today))) []
    = [u "제1장"; u "일년 운세 리포트의 해석 관점"; u "3"]
  /\ str_eqb (u "일년 운세 리포트의 해석 관점") (u "테스트") = false
  /\ nth 3 (List.map page_texts
              (pages (V2.create_full_pdf Sample.env Sample.scenario_A_chapters (u "images")
                                         (u "홍길동") None Sample.today))) []
    = [u "제1장 테스트"; u "본문입니다."; u "4"]
  /\ List.map page_texts
       (pages (V1.create_pdf Sample.env Sample.scenario_A_docx [] (u "홍길동")))
     = [[u "홍길동 님"]; [u "제1장"; u "테스트"]; [u "본문입니다."; u "3"]].
Proof. vm_compute. repeat split; reflexivity. Qed.

(** * Further properties of the two modules *)

(** ** The inline wrapping of [create_pdf] *)

Section InlineWrap.
Context (env : Env) (font : str) (size : Q).

Local Abbreviation wrap_loop := (V1.wrap_loop env font size).

Lemma wrap_loop_concat (text line : str) (lines : list str) :
  concat (wrap_loop text line lines) = concat lines ++ line ++ text.
Proof.
  revert line lines; induction text as [|c text IH]; intros line lines; simpl.
  - destruct line as [|x line]; simpl.
    + now rewrite app_nil_r.
    + rewrite concat_app. simpl. now rewrite !app_nil_r.
  - destruct (Qlt_bool _ _); rewrite IH.
    + now rewrite <- app_assoc.
    + rewrite concat_app. simpl. now rewrite app_nil_r, <- app_assoc.
Qed.

(** The inline loops of the subtitle and body branches lose nothing:
    the lines joined with no separator are the text, whatever it
    contains. *)
Theorem wrap_inline_concat (text : str) :
  concat (V1.wrap_inline env font size text) = text.
Proof. unfold V1.wrap_inline. now rewrite wrap_loop_concat. Qed.

(** What a line of the inline loops satisfies. *)
Lemma wrap_loop_ok (text line : str) (lines : list str) :
  Forall (line_ok_v1 env font size) lines -> line_ok_v1 env font size line ->
  Forall (line_ok_v1 env font size) (wrap_loop text line lines).
Proof.
  revert line lines; induction text as [|c text IH]; intros line lines Hl Hline; simpl.
  - destruct line; simpl; [assumption|]. now apply Forall_snoc.
  - destruct (Qlt_bool (stringWidth env (line ++ [c]) font size) V1.MAX_WIDTH) eqn:E.
    + apply IH; [assumption|]. right; right. exact E.
    + apply IH; [now apply Forall_snoc|]. right; left. now exists c.
Qed.

(** Only the first committed line can be empty. *)
Lemma wrap_loop_tail (text line : str) (lines : list str) :
  (lines <> [] -> line <> []) ->
  Forall (fun l => l <> []) (tl lines) ->
  Forall (fun l => l <> []) (tl (wrap_loop text line lines)).
Proof.
  revert line lines; induction text as [|c text IH]; intros line lines Hline Hl; simpl.
  - destruct line as [|x line]; simpl; [assumption|].
    destruct lines as [|l0 lines]; simpl; [constructor|].
    simpl in Hl. now apply Forall_snoc.
  - destruct (Qlt_bool _ _).
    + apply IH; [|assumption]. intros _. now destruct line.
    + apply IH; [discriminate|].
      destruct lines as [|l0 lines]; simpl; [constructor|].
      simpl in Hl. apply Forall_snoc; [assumption|]. now apply Hline.
Qed.

Lemma wrap_loop_head (text line : str) (lines : list str) (l0 : str) :
  hd_error lines = Some l0 -> hd_error (wrap_loop text line lines) = Some l0.
Proof.
  revert line lines; induction text as [|c text IH]; intros line lines H; simpl.
  - destruct line; [assumption|]. destruct lines; [discriminate | exact H].
  - destruct (Qlt_bool _ _); apply IH; [assumption|].
    destruct lines; [discriminate | exact H].
Qed.

(** Started on a line that is not empty, the loop commits a first line
    that is not empty. *)
Lemma wrap_loop_first (text line : str) :
  line <> [] ->
  exists l0, hd_error (wrap_loop text line []) = Some l0 /\ l0 <> [].
Proof.
  revert line; induction text as [|c text IH]; intros line H; simpl.
  - destruct line as [|x line]; [congruence|]. exists (x :: line). now split.
  - destruct (Qlt_bool _ _).
    + apply IH. now destruct line.
    + exists line. split; [|assumption]. now apply wrap_loop_head.
Qed.

(** The lines of the inline loops: each is below the maximum width, or
    a single character, or empty; an empty line can only be the first
    one, and it is there exactly when the first character alone does
    not measure below the maximum width. *)
Theorem wrap_inline_lines (text : str) :
  Forall (line_ok_v1 env font size) (V1.wrap_inline env font size text)
  /\ Forall (fun l => l <> []) (tl (V1.wrap_inline env font size text))
  /\ (hd_error (V1.wrap_inline env font size text) = Some [] <->
      exists c rest,
        text = c :: rest
        /\ Qlt_bool (stringWidth env [c] font size) V1.MAX_WIDTH = false).
Proof.
  unfold V1.wrap_inline. split; [|split].
  - apply wrap_loop_ok; [constructor | now left].
  - apply wrap_loop_tail; [congruence | constructor].
  - destruct text as [|c rest]; simpl.
    + split; [discriminate|]. intros (c & rest & E & _). discriminate.
    + destruct (Qlt_bool (stringWidth env [c] font size) V1.MAX_WIDTH) eqn:E.
      * split; [|intros (c' & rest' & E' & F); injection E' as <- <-; congruence].
        intros H. exfalso.
        destruct (wrap_loop_first rest [c] ltac:(discriminate)) as (l0 & Hh & Hn).
        rewrite Hh in H. injection H as ->. now apply Hn.
      * split; [intros _; exists c, rest; auto|]. intros _.
        now apply wrap_loop_head.
Qed.

End InlineWrap.

(** ** Substrings, and what the matching rules amount to *)

Lemma startswith_spec (s p : str) :
  startswith s p = true <-> exists post, s = p ++ post.
Proof.
  revert s; induction p as [|x p IH]; intros s.
  - split; [intros _; now exists s | intros _; now destruct s].
  - destruct s as [|y s]; simpl.
    + split; [discriminate|]. intros (post & E). discriminate.
    + rewrite andb_true_iff, IH, N.eqb_eq. split.
      * intros (-> & post & ->). now exists post.
      * intros (post & E). injection E as -> ->. split; [reflexivity|]. now exists post.
Qed.

Lemma contains_spec (s sub : str) :
  contains s sub = true <-> exists pre post, s = pre ++ sub ++ post.
Proof.
  induction s as [|c s IH]; cbn [contains].
  - rewrite orb_false_r, startswith_spec. split.
    + intros (post & E). now exists [], post.
    + intros (pre & post & E). destruct pre; [now exists post | discriminate].
  - rewrite orb_true_iff, startswith_spec, IH. split.
    + intros [(post & E) | (pre & post & E)].
      * now exists [], post.
      * exists (c :: pre), post. simpl. now rewrite E.
    + intros (pre & post & E). destruct pre as [|x pre]; simpl in E.
      * left. now exists post.
      * right. injection E as -> ->. now exists pre, post.
Qed.

Lemma endswith_spec (s p : str) :
  endswith s p = true <-> exists pre, s = pre ++ p.
Proof.
  unfold endswith. rewrite startswith_spec. split.
  - intros (post & E). exists (rev post).
    apply (f_equal (@rev N)) in E. rewrite rev_involutive in E.
    now rewrite E, rev_app_distr, rev_involutive.
  - intros (pre & ->). exists (rev pre). now rewrite rev_app_distr.
Qed.

(** [os.path.splitext] cuts its argument in two. *)
Lemma splitext_app (is_sep : N -> bool) (p : str) :
  fst (splitext is_sep p) ++ snd (splitext is_sep p) = p.
Proof.
  unfold splitext. destruct (_ >? _)%Z; [|apply app_nil_r].
  destruct (existsb _ _); [apply firstn_skipn | apply app_nil_r].
Qed.

Section Substring.
Context (env : Env).

Lemma rules_are_substring (tag name : str) :
  any_rule env tag name <-> contains name tag = true.
Proof.
  unfold any_rule, rule_a, rule_b, rule_c, rule_d.
  pose proof (splitext_app (is_sep env) name) as Hs.
  split.
  - intros [-> | [-> | [H | H]]]; [| | exact H |]; apply contains_spec.
    + exists [], []. now rewrite app_nil_r.
    + exists [], (snd (splitext (is_sep env) name)). exact (eq_sym Hs).
    + apply endswith_spec in H as (pre & E).
      exists pre, (snd (splitext (is_sep env) name)).
      rewrite app_assoc, <- E. exact (eq_sym Hs).
  - intros H. right; right; left. exact H.
Qed.

Lemma tag_matches_contains (tag name : str) :
  V1.tag_matches env tag name = contains name tag.
Proof.
  destruct (contains name tag) eqn:C.
  - apply tag_matches_rules, rules_are_substring, C.
  - apply tag_matches_no_rule. rewrite rules_are_substring. congruence.
Qed.

Lemma file_matches_contains (tag name : str) :
  V2.file_matches env tag name = contains name tag.
Proof.
  unfold V2.file_matches. destruct (contains name tag) eqn:C; [apply orb_true_r|].
  rewrite orb_false_r. apply orb_false_iff.
  pose proof (splitext_app (is_sep env) name) as Hs.
  split; apply str_eqb_neq; intros E.
  - assert (contains name tag = true); [|congruence].
    apply contains_spec. exists [], []. now rewrite app_nil_r.
  - assert (contains name tag = true); [|congruence].
    apply contains_spec. exists [], (snd (splitext (is_sep env) name)).
    rewrite E. exact (eq_sym Hs).
Qed.

(** The test of either resolver holds for an asset exactly when the tag
    is a substring of the asset's name: equality with the name, equality
    with the name less its extension, and being the end of the name less
    its extension are all cases of it. *)
Theorem tag_matches_substring (tag name : str) :
  V1.tag_matches env tag name = contains name tag
  /\ V2.file_matches env tag name = contains name tag.
Proof.
  split.
  - destruct (contains name tag) eqn:C.
    + apply tag_matches_rules, rules_are_substring, C.
    + apply tag_matches_no_rule. rewrite rules_are_substring. congruence.
  - unfold V2.file_matches. destruct (contains name tag) eqn:C.
    + apply orb_true_r.
    + rewrite orb_false_r.
      assert (~ any_rule env tag name) as N by (rewrite rules_are_substring; congruence).
      apply orb_false_iff. split; apply str_eqb_neq; intros E; apply N.
      * now left.
      * right; now left.
Qed.

Lemma find_file_spec (tag dir : str) (files : list str) (p : str) :
  V2.find_file env tag dir files = Some p <->
  exists before f after,
    files = before ++ f :: after
    /\ contains f tag = true
    /\ Forall (fun g => contains g tag = false) before
    /\ p = path_join env dir f.
Proof.
  induction files as [|g files IH]; simpl.
  - split; [discriminate|]. intros (before & f & after & E & _). now destruct before.
  - rewrite (file_matches_contains tag g). destruct (contains g tag) eqn:C.
    + split.
      * intros H. injection H as <-. exists [], g, files. repeat split; auto.
      * intros (before & f & after & E & Hf & Hb & ->).
        destruct before as [|g' before]; simpl in E.
        -- now injection E as ->.
        -- injection E as -> _. apply Forall_inv in Hb. congruence.
    + rewrite IH. split.
      * intros (before & f & after & -> & Hf & Hb & ->).
        exists (g :: before), f, after. repeat split; auto.
      * intros (before & f & after & E & Hf & Hb & ->).
        destruct before as [|g' before]; simpl in E.
        -- injection E as -> _. congruence.
        -- injection E as -> ->. exists before, f, after.
           repeat split; auto. now apply Forall_inv_tail in Hb.
Qed.

(** [find_image]: no folder name or no such folder gives [None]; else
    the result is the path of the first file, in the order [os.listdir]
    gives, whose name contains the tag, and [None] when there is none. *)
Theorem find_image_first_containing (tag dir : str) :
  (dir = [] -> V2.find_image env tag dir = None)
  /\ (listdir env dir = None -> V2.find_image env tag dir = None)
  /\ (forall files,
        dir <> [] -> listdir env dir = Some files ->
        (forall p,
            V2.find_image env tag dir = Some p <->
            exists before f after,
              files = before ++ f :: after
              /\ contains f tag = true
              /\ Forall (fun g => contains g tag = false) before
              /\ p = path_join env dir f)
        /\ (V2.find_image env tag dir = None <->
            Forall (fun g => contains g tag = false) files)).
Proof.
  unfold V2.find_image. split; [|split].
  - intros ->. reflexivity.
  - intros ->. now destruct (negb (truthy dir)).
  - intros files Hd ->. destruct dir as [|c dir]; [congruence|]. cbn [truthy negb].
    split; [intros p; apply find_file_spec|].
    induction files as [|g files IH]; simpl.
    + split; [constructor | reflexivity].
    + rewrite (file_matches_contains tag g). destruct (contains g tag) eqn:C.
      * split; [discriminate|]. intros H. apply Forall_inv in H. congruence.
      * rewrite IH. split; [now constructor | apply Forall_inv_tail].
Qed.

End Substring.

(** ** The image marker *)

Lemma drop_prefix_spec (p s r : str) : drop_prefix p s = Some r <-> s = p ++ r.
Proof.
  revert s; induction p as [|x p IH]; intros s; simpl.
  - split; [now intros [= ->] | now intros ->].
  - destruct s as [|y s]; [split; discriminate|].
    destruct (N.eqb_spec x y) as [->|Hxy].
    + rewrite IH. split; [now intros -> | now intros [= ->]].
    + split; [discriminate | intros [= -> _]; congruence].
Qed.

Lemma span_app (f : N -> bool) (a b : str) :
  forallb f a = true -> match b with [] => True | c :: _ => f c = false end ->
  span f (a ++ b) = (a, b).
Proof.
  intros Ha Hb. induction a as [|x a IH]; simpl.
  - destruct b as [|c b]; [reflexivity|]. simpl. now rewrite Hb.
  - simpl in Ha. apply andb_prop in Ha as [Hx Ha]. now rewrite Hx, (IH Ha).
Qed.

Lemma span_spec (f : N -> bool) (s a b : str) :
  span f s = (a, b) ->
  s = a ++ b /\ forallb f a = true /\ match b with [] => True | c :: _ => f c = false end.
Proof.
  revert a b; induction s as [|x s IH]; intros a b; simpl.
  - intros [= <- <-]. auto.
  - destruct (f x) eqn:Fx.
    + destruct (span f s) as [a' b']. intros [= <- <-].
      destruct (IH a' b' eq_refl) as (-> & Ha & Hb). simpl. rewrite Fx. auto.
    + intros [= <- <-]. simpl. auto.
Qed.

(** A tag the pattern can capture: not empty, no closing brace. *)
Lemma img_tag_at_spec (s g : str) :
  img_tag_at s = Some g <->
  valid_tag g = true /\ exists post, s = marker g ++ post.
Proof.
  unfold img_tag_at, valid_tag, marker. split.
  - destruct (drop_prefix (u "{{IMG:") s) as [r|] eqn:D; [|discriminate].
    apply drop_prefix_spec in D. destruct (span _ r) as [g' r'] eqn:S.
    apply span_spec in S as (-> & Hg & _).
    destruct (truthy g' && startswith r' (u "}}")) eqn:T; [|discriminate].
    intros [= <-]. apply andb_prop in T as [T1 T2].
    apply startswith_spec in T2 as (post & ->).
    rewrite T1, Hg. split; [reflexivity|]. exists post. now rewrite D, <- !app_assoc.
  - intros (V & post & ->). apply andb_prop in V as [V1 V2].
    rewrite <- !app_assoc.
    rewrite (proj2 (drop_prefix_spec (u "{{IMG:") _ (g ++ u "}}" ++ post)) eq_refl).
    rewrite (span_app _ g (u "}}" ++ post) V2 eq_refl).
    rewrite V1. cbn [andb].
    rewrite (proj2 (startswith_spec (u "}}" ++ post) (u "}}"))); [reflexivity|].
    now exists post.
Qed.

Lemma img_tag_search_some (s g : str) :
  img_tag_search s = Some g ->
  valid_tag g = true /\ exists pre post, s = pre ++ marker g ++ post.
Proof.
  induction s as [|c s IH]; cbn [img_tag_search].
  - destruct (img_tag_at []) as [g'|] eqn:A; [|discriminate]. intros [= ->].
    apply img_tag_at_spec in A as (V & post & E). split; [assumption|].
    exists [], post. exact E.
  - destruct (img_tag_at (c :: s)) as [g'|] eqn:A.
    + intros [= ->]. apply img_tag_at_spec in A as (V & post & E).
      split; [assumption|]. exists [], post. exact E.
    + intros H. destruct (IH H) as (V & pre & post & ->).
      split; [assumption|]. now exists (c :: pre), post.
Qed.

Lemma img_tag_search_found (pre post g : str) :
  valid_tag g = true -> exists g', img_tag_search (pre ++ marker g ++ post) = Some g'.
Proof.
  intros V. induction pre as [|c pre IH].
  - exists g. rewrite app_nil_l.
    assert (img_tag_at (marker g ++ post) = Some g) as A
      by (apply img_tag_at_spec; split; [assumption | now exists post]).
    remember (marker g ++ post) as t eqn:Et. clear Et.
    destruct t; cbn [img_tag_search]; now rewrite A.
  - rewrite <- app_comm_cons. cbn [img_tag_search].
    destruct (img_tag_at (c :: pre ++ marker g ++ post)) as [g'|]; [now exists g'|].
    exact IH.
Qed.

(** The marker pattern and its match.  A text has a marker exactly when
    it contains [{{IMG:], a tag that is not empty and has no closing
    brace, and [}}]; the search returns such a tag of the text, and a
    text that is one marker gives back its tag. *)
Theorem img_tag_search_marker :
  (forall text,
      V1.has_img_tag text = true <->
      exists pre g post, valid_tag g = true /\ text = pre ++ marker g ++ post)
  /\ (forall text g,
        img_tag_search text = Some g ->
        valid_tag g = true /\ contains text (marker g) = true)
  /\ (forall g post,
        valid_tag g = true -> img_tag_search (marker g ++ post) = Some g).
Proof.
  split; [|split].
  - intros text. unfold V1.has_img_tag. split.
    + destruct (img_tag_search text) as [g|] eqn:S; [|discriminate]. intros _.
      destruct (img_tag_search_some _ _ S) as (V & pre & post & E).
      now exists pre, g, post.
    + intros (pre & g & post & V & ->).
      destruct (img_tag_search_found pre post g V) as (g' & ->). reflexivity.
  - intros text g S. destruct (img_tag_search_some _ _ S) as (V & pre & post & E).
    split; [assumption|]. apply contains_spec. now exists pre, post.
  - intros g post V.
    assert (img_tag_at (marker g ++ post) = Some g) as A
      by (apply img_tag_at_spec; split; [assumption | now exists post]).
    remember (marker g ++ post) as t eqn:Et. clear Et.
    destruct t; cbn [img_tag_search]; now rewrite A.
Qed.

(** ** The resolver, case by case *)

(** The search finds the first marker of the text. *)
Lemma img_tag_search_first (s g : str) : img_tag_search s = Some g -> first_marker s g.
Proof.
  revert g. induction s as [|c s IH]; intros g; cbn [img_tag_search].
  - destruct (img_tag_at []) as [g'|] eqn:A; [|discriminate]. intros [= ->].
    apply img_tag_at_spec in A as (V & post & E).
    exists []. split; [split; [assumption | now exists post]|].
    intros pre' g' _. simpl. lia.
  - destruct (img_tag_at (c :: s)) as [g'|] eqn:A.
    + intros [= ->]. apply img_tag_at_spec in A as (V & post & E).
      exists []. split; [split; [assumption | now exists post]|].
      intros pre' g' _. simpl. lia.
    + intros H. destruct (IH g H) as (pre & (V & post & E) & Hmin).
      exists (c :: pre). split.
      * split; [assumption|]. exists post. simpl. now rewrite E.
      * intros pre' g' (V' & post' & E'). destruct pre' as [|c' pre'].
        -- assert (img_tag_at (c :: s) = Some g') as A'
             by (apply img_tag_at_spec; split; [assumption | now exists post']).
           congruence.
        -- simpl in E'. injection E' as -> E'. simpl.
           apply le_n_S, (Hmin pre' g'). split; [assumption | now exists post'].
Qed.

Lemma img_tag_search_no_marker (s : str) :
  img_tag_search s = None -> forall pre g, ~ marker_at s pre g.
Proof.
  intros H pre g (V & post & ->).
  destruct (img_tag_search_found pre post g V) as (g' & E). congruence.
Qed.

(** The first marker of a text has one tag. *)
Lemma first_marker_unique (text g1 g2 : str) :
  first_marker text g1 -> first_marker text g2 -> g1 = g2.
Proof.
  intros (pre1 & M1 & Min1) (pre2 & M2 & Min2).
  pose proof (Min1 _ _ M2) as L1. pose proof (Min2 _ _ M1) as L2.
  destruct M1 as (V1 & post1 & E1), M2 as (V2 & post2 & E2).
  rewrite E1 in E2. apply app_inj_1 in E2 as [_ E2]; [|lia].
  unfold marker in E2. rewrite <- !app_assoc in E2. apply app_inv_head in E2.
  apply andb_prop in V1 as [_ V1]. apply andb_prop in V2 as [_ V2].
  pose proof (span_app _ g1 (u "}}" ++ post1) V1 eq_refl) as S1.
  pose proof (span_app _ g2 (u "}}" ++ post2) V2 eq_refl) as S2.
  rewrite E2 in S1. congruence.
Qed.

(** [str.strip] removes the whitespace at both ends and nothing else. *)
Lemma lstrip_spec (s : str) :
  exists before,
    s = before ++ lstrip s /\ forallb isspace before = true
    /\ match lstrip s with [] => True | c :: _ => isspace c = false end.
Proof.
  induction s as [|c s IH]; cbn [lstrip].
  - exists []. auto.
  - destruct (isspace c) eqn:E.
    + destruct IH as (before & Es & Hb & Hh). exists (c :: before).
      split; [simpl; now rewrite <- Es|]. split; [simpl; now rewrite E|assumption].
    + exists []. auto.
Qed.

Lemma forallb_rev (f : N -> bool) (s : str) : forallb f s = true -> forallb f (rev s) = true.
Proof.
  rewrite !forallb_forall. intros H x Hx. apply H. now apply in_rev.
Qed.

Lemma strip_stripped (g : str) : stripped g (strip g).
Proof.
  unfold strip, rstrip.
  destruct (lstrip_spec g) as (a & Ea & Ha & Hh).
  destruct (lstrip_spec (rev (lstrip g))) as (b & Eb & Hb & Hl).
  assert (lstrip g = rev (lstrip (rev (lstrip g))) ++ rev b) as El.
  { rewrite <- rev_app_distr, <- Eb. now rewrite rev_involutive. }
  exists a, (rev b). split; [now rewrite <- El|].
  split; [assumption|]. split; [now apply forallb_rev|]. split.
  - destruct (rev (lstrip (rev (lstrip g)))) as [|c t] eqn:Et; [exact I|].
    rewrite El in Hh. exact Hh.
  - now rewrite rev_involutive.
Qed.

Section ResolverCases.
Context (env : Env).

Lemma tag_matches_occurs (tag name : str) :
  V1.tag_matches env tag name = true <-> occurs_in tag name.
Proof. rewrite tag_matches_contains. apply contains_spec. Qed.

(** The loop over the pool: nothing matches, or the first match. *)
Lemma find_in_pool_cases (tag : str) (pool : list (str * bytes)) :
  (Forall (fun e => ~ occurs_in tag (fst e)) pool
   /\ V1.find_in_pool env tag pool = (Some tag, None, None))
  \/ exists before name data after,
       pool = before ++ (name, data) :: after
       /\ occurs_in tag name
       /\ Forall (fun e => ~ occurs_in tag (fst e)) before
       /\ V1.find_in_pool env tag pool = (Some tag, Some data, Some name).
Proof.
  induction pool as [|[n d] pool IH]; cbn [V1.find_in_pool].
  - left. split; [constructor | reflexivity].
  - destruct (V1.tag_matches env tag n) eqn:M.
    + right. exists [], n, d, pool. split; [reflexivity|].
      split; [now apply tag_matches_occurs|]. split; [constructor | reflexivity].
    + assert (~ occurs_in tag n) as Hn.
      { intros H. apply tag_matches_occurs in H. congruence. }
      destruct IH as [[Hall E] | (before & name & data & after & -> & Ho & Hb & E)].
      * left. split; [now constructor | exact E].
      * right. exists ((n, d) :: before), name, data, after.
        split; [reflexivity|]. split; [assumption|]. split; [now constructor | exact E].
Qed.

(** C10.  [find_image_by_tag] returns one of three triples for every
    text and every pool, and which one is decided by the text and the
    pool alone.  When the text has no marker, that is no [{{IMG:]
    followed by a tag that is not empty and has no closing brace and by
    [}}], the triple is all [None].  Otherwise, with [tag] the tag of
    the first marker of the text (there is one such tag) without its
    leading and trailing whitespace: when the tag occurs in no name of
    the pool, the triple is the tag alone;
    else it is the tag with the bytes and the name of the first asset of
    the pool in whose name the tag occurs.  The resolver takes the text
    and the pool and gives back the triple; the used-image state is
    that of the placement site [image_item], which leaves it as it was
    or adds the one name it has just resolved, not yet used, and
    drawn. *)
Theorem find_image_by_tag_total (text : str) (pool : list (str * bytes)) :
  ((forall pre g, ~ marker_at text pre g)
   /\ V1.find_image_by_tag env text pool = (None, None, None)
   \/ exists g,
        first_marker text g
        /\ (forall g', first_marker text g' -> g' = g)
        /\ stripped g (strip g)
        /\ ((Forall (fun e => ~ occurs_in (strip g) (fst e)) pool
             /\ V1.find_image_by_tag env text pool = (Some (strip g), None, None))
            \/ exists before name data after,
                 pool = before ++ (name, data) :: after
                 /\ occurs_in (strip g) name
                 /\ Forall (fun e => ~ occurs_in (strip g) (fst e)) before
                 /\ V1.find_image_by_tag env text pool
                    = (Some (strip g), Some data, Some name)))
  /\ forall font_name cl st,
       V1.used_images (V1.image_item env font_name cl st text) = V1.used_images st
       \/ (exists tag data name,
             V1.find_image_by_tag env text (V1.tables cl) = (tag, Some data, Some name)
             /\ (name ∉ V1.used_images st)
             /\ In name (placed_assets (V1.cv (V1.image_item env font_name cl st text)))
             /\ V1.used_images (V1.image_item env font_name cl st text)
                = ({[ name ]} ∪ V1.used_images st)).
Proof.
  split.
  - unfold V1.find_image_by_tag. destruct (img_tag_search text) as [g|] eqn:S.
    + right. exists g. pose proof (img_tag_search_first _ _ S) as F.
      split; [exact F|]. split; [intros g' F'; exact (first_marker_unique _ _ _ F' F)|].
      split; [apply strip_stripped|].
      apply find_in_pool_cases.
    + left. split; [now apply img_tag_search_no_marker | reflexivity].
  - intros font_name cl st. unfold V1.image_item.
    destruct (V1.find_image_by_tag env text (V1.tables cl)) as [[t [d|]] [n|]] eqn:F;
      try (now left).
    destruct (truthy d); simpl; [|now left].
    destruct (bool_decide (n ∈ V1.used_images st)) eqn:U; simpl; [now left|].
    apply bool_decide_eq_false in U.
    destruct (image_size env d) as [[iw ih]|]; [|now left].
    destruct ((iw =? 0)%N || (ih =? 0)%N); [now left|].
    destruct (image_drawable env d).
    + right. exists t, d, n. split; [reflexivity|]. split; [assumption|].
      split; [|destruct (Qlt_bool _ _); reflexivity].
      cbn [V1.cv]. unfold placed_assets, draw. cbn [pages current].
      apply in_or_app. right. rewrite flat_map_app. apply in_or_app. right.
      simpl. now left.
    + left. destruct (Qlt_bool _ _); reflexivity.
Qed.

End ResolverCases.

(** The three results on sample texts: no marker, or a marker with an
    empty tag; the first of two markers, stripped, with no asset of its
    name; a marker whose stripped tag occurs in the first asset. *)
Example resolver_sample_results :
  V1.find_image_by_tag Sample.env (u "no marker here") Sample.table_pool
    = (None, None, None)
  /\ V1.find_image_by_tag Sample.env (u "{{IMG:}}") Sample.table_pool
    = (None, None, None)
  /\ V1.find_image_by_tag Sample.env (u "see {{IMG: chart }} and {{IMG:table}}")
                          Sample.table_pool
    = (Some (u "chart"), None, None)
  /\ V1.find_image_by_tag Sample.env (u "{{IMG: table }}") Sample.table_pool
    = (Some (u "table"), Some [1; 1]%N, Some (u "01_table.png")).
Proof. vm_compute. repeat split; reflexivity. Qed.

(** ** The pages of [create_full_pdf] *)

Section StepsFacts.
Context (env : Env) (font_name font_bold images_dir : str).
Import V2.

Local Abbreviation steps := (steps font_name).

Lemma steps_trans (st1 st2 st3 : state) : steps st1 st2 -> steps st2 st3 -> steps st1 st3.
Proof.
  intros H. revert st3. induction H; intros st3 H3; [assumption| | |].
  - eapply steps_draw; [eassumption|]. now apply IHsteps.
  - eapply steps_move; [eassumption|]. now apply IHsteps.
  - eapply steps_new_page. now apply IHsteps.
Qed.

Lemma steps_snoc_draw (st st1 : state) (o : op) (v : Q) (us : gset str) :
  placed_ok st1 o -> (v <= y st1)%Q ->
  steps st st1 -> steps st (State (draw (cv st1) o) (page_num st1) v us).
Proof.
  intros Ho Hv H. eapply steps_trans; [exact H|].
  eapply steps_draw; [exact Ho|]. eapply steps_move; [|apply steps_done]. exact Hv.
Qed.

Lemma placed_ok_y (st st' : state) (o : op) : y st' = y st -> placed_ok st o -> placed_ok st' o.
Proof. intros E. unfold placed_ok. now rewrite E. Qed.

Lemma steps_snoc_draw2 (st st1 : state) (o1 o2 : op) (v : Q) (us : gset str) :
  placed_ok st1 o1 -> placed_ok st1 o2 -> (v <= y st1)%Q ->
  steps st st1 -> steps st (State (draw (draw (cv st1) o1) o2) (page_num st1) v us).
Proof.
  intros H1 H2 Hv H.
  apply (steps_snoc_draw st (State (draw (cv st1) o1) (page_num st1) (y st1) us) o2 v us).
  - now apply (placed_ok_y st1).
  - exact Hv.
  - apply steps_snoc_draw; [exact H1 | apply Qle_refl | exact H].
Qed.

Lemma steps_snoc_draw4 (st st1 : state) (o1 o2 o3 o4 : op) (v : Q) (us : gset str) :
  placed_ok st1 o1 -> placed_ok st1 o2 -> placed_ok st1 o3 -> placed_ok st1 o4 ->
  (v <= y st1)%Q ->
  steps st st1 ->
  steps st (State (draw (draw (draw (draw (cv st1) o1) o2) o3) o4) (page_num st1) v us).
Proof.
  intros H1 H2 H3 H4 Hv H.
  apply (steps_snoc_draw2 st
           (State (draw (draw (cv st1) o1) o2) (page_num st1) (y st1) us) o3 o4 v us).
  - now apply (placed_ok_y st1).
  - now apply (placed_ok_y st1).
  - exact Hv.
  - apply steps_snoc_draw2; [exact H1 | exact H2 | apply Qle_refl | exact H].
Qed.

Lemma steps_snoc_move (st st1 : state) (v : Q) (us : gset str) :
  (v <= y st1)%Q -> steps st st1 -> steps st (State (cv st1) (page_num st1) v us).
Proof.
  intros Hv H. eapply steps_trans; [exact H|]. eapply steps_move; [exact Hv | apply steps_done].
Qed.

Lemma steps_snoc_new_page (st st1 : state) : steps st st1 -> steps st (new_page font_name st1).
Proof.
  intros H. eapply steps_trans; [exact H|]. apply steps_new_page, steps_done.
Qed.

Lemma steps_fold {A : Type} (f : state -> A -> state) :
  (forall st a, steps st (f st a)) -> forall l st, steps st (fold_left f l st).
Proof.
  intros Hf l. induction l as [|a l IH]; intros st; simpl; [apply steps_done|].
  eapply steps_trans; [apply Hf | apply IH].
Qed.

(** Side conditions: a text operation, and a cursor that does not rise. *)
Local Ltac steps_side :=
  first [ exact I
        | cbn [y cv page_num used_images]; pose proof v2_constants as Hconst;
          destruct Hconst as (? & ? & ? & ? & ? & ? & ?); lra ].

Local Ltac steps_tac :=
  cbv zeta; unfold set_y, set_cv;
  repeat first
    [ apply steps_done
    | apply steps_snoc_new_page
    | apply steps_snoc_draw; [steps_side | steps_side |]
    | apply steps_snoc_draw2; [steps_side | steps_side | steps_side |]
    | apply steps_snoc_draw4; [steps_side | steps_side | steps_side | steps_side | steps_side |]
    | apply steps_snoc_move; [steps_side |]
    | match goal with
      | |- _ _ _ (if ?c then _ else _) => destruct c
      | |- _ _ _ (match ?c with Some _ => _ | None => _ end) => destruct c
      end ].

Lemma steps_toc_entry (st : state) (ch_num : Z) : steps st (toc_entry font_name st ch_num).
Proof. unfold toc_entry. steps_tac. Qed.

Lemma steps_toc_pages (st : state) : steps st (toc_pages font_name font_bold st).
Proof.
  unfold toc_pages. cbv zeta.
  eapply steps_trans; [|apply steps_fold; intros; apply steps_toc_entry].
  steps_tac.
Qed.

Lemma steps_image_line (st : state) (tag : str) :
  steps st (image_line env font_name images_dir st tag).
Proof.
  unfold image_line.
  destruct (find_image env tag images_dir) as [p|]; [|apply steps_done].
  destruct (_ && _); [|apply steps_done].
  destruct (file_image_size env p) as [[iw ih]|]; [|apply steps_done].
  destruct ((iw =? 0)%N || (ih =? 0)%N) eqn:Z; [apply steps_done|].
  apply orb_false_iff in Z as [Zw Zh]. apply N.eqb_neq in Zw, Zh.
  destruct v2_constants as (PW & PH & MT & MB & TW & BLH & SLH).
  assert (MARGIN_LEFT == 9000 # 127)%Q as ML by reflexivity.
  assert (MARGIN_RIGHT == 9000 # 127)%Q as MR by reflexivity.
  assert (0 < TEXT_WIDTH * (9 # 10))%Q as HW by lra.
  assert (0 < PAGE_HEIGHT * (4 # 10))%Q as HH by lra.
  destruct (scale_bounds _ _ iw ih HW HH Zw Zh) as (S0 & S1 & Bw & Bh & Nw & Nh & H0).
  assert (0 <= QN iw * min3 (TEXT_WIDTH * (9 # 10) / QN iw)
                             (PAGE_HEIGHT * (4 # 10) / QN ih) 1)%Q as W0.
  { apply Qmult_le_0_compat; [apply QN_nonneg | now apply Qlt_le_weak]. }
  cbv zeta in *.
  set (new_w := (QN iw * min3 (TEXT_WIDTH * (9 # 10) / QN iw)
                                (PAGE_HEIGHT * (4 # 10) / QN ih) 1)%Q) in *.
  set (new_h := (QN ih * min3 (TEXT_WIDTH * (9 # 10) / QN iw)
                                (PAGE_HEIGHT * (4 # 10) / QN ih) 1)%Q) in *.
  assert ((PAGE_WIDTH - new_w) / 2 * 2 == PAGE_WIDTH - new_w)%Q as Hx by field.
  set (img_x := ((PAGE_WIDTH - new_w) / 2)%Q) in *.
  destruct (Qlt_bool (y st - new_h) (MARGIN_BOTTOM + 50)) eqn:E; cbv beta iota.
  - destruct (file_drawable env p); [|apply steps_snoc_new_page, steps_done].
    apply steps_snoc_draw; [| |apply steps_snoc_new_page, steps_done].
    + unfold placed_ok. cbn [y new_page]. repeat split; lra.
    + cbn [y new_page]. lra.
  - apply Qlt_bool_false in E.
    destruct (file_drawable env p); [|apply steps_done].
    apply steps_snoc_draw; [| |apply steps_done].
    + unfold placed_ok. repeat split; lra.
    + lra.
Qed.

Lemma steps_draw_subtitle_lines (wrapped : list str) (st : state) :
  steps st (draw_subtitle_lines st wrapped).
Proof.
  revert st; induction wrapped as [|l wrapped IH]; intros st; cbn [draw_subtitle_lines];
    [apply steps_done|].
  eapply steps_trans; [|apply IH]. steps_tac.
Qed.

Lemma steps_subtitle_line (st : state) (line : str) :
  steps st (subtitle_line env font_name font_bold st line).
Proof.
  unfold subtitle_line. cbv zeta.
  unfold set_y at 1. apply steps_snoc_move; [steps_side|].
  eapply steps_trans; [|apply steps_draw_subtitle_lines].
  steps_tac.
Qed.

Lemma steps_body_wline (st : state) (wline : str) : steps st (body_wline font_name st wline).
Proof. unfold body_wline. steps_tac. Qed.

Lemma steps_body_line (st : state) (line : str) : steps st (body_line env font_name st line).
Proof.
  unfold body_line. cbv zeta.
  eapply steps_trans; [|apply steps_fold; intros; apply steps_body_wline].
  steps_tac.
Qed.

Lemma steps_content_line (st : state) (raw_line : str) :
  steps st (content_line env font_name font_bold images_dir st raw_line).
Proof.
  unfold content_line. cbv zeta.
  destruct (negb _); [unfold blank_line; steps_tac|].
  destruct (img_tag_search _); [apply steps_image_line|].
  destruct (is_subtitle env _); [apply steps_subtitle_line | apply steps_body_line].
Qed.

Lemma steps_content (ls : list str) (st : state) :
  steps st (fold_left (content_line env font_name font_bold images_dir) ls st).
Proof. apply steps_fold. intros. apply steps_content_line. Qed.

Lemma steps_chapter (st : state) (ch : Z * str) :
  steps st (chapter env font_name font_bold images_dir st ch).
Proof.
  unfold chapter. destruct ch as [ch_num content]. cbv zeta.
  eapply steps_trans; [|apply steps_content]. steps_tac.
Qed.

Lemma steps_chapters (chs : list (Z * str)) (st : state) :
  steps st (fold_left (chapter env font_name font_bold images_dir) chs st).
Proof. apply steps_fold. intros. apply steps_chapter. Qed.

End StepsFacts.

(** ** Page numbers *)

Lemma page_texts_app (a b : list op) : page_texts (a ++ b) = page_texts a ++ page_texts b.
Proof. unfold page_texts. apply flat_map_app. Qed.

Lemma numbered_from_snoc (k : N) (ps : list (list op)) (p : list op) :
  numbered_from k ps ->
  last_text p = Some (str_of_N (k + N.of_nat (length ps))) ->
  numbered_from k (ps ++ [p]).
Proof.
  revert k; induction ps as [|q ps IH]; intros k H Hp; simpl.
  - split; [|exact I]. simpl in Hp. now rewrite N.add_0_r in Hp.
  - destruct H as [Hq H]. split; [assumption|]. apply IH; [assumption|].
    rewrite Hp. f_equal. f_equal. simpl length. lia.
Qed.

(** A page closed after its number was drawn ends with that number. *)
Lemma last_text_number (cur : list op) (o : op) (x v : Q) (t : str) :
  text_of_op o = [] ->
  last_text ((cur ++ [o]) ++ [DrawCentredString x v t]) = Some t.
Proof.
  intros Ho. unfold last_text. rewrite !page_texts_app. unfold page_texts at 2 3.
  simpl. rewrite Ho. simpl. apply last_snoc.
Qed.

Lemma save_draw (c : canvas) (o : op) : save (draw c o) = showPage (draw c o).
Proof. unfold save, draw. cbn [current]. now destruct (current c). Qed.

Section Numbering.
Context (font_name : str).
Import V2.

Lemma page_num_new_page (st : state) : page_num (new_page font_name st) = (page_num st + 1)%N.
Proof. reflexivity. Qed.

Lemma numbered_new_page (st : state) : numbered st -> numbered (new_page font_name st).
Proof.
  intros [Hn Hp]. unfold numbered, new_page. cbn [cv page_num].
  assert ((0 <? page_num st)%N = true) as -> by (apply N.ltb_lt; lia).
  unfold showPage, draw. cbn [pages current]. split.
  - rewrite length_app. simpl length. lia.
  - apply numbered_from_snoc; [assumption|].
    rewrite last_text_number by reflexivity. f_equal. f_equal. lia.
Qed.

Lemma steps_numbered (st st' : state) : steps font_name st st' -> numbered st -> numbered st'.
Proof.
  induction 1 as [st | st o st' _ _ IH | st v us st' _ _ IH | st st' _ IH]; intros H.
  - assumption.
  - apply IH. exact H.
  - apply IH. exact H.
  - apply IH. now apply numbered_new_page.
Qed.

(** Steps only add pages: the closed pages stay as they are. *)
Lemma steps_pages_prefix (st st' : state) :
  steps font_name st st' -> (0 < page_num st)%N ->
  exists more,
    pages (cv st') = pages (cv st) ++ more
    /\ page_num st' = (page_num st + N.of_nat (length more))%N.
Proof.
  induction 1 as [st | st o st' _ _ IH | st v us st' _ _ IH | st st' _ IH]; intros Hp.
  - exists []. rewrite app_nil_r. simpl. split; [reflexivity | lia].
  - apply IH. exact Hp.
  - apply IH. exact Hp.
  - destruct IH as (more & E & En); [rewrite page_num_new_page; lia|].
    unfold new_page in E. cbn [cv] in E.
    assert ((0 <? page_num st)%N = true) as Hlt by (now apply N.ltb_lt).
    rewrite Hlt in E. unfold showPage in E. cbn [pages] in E.
    rewrite <- app_assoc in E. eexists. split; [exact E|].
    rewrite En, page_num_new_page. simpl length. lia.
Qed.

End Numbering.

Lemma numbered_reset (st : V2.state) (v : Q) (us : gset str) :
  numbered st -> numbered (V2.State (V2.cv st) (V2.page_num st) v us).
Proof. intros H. exact H. Qed.

(** [create_full_pdf] numbers its pages: the page count it reports is
    the number of pages of the document, and the last string drawn on
    the k-th page is the number k. *)
Theorem pages_numbered (env : Env) (chapters : gmap Z str) (images_dir customer_name : str)
  (basic_info : option (gmap str str)) (now : N * N * N) :
  N.of_nat (length (pages (V2.create_full_pdf env chapters images_dir customer_name
                                              basic_info now)))
  = V2.page_num (V2.run env chapters images_dir customer_name basic_info now)
  /\ numbered_from 1 (pages (V2.create_full_pdf env chapters images_dir customer_name
                                                basic_info now)).
Proof.
  unfold V2.create_full_pdf, V2.run.
  destruct (V2.setup_fonts env) as [font_name font_bold].
  unfold V2.assemble. cbv zeta. rewrite cover_page_canvas.
  match goal with |- context [V2.toc_pages _ _ ?s] =>
    assert (numbered s) as H1 by (split; [reflexivity | exact I]);
    apply (steps_numbered font_name _ _ (steps_toc_pages font_name font_bold s)) in H1;
    generalize dependent (V2.toc_pages font_name font_bold s)
  end.
  intros s2 H1. apply (numbered_reset s2 (V2.y s2) ∅) in H1.
  apply (steps_numbered font_name _ _
           (steps_chapters env font_name font_bold images_dir
                           (V2.sorted_chapters chapters) _)) in H1.
  match goal with |- context [fold_left ?f ?l ?s] =>
    generalize dependent (fold_left f l s) end.
  intros s3 H2.
  destruct H2 as [Hn Hp]. cbn [V2.cv V2.set_cv V2.page_num].
  rewrite save_draw. unfold showPage, draw. cbn [pages current]. split.
  - rewrite length_app. simpl length. lia.
  - apply numbered_from_snoc; [assumption|].
    rewrite last_text_number by reflexivity. f_equal. f_equal. lia.
Qed.

(** ** The table of contents and the first pages *)

Section TocFacts.
Context (font_name font_bold : str).
Import V2.

(** From a state whose page is numbered, [toc_pages] closes that page
    and draws the whole table on the next one. *)
Lemma toc_pages_closed (ps : list (list op)) (cur : list op) (n : N) (v : Q) (us : gset str) :
  (0 < n)%N ->
  cv (toc_pages font_name font_bold (State (Canvas ps cur) n v us))
  = Canvas (ps ++ [(cur ++ [SetFont font_name 10])
                   ++ [DrawCentredString (PAGE_WIDTH / 2) (MARGIN_BOTTOM - 10 * mm)
                                         (str_of_N n)]])
           (toc_ops font_name font_bold)
  /\ page_num (toc_pages font_name font_bold (State (Canvas ps cur) n v us)) = (n + 1)%N
  /\ used_images (toc_pages font_name font_bold (State (Canvas ps cur) n v us)) = us.
Proof.
  intros Hn. apply N.ltb_lt in Hn.
  unfold toc_ops, toc_pages, new_page. cbn [cv page_num used_images y].
  rewrite Hn. change (0 <? 1)%N with true. cbv iota.
  generalize (str_of_N n). intros t.
  repeat split; vm_compute; reflexivity.
Qed.

Lemma toc_ops_texts : page_texts (toc_ops font_name font_bold) = toc_texts.
Proof. vm_compute. reflexivity. Qed.

End TocFacts.

(** The steps of a chapter after the page break that opens it. *)
Lemma steps_chapter_tail (env : Env) (font_name font_bold images_dir : str)
  (st : V2.state) (ch : Z * str) :
  steps font_name (V2.new_page font_name st)
        (V2.chapter env font_name font_bold images_dir st ch).
Proof.
  unfold V2.chapter. destruct ch as [ch_num content]. cbv zeta.
  eapply steps_trans; [|apply steps_content].
  apply steps_snoc_new_page. unfold V2.set_cv.
  apply steps_snoc_draw4; [exact I | exact I | exact I | exact I | apply Qle_refl |].
  apply steps_done.
Qed.

(** Every document of [create_full_pdf] opens with the cover page and a
    table of contents of one page, each closed by its page number; the
    table lists the fifteen fixed titles, whatever chapters are given,
    and is never broken over two pages. *)
Theorem document_opens_with_cover_and_toc (env : Env) (chapters : gmap Z str)
  (images_dir customer_name : str) (basic_info : option (gmap str str)) (now : N * N * N) :
  (exists rest,
      pages (V2.create_full_pdf env chapters images_dir customer_name basic_info now)
      = ((cover_before (fst (V2.setup_fonts env)) (snd (V2.setup_fonts env))
                       customer_name basic_info ++ [date_line now])
           ++ number_ops (fst (V2.setup_fonts env)) 1)
        :: (toc_ops (fst (V2.setup_fonts env)) (snd (V2.setup_fonts env))
              ++ number_ops (fst (V2.setup_fonts env)) 2)
        :: rest)
  /\ page_texts (toc_ops (fst (V2.setup_fonts env)) (snd (V2.setup_fonts env))) = toc_texts.
Proof.
  split; [|apply toc_ops_texts].
  unfold V2.create_full_pdf, V2.run.
  destruct (V2.setup_fonts env) as [font_name font_bold]. cbn [fst snd].
  unfold V2.assemble. cbv zeta. rewrite cover_page_canvas.
  set (B := cover_before font_name font_bold customer_name basic_info ++ [date_line now]).
  destruct (toc_pages_closed font_name font_bold [] B 1 (V2.PAGE_HEIGHT - V2.MARGIN_TOP) ∅
              ltac:(lia)) as (Ecv & Epn & _).
  generalize dependent (V2.toc_pages font_name font_bold
                          (V2.State (Canvas [] B) 1 (V2.PAGE_HEIGHT - V2.MARGIN_TOP) ∅)).
  intros [c2 n2 y2 u2] Ecv Epn. cbn [V2.cv V2.page_num V2.y] in *. subst c2 n2.
  rewrite save_draw. cbn [V2.cv V2.set_cv]. unfold showPage, draw. cbn [pages current].
  destruct (V2.sorted_chapters chapters) as [|ch chs]; cbn [fold_left].
  - exists []. cbn [V2.cv V2.page_num pages current app]. unfold number_ops.
    rewrite <- !app_assoc. reflexivity.
  - match goal with |- context [V2.chapter _ _ _ _ ?s ch] => set (s2 := s) end.
    pose proof (steps_trans font_name _ _ _
                  (steps_chapter_tail env font_name font_bold images_dir s2 ch)
                  (steps_chapters env font_name font_bold images_dir chs _)) as H.
    apply steps_pages_prefix in H; [|rewrite page_num_new_page; lia].
    destruct H as (more & E & _). rewrite E.
    assert (pages (V2.cv (V2.new_page font_name s2))
            = [B ++ number_ops font_name 1;
               toc_ops font_name font_bold ++ number_ops font_name 2]) as ->.
    { unfold V2.new_page, s2. cbn [V2.cv V2.page_num].
      change (0 <? 1 + 1)%N with true. cbv iota.
      unfold showPage, draw. cbn [pages current app]. unfold number_ops.
      rewrite <- !app_assoc. reflexivity. }
    match goal with |- exists rest, _ ++ [?x] = _ => exists (more ++ [x]) end.
    rewrite <- app_assoc. reflexivity.
Qed.


(** ** The chapters of a document *)

Lemma omap_lookup_keys (m : gmap Z str) (l : list Z) :
  Forall (fun k => is_Some (m !! k)) l ->
  List.map fst (omap (fun k => pair k <$> m !! k) l) = l.
Proof.
  induction 1 as [|k l [v Hk] _ IH]; [reflexivity|].
  cbn [omap list_omap]. rewrite Hk. cbn. now rewrite IH.
Qed.

Lemma sorted_chapters_keys (m : gmap Z str) :
  List.map fst (V2.sorted_chapters m) = merge_sort Z.le (elements (dom m)).
Proof.
  unfold V2.sorted_chapters. apply omap_lookup_keys.
  apply Forall_forall. intros k Hk.
  rewrite merge_sort_Permutation in Hk. apply elem_of_elements in Hk.
  now apply elem_of_dom.
Qed.

Lemma strictly_sorted (l : list Z) :
  StronglySorted Z.le l -> NoDup l -> StronglySorted Z.lt l.
Proof.
  induction 1 as [|x l _ IH Hx]; intros Hnd; [constructor|].
  apply NoDup_cons in Hnd as [Hx' Hnd]. constructor; [now apply IH|].
  apply Forall_forall. intros z Hz.
  assert (x <= z)%Z by (rewrite Forall_forall in Hx; now apply Hx).
  assert (x <> z) by (intros ->; contradiction). lia.
Qed.

Lemma sorted_chapters_length (m : gmap Z str) :
  length (V2.sorted_chapters m) = size m.
Proof.
  rewrite <- (length_map fst), sorted_chapters_keys, merge_sort_Permutation.
  rewrite <- size_dom. reflexivity.
Qed.

Section PageCount.
Context (env : Env) (font_name font_bold images_dir : str).
Import V2.

Lemma steps_page_num (st st' : state) :
  steps font_name st st' -> exists k, page_num st' = (page_num st + k)%N.
Proof.
  induction 1 as [st | st o st' _ _ IH | st v us st' _ _ IH | st st' _ IH].
  - exists 0%N. lia.
  - exact IH.
  - exact IH.
  - destruct IH as (k & E). exists (1 + k)%N. rewrite E, page_num_new_page. lia.
Qed.

Lemma chapter_page_num (st : state) (ch : Z * str) :
  exists k,
    page_num (chapter env font_name font_bold images_dir st ch) = (page_num st + 2 + k)%N.
Proof.
  unfold chapter. destruct ch as [ch_num content]. cbv zeta.
  match goal with |- context [fold_left _ _ ?s] =>
    destruct (steps_page_num _ _ (steps_content env font_name font_bold images_dir
                                    (split_nl content) s)) as (k & E)
  end.
  exists k. rewrite E. rewrite page_num_new_page. cbn [page_num set_cv].
  rewrite page_num_new_page. lia.
Qed.

Lemma chapters_page_num (chs : list (Z * str)) (st : state) :
  exists k,
    page_num (fold_left (chapter env font_name font_bold images_dir) chs st)
    = (page_num st + 2 * N.of_nat (length chs) + k)%N.
Proof.
  revert st; induction chs as [|ch chs IH]; intros st; cbn [fold_left].
  - exists 0%N. simpl. lia.
  - destruct (chapter_page_num st ch) as (k1 & E1).
    destruct (IH (chapter env font_name font_bold images_dir st ch)) as (k2 & E2).
    exists (k1 + k2)%N. rewrite E2, E1. cbn [length]. lia.
Qed.

End PageCount.

(** The page count [create_full_pdf] reports is 2, for the cover and the
    table of contents, plus at least 2 for every chapter given: its
    title page and at least one content page. *)
Theorem page_count_lower_bound (env : Env) (chapters : gmap Z str)
  (images_dir customer_name : str) (basic_info : option (gmap str str)) (now : N * N * N) :
  exists extra,
    V2.page_num (V2.run env chapters images_dir customer_name basic_info now)
    = (2 + 2 * N.of_nat (size chapters) + extra)%N.
Proof.
  unfold V2.run. destruct (V2.setup_fonts env) as [font_name font_bold].
  unfold V2.assemble. cbv zeta. rewrite cover_page_canvas.
  destruct (toc_pages_closed font_name font_bold []
              (cover_before font_name font_bold customer_name basic_info ++ [date_line now])
              1 (V2.PAGE_HEIGHT - V2.MARGIN_TOP) ∅ ltac:(lia)) as (_ & Epn & _).
  match goal with |- context [V2.toc_pages ?a ?b ?s] =>
    generalize dependent (V2.toc_pages a b s) end.
  intros s2 Epn. cbn [V2.page_num V2.set_cv].
  match goal with |- context [fold_left ?f ?l ?s] =>
    destruct (chapters_page_num env font_name font_bold images_dir l s) as (k & E)
  end.
  exists k. rewrite E. cbn [V2.page_num]. rewrite Epn.
  pose proof (sorted_chapters_length chapters) as L. lia.
Qed.

(** ** The chapters in the document *)

Lemma sorted_chapters_lookup (m : gmap Z str) (ch_num : Z) (content : str) :
  In (ch_num, content) (V2.sorted_chapters m) <-> m !! ch_num = Some content.
Proof.
  rewrite <- list_elem_of_In. unfold V2.sorted_chapters. rewrite list_elem_of_omap. split.
  - intros (k' & _ & E). destruct (m !! k') as [v'|] eqn:L; [|discriminate].
    cbn in E. now injection E as -> ->.
  - intros L. exists ch_num. split.
    + rewrite merge_sort_Permutation. apply elem_of_elements, elem_of_dom. now exists content.
    + now rewrite L.
Qed.

(** What a chapter draws does not depend on the pages closed before
    it. *)
Section Frame.
Context (env : Env) (font_name font_bold images_dir : str) (P : list (list op)).
Import V2.

Lemma frame_y (st : state) : y (frame P st) = y st.
Proof. reflexivity. Qed.

Lemma frame_used (st : state) : used_images (frame P st) = used_images st.
Proof. reflexivity. Qed.

Lemma frame_page_num (st : state) : page_num (frame P st) = page_num st.
Proof. reflexivity. Qed.

Lemma frame_draw (st : state) (o : op) :
  set_cv (frame P st) (draw (cv (frame P st)) o) = frame P (set_cv st (draw (cv st) o)).
Proof. reflexivity. Qed.

Lemma frame_set_y (st : state) (v : Q) : set_y (frame P st) v = frame P (set_y st v).
Proof. reflexivity. Qed.

Lemma frame_new_page (st : state) :
  new_page font_name (frame P st) = frame P (new_page font_name st).
Proof.
  unfold new_page, frame. cbn [cv page_num y used_images].
  destruct (0 <? page_num st)%N; unfold showPage, draw; cbn [pages current];
    [now rewrite app_assoc | reflexivity].
Qed.

Lemma frame_fold {A : Type} (f : state -> A -> state) (l : list A) (st : state) :
  (forall st a, f (frame P st) a = frame P (f st a)) ->
  fold_left f l (frame P st) = frame P (fold_left f l st).
Proof.
  intros H. revert st; induction l as [|a l IH]; intros st; cbn [fold_left]; [reflexivity|].
  now rewrite H, IH.
Qed.

Local Ltac frame_rw :=
  repeat (rewrite frame_draw || rewrite frame_set_y || rewrite frame_new_page
          || rewrite frame_y || rewrite frame_used || rewrite frame_page_num).

Lemma frame_image_line (st : state) (tag : str) :
  image_line env font_name images_dir (frame P st) tag
  = frame P (image_line env font_name images_dir st tag).
Proof.
  unfold image_line. destruct (find_image env tag images_dir) as [p|]; [|reflexivity].
  rewrite frame_used. destruct (truthy p && _); [|reflexivity].
  destruct (file_image_size env p) as [[iw ih]|]; [|reflexivity].
  destruct ((iw =? 0)%N || (ih =? 0)%N); [reflexivity|]. cbv zeta.
  rewrite frame_y. destruct (Qlt_bool _ _); rewrite ?frame_new_page;
    destruct (file_drawable env p); reflexivity.
Qed.

Lemma frame_draw_subtitle_lines (wrapped : list str) (st : state) :
  draw_subtitle_lines (frame P st) wrapped = frame P (draw_subtitle_lines st wrapped).
Proof.
  revert st; induction wrapped as [|w r IH]; intros st; cbn [draw_subtitle_lines];
    [reflexivity|].
  rewrite <- IH. reflexivity.
Qed.

Lemma frame_subtitle_line (st : state) (line : str) :
  subtitle_line env font_name font_bold (frame P st) line
  = frame P (subtitle_line env font_name font_bold st line).
Proof.
  unfold subtitle_line. cbv zeta. rewrite !frame_draw, !frame_y.
  destruct (Qlt_bool _ _); frame_rw;
    rewrite frame_draw_subtitle_lines; frame_rw; reflexivity.
Qed.

Lemma frame_body_wline (st : state) (wline : str) :
  body_wline font_name (frame P st) wline = frame P (body_wline font_name st wline).
Proof.
  unfold body_wline. cbv zeta. rewrite !frame_y.
  destruct (Qlt_bool _ _); frame_rw; reflexivity.
Qed.

Lemma frame_body_line (st : state) (line : str) :
  body_line env font_name (frame P st) line = frame P (body_line env font_name st line).
Proof.
  unfold body_line. cbv zeta. rewrite frame_draw. apply frame_fold, frame_body_wline.
Qed.

Lemma frame_content_line (st : state) (raw_line : str) :
  content_line env font_name font_bold images_dir (frame P st) raw_line
  = frame P (content_line env font_name font_bold images_dir st raw_line).
Proof.
  unfold content_line. cbv zeta. destruct (negb (truthy (strip raw_line))); [reflexivity|].
  destruct (img_tag_search (strip raw_line)); [apply frame_image_line|].
  destruct (is_subtitle env (strip raw_line));
    [apply frame_subtitle_line | apply frame_body_line].
Qed.

Lemma frame_fresh (k : N) (v : Q) (us : gset str) :
  State (Canvas P []) k v us = frame P (State empty_canvas k v us).
Proof.
  unfold frame. cbn [cv page_num y used_images pages current empty_canvas].
  now rewrite app_nil_r.
Qed.

Lemma closed_frame (st : state) :
  closed_pages font_name (frame P st) = P ++ closed_pages font_name st.
Proof. unfold closed_pages, frame. cbn [cv page_num pages current]. now rewrite app_assoc. Qed.

End Frame.

Section ChapterPages.
Context (env : Env) (font_name font_bold images_dir : str).
Import V2.

(** A page break closes the page being drawn by its number. *)
Lemma pages_new_page (st : state) :
  (0 < page_num st)%N ->
  new_page font_name st
  = State (Canvas (closed_pages font_name st) []) (page_num st + 1)
          (PAGE_HEIGHT - MARGIN_TOP) (used_images st).
Proof.
  intros H. apply N.ltb_lt in H. unfold new_page, closed_pages, number_ops.
  rewrite H. unfold showPage, draw. cbn [pages current].
  now rewrite <- app_assoc.
Qed.

(** One chapter adds its title page and the content pages of its
    text. *)
Lemma closed_chapter (st : state) (ch_num : Z) (content : str) :
  (0 < page_num st)%N ->
  closed_pages font_name (chapter env font_name font_bold images_dir st (ch_num, content))
  = closed_pages font_name st
    ++ section_pages env font_name font_bold images_dir
         (ch_num, content, (page_num st + 1)%N, used_images st).
Proof.
  intros Hp. unfold chapter. cbv zeta. rewrite (pages_new_page st Hp).
  unfold set_cv, draw. cbn [cv page_num y used_images pages current app].
  rewrite pages_new_page by (cbn [page_num]; lia).
  cbn [cv page_num y used_images pages current].
  rewrite frame_fresh, frame_fold by (intros; apply frame_content_line).
  rewrite closed_frame. unfold section_pages, content_pages.
  unfold closed_pages at 1. cbn [cv page_num pages current].
  rewrite <- app_assoc. reflexivity.
Qed.

Lemma closed_chapters (chs : list (Z * str)) (st : state) :
  (0 < page_num st)%N ->
  exists sections,
    List.map (fun s => fst (fst s)) sections = chs
    /\ closed_pages font_name (fold_left (chapter env font_name font_bold images_dir) chs st)
       = closed_pages font_name st
         ++ flat_map (section_pages env font_name font_bold images_dir) sections.
Proof.
  revert st; induction chs as [|[ch_num content] chs IH]; intros st Hp; cbn [fold_left].
  - exists []. split; [reflexivity|]. simpl. now rewrite app_nil_r.
  - destruct (chapter_page_num env font_name font_bold images_dir st (ch_num, content))
      as (k & Ek).
    destruct (IH (chapter env font_name font_bold images_dir st (ch_num, content)))
      as (ss & Hk & E2); [lia|].
    exists ((ch_num, content, (page_num st + 1)%N, used_images st) :: ss).
    split; [cbn [List.map fst]; now rewrite Hk|].
    rewrite E2, (closed_chapter st ch_num content Hp). cbn [flat_map].
    now rewrite <- app_assoc.
Qed.

End ChapterPages.

(** In every document of [create_full_pdf], the cover and the table of
    contents are followed by the chapters in strictly ascending order
    of chapter number, one for every key of the dict and no other.
    Each chapter is its title page, which shows the chapter number and
    the fixed title of that number, followed by the content pages of
    the text the dict has at that key, at least one. *)
Theorem chapters_in_ascending_order (env : Env) (chapters : gmap Z str)
  (images_dir customer_name : str) (basic_info : option (gmap str str)) (now : N * N * N) :
  exists cover toc sections,
    pages (V2.create_full_pdf env chapters images_dir customer_name basic_info now)
    = cover :: toc
      :: flat_map (section_pages env (fst (V2.setup_fonts env)) (snd (V2.setup_fonts env))
                                 images_dir)
                  sections
    /\ StronglySorted Z.lt (List.map (fun s => fst (fst (fst s))) sections)
    /\ (forall ch_num content,
          In (ch_num, content) (List.map (fun s => fst (fst s)) sections)
          <-> chapters !! ch_num = Some content)
    /\ (forall content k used,
          content_pages env (fst (V2.setup_fonts env)) (snd (V2.setup_fonts env))
                        images_dir content k used <> []).
Proof.
  unfold V2.create_full_pdf, V2.run.
  destruct (V2.setup_fonts env) as [font_name font_bold]. cbn [fst snd].
  unfold V2.assemble. cbv zeta. rewrite cover_page_canvas.
  set (B := cover_before font_name font_bold customer_name basic_info ++ [date_line now]).
  destruct (toc_pages_closed font_name font_bold [] B 1 (V2.PAGE_HEIGHT - V2.MARGIN_TOP) ∅
              ltac:(lia)) as (Ecv & Epn & _).
  generalize dependent (V2.toc_pages font_name font_bold
                          (V2.State (Canvas [] B) 1 (V2.PAGE_HEIGHT - V2.MARGIN_TOP) ∅)).
  intros [c2 n2 y2 u2] Ecv Epn. cbn [V2.cv V2.page_num V2.y] in *.
  clearbody B. generalize dependent (toc_ops font_name font_bold). intros T Ecv.
  subst c2 n2.
  match goal with |- context [fold_left ?f ?l ?s] =>
    destruct (closed_chapters env font_name font_bold images_dir l s) as (ss & Hk & E);
      [cbn [V2.page_num]; lia|];
    generalize dependent (fold_left f l s)
  end.
  intros s3 E. cbn [V2.cv V2.set_cv]. rewrite save_draw.
  unfold showPage, draw. cbn [pages current].
  unfold closed_pages, number_ops in E. cbn [V2.cv V2.page_num pages current app] in E.
  rewrite <- app_assoc. cbn [app].
  eexists _, _, ss. split; [exact E|]. split; [|split].
  - replace (List.map (fun s => fst (fst (fst s))) ss)
      with (List.map fst (List.map (fun s => fst (fst s)) ss))
      by (rewrite List.map_map; reflexivity).
    rewrite Hk, sorted_chapters_keys. apply strictly_sorted.
    + apply StronglySorted_merge_sort; apply _.
    + rewrite merge_sort_Permutation. apply NoDup_elements.
  - intros ch_num content. rewrite Hk. apply sorted_chapters_lookup.
  - intros content k used C. unfold content_pages, closed_pages in C.
    apply app_eq_nil in C as [_ C]. discriminate.
Qed.

(** ** Where the images of [create_full_pdf] lie *)

Lemma all_ops_draw (c : canvas) (o : op) : all_ops (draw c o) = all_ops c ++ [o].
Proof. unfold all_ops, draw. cbn [pages current]. apply app_assoc. Qed.

Lemma all_ops_showPage (c : canvas) : all_ops (showPage c) = all_ops c.
Proof.
  unfold all_ops, showPage. cbn [pages current].
  rewrite concat_app. cbn [concat]. now rewrite !app_nil_r.
Qed.

Lemma all_ops_save (c : canvas) : all_ops (save c) = all_ops c.
Proof. unfold save. destruct (truthy (current c)); [apply all_ops_showPage | reflexivity]. Qed.

Lemma placed_ok_in_text_area (st : V2.state) (o : op) :
  placed_ok st o -> (V2.y st <= V2.PAGE_HEIGHT - V2.MARGIN_TOP)%Q -> image_in_text_area o.
Proof.
  destruct o as [| | |[d|n d|p] x v w h]; cbn; try (intros; exact I); try contradiction.
  intros (Hl & Hr & Hb & Ht) Hy. repeat split; try assumption; lra.
Qed.

Section Boxes.
Context (font_name : str).
Import V2.

Lemma boxed_draw (st : state) (o : op) :
  placed_ok st o -> boxed st -> boxed (set_cv st (draw (cv st) o)).
Proof.
  intros Ho [Ha Hy]. split; [|exact Hy]. cbn [cv set_cv]. rewrite all_ops_draw.
  apply Forall_app. split; [assumption|]. constructor; [|constructor].
  now apply (placed_ok_in_text_area st).
Qed.

Lemma boxed_new_page (st : state) : boxed st -> boxed (new_page font_name st).
Proof.
  intros [Ha Hy]. split; [|apply Qle_refl]. unfold new_page. cbn [cv].
  destruct (0 <? page_num st)%N; [|assumption].
  rewrite all_ops_showPage, !all_ops_draw.
  apply Forall_app. split; [apply Forall_app; split; [assumption|] |];
    (constructor; [exact I | constructor]).
Qed.

Lemma steps_boxed (st st' : state) : steps font_name st st' -> boxed st -> boxed st'.
Proof.
  induction 1 as [st | st o st' Ho _ IH | st v us st' Hv _ IH | st st' _ IH]; intros H.
  - assumption.
  - apply IH. now apply boxed_draw.
  - apply IH. destruct H as [Ha Hy]. split; [exact Ha|]. cbn [y]. lra.
  - apply IH. now apply boxed_new_page.
Qed.

End Boxes.

Lemma cover_before_texts (font_name font_bold name : str) (info : option (gmap str str)) :
  Forall image_in_text_area (cover_before font_name font_bold name info).
Proof.
  unfold cover_before. destruct info as [info|]; [destruct (bool_decide (info = ∅))|];
    cbn [app]; repeat (constructor; [exact I|]); constructor.
Qed.

(** Every placeholder image of a document of [create_full_pdf] lies
    within the text area of its page: between the left and the right
    margin, its bottom edge above the bottom margin (at least 50 points
    above it) and its top edge not above the top margin. *)
Theorem images_within_text_area (env : Env) (chapters : gmap Z str)
  (images_dir customer_name : str) (basic_info : option (gmap str str)) (now : N * N * N) :
  Forall image_in_text_area
    (all_ops (V2.create_full_pdf env chapters images_dir customer_name basic_info now)).
Proof.
  unfold V2.create_full_pdf, V2.run.
  destruct (V2.setup_fonts env) as [font_name font_bold].
  unfold V2.assemble. cbv zeta. rewrite cover_page_canvas.
  match goal with |- context [V2.toc_pages _ _ ?s] =>
    assert (boxed s) as H1;
    [ split; [|apply Qle_refl]; unfold all_ops; cbn [V2.cv pages current concat app];
      apply Forall_app; split; [apply cover_before_texts | constructor; [exact I | constructor]]
    | apply (steps_boxed font_name _ _ (steps_toc_pages font_name font_bold s)) in H1;
      generalize dependent (V2.toc_pages font_name font_bold s) ]
  end.
  intros s2 H1.
  assert (boxed (V2.State (V2.cv s2) (V2.page_num s2) (V2.y s2) ∅)) as H2
    by (destruct H1 as [A B]; split; [exact A | exact B]).
  apply (steps_boxed font_name _ _
           (steps_chapters env font_name font_bold images_dir
                           (V2.sorted_chapters chapters) _)) in H2.
  match goal with |- context [fold_left ?f ?l ?s] =>
    generalize dependent (fold_left f l s) end.
  intros s3 [Ha _]. cbn [V2.cv V2.set_cv].
  rewrite all_ops_save, !all_ops_draw.
  apply Forall_app. split; [apply Forall_app; split; [assumption|] |];
    (constructor; [exact I | constructor]).
Qed.

(** ** What [used_images] holds *)

Lemma in_snoc_union (l : list str) (x y : str) (us : gset str) :
  (forall z, z ∈ us <-> In z l) -> (y ∈ {[ x ]} ∪ us <-> In y (l ++ [x])).
Proof.
  intros H. rewrite elem_of_union, elem_of_singleton, in_app_iff, H. simpl. 
  split; [intros [->|?]; auto | intros [?|[->|[]]]; auto].
Qed.

Section UsedV2.
Context (env : Env) (font_name font_bold images_dir : str).
Import V2.

Lemma same_exact_v2 (st st' : state) :
  placed_same_v2 st st' -> used_exact_v2 st -> used_exact_v2 st'.
Proof. intros [A B] H p. rewrite A, B. apply H. Qed.

Lemma exact_image_line (st : state) (tag : str) :
  used_exact_v2 st -> used_exact_v2 (image_line env font_name images_dir st tag).
Proof.
  intros H. unfold image_line.
  destruct (find_image env tag images_dir) as [p|]; [|assumption].
  destruct (_ && _); [|assumption].
  destruct (file_image_size env p) as [[iw ih]|]; [|assumption].
  destruct (_ || _); [assumption|]. cbv zeta.
  match goal with |- context [if Qlt_bool ?a ?b then new_page _ st else st] =>
    set (st1 := if Qlt_bool a b then new_page font_name st else st) end.
  assert (used_exact_v2 st1) as H1.
  { subst st1. destruct (Qlt_bool _ _); [|assumption].
    eapply same_exact_v2; [apply V2Once.same_new_page_v2 | assumption]. }
  destruct (file_drawable env p); [|assumption].
  intros q. cbn [used_images cv]. rewrite placed_draw. cbn [placed_of_op].
  now apply in_snoc_union.
Qed.

Lemma exact_content_line (st : state) (raw_line : str) :
  used_exact_v2 st ->
  used_exact_v2 (content_line env font_name font_bold images_dir st raw_line).
Proof.
  intros H. unfold content_line. cbv zeta.
  destruct (negb _).
  { eapply same_exact_v2; [apply V2Once.same_set_y | assumption]. }
  destruct (img_tag_search _); [now apply exact_image_line|].
  destruct (is_subtitle env _).
  - eapply same_exact_v2; [apply V2Once.same_subtitle_line | assumption].
  - eapply same_exact_v2; [apply V2Once.same_body_line | assumption].
Qed.

Lemma exact_content_lines (ls : list str) (st : state) :
  used_exact_v2 st ->
  used_exact_v2 (fold_left (content_line env font_name font_bold images_dir) ls st).
Proof.
  revert st; induction ls as [|l ls IH]; intros st H; cbn [fold_left]; [assumption|].
  apply IH. now apply exact_content_line.
Qed.

Lemma exact_chapter (st : state) (ch : Z * str) :
  used_exact_v2 st -> used_exact_v2 (chapter env font_name font_bold images_dir st ch).
Proof.
  intros H. unfold chapter. destruct ch as [ch_num content]. cbv zeta.
  apply exact_content_lines. eapply same_exact_v2; [|exact H].
  eapply V2Once.same_trans_v2; [apply V2Once.same_new_page_v2|].
  eapply V2Once.same_trans_v2; [|apply V2Once.same_new_page_v2].
  split; [|reflexivity]. cbn [cv set_cv]. autorewrite with placed. cbn [placed_of_op].
  now autorewrite with placed.
Qed.

Lemma exact_chapters (chs : list (Z * str)) (st : state) :
  used_exact_v2 st ->
  used_exact_v2 (fold_left (chapter env font_name font_bold images_dir) chs st).
Proof.
  revert st; induction chs as [|ch chs IH]; intros st H; cbn [fold_left]; [assumption|].
  apply IH. now apply exact_chapter.
Qed.

Lemma exact_assemble (chs : list (Z * str)) (name : str) (info : option (gmap str str))
  (now : N * N * N) :
  used_exact_v2 (assemble env font_name font_bold images_dir chs name info now).
Proof.
  unfold assemble. cbv zeta.
  match goal with |- context [toc_pages _ _ ?s] =>
    assert (placed_same_v2 (State empty_canvas 0 0 ∅) (toc_pages font_name font_bold s))
      as [A _]
      by (eapply V2Once.same_trans_v2;
            [apply V2Once.same_cover_page | apply V2Once.same_toc_pages]);
    generalize dependent (toc_pages font_name font_bold s)
  end.
  intros s2 A.
  assert (used_exact_v2 (State (cv s2) (page_num s2) (y s2) ∅)) as H.
  { intros p. cbn [used_images cv]. rewrite A. cbn. rewrite elem_of_empty. tauto. }
  apply (exact_chapters chs) in H.
  match goal with |- context [fold_left ?f ?l ?s] =>
    generalize dependent (fold_left f l s) end.
  intros s3 H p. cbn [used_images cv set_cv]. autorewrite with placed.
  cbn [placed_of_op]. autorewrite with placed. apply H.
Qed.

End UsedV2.

Section UsedV1.
Context (env : Env) (font_name bold_name : str) (cl : V1.classified).
Import V1.

Lemma same_exact_v1 (st st' : state) :
  placed_same_v1 st st' -> used_exact_v1 st -> used_exact_v1 st'.
Proof. intros [A B] H n. rewrite A, B. apply H. Qed.

Lemma exact_image_item (st : state) (text : str) :
  used_exact_v1 st -> used_exact_v1 (image_item env font_name cl st text).
Proof.
  intros H. unfold image_item.
  destruct (find_image_by_tag env text (tables cl)) as [[t [d|]] [n|]]; try assumption.
  destruct (_ && _); [|assumption].
  destruct (image_size env d) as [[iw ih]|]; [|assumption].
  destruct (_ || _); [assumption|]. cbv zeta.
  match goal with |- context [if Qlt_bool ?a ?b then new_page _ _ _ st else st] =>
    set (st1 := if Qlt_bool a b then new_page env font_name cl st else st) end.
  assert (used_exact_v1 st1) as H1.
  { subst st1. destruct (Qlt_bool _ _); [|assumption].
    eapply same_exact_v1; [apply V1Once.same_new_page | assumption]. }
  destruct (image_drawable env d); [|assumption].
  intros q. cbn [used_images cv]. rewrite placed_draw. cbn [placed_of_op].
  now apply in_snoc_union.
Qed.

Lemma exact_item (st : state) (text : str) :
  used_exact_v1 st -> used_exact_v1 (item env font_name bold_name cl st text).
Proof.
  intros H. unfold item.
  destruct (_ && _).
  { eapply same_exact_v1; [apply V1Once.same_title_item | assumption]. }
  destruct (has_img_tag text); [now apply exact_image_item|].
  destruct (is_subtitle text).
  - eapply same_exact_v1; [apply V1Once.same_subtitle_item | assumption].
  - eapply same_exact_v1; [apply V1Once.same_body_item | assumption].
Qed.

Lemma exact_items (texts : list str) (st : state) :
  used_exact_v1 st -> used_exact_v1 (fold_left (item env font_name bold_name cl) texts st).
Proof.
  revert st; induction texts as [|t texts IH]; intros st H; cbn [fold_left]; [assumption|].
  apply IH. now apply exact_item.
Qed.

Lemma exact_chapter_v1 (st : state) (doc : str * list (str * str)) :
  used_exact_v1 st -> used_exact_v1 (chapter env font_name bold_name cl st doc).
Proof.
  intros H. unfold chapter. cbv zeta.
  match goal with |- context [fold_left _ ?l ?s] =>
    assert (used_exact_v1 s) as H0 by exact H;
    apply (exact_items l) in H0; generalize dependent (fold_left (item env font_name bold_name cl) l s)
  end.
  intros s1 H1 n. cbn [used_images cv]. autorewrite with placed.
  cbn [placed_of_op]. autorewrite with placed. apply H1.
Qed.

Lemma exact_chapters_v1 (docs : list (str * list (str * str))) (st : state) :
  used_exact_v1 st ->
  used_exact_v1 (fold_left (chapter env font_name bold_name cl) docs st).
Proof.
  revert st; induction docs as [|d docs IH]; intros st H; cbn [fold_left]; [assumption|].
  apply IH. now apply exact_chapter_v1.
Qed.

End UsedV1.

(** In either generator, when the document is done [used_images] is
    exactly the set of assets drawn at placeholders: an asset is marked
    used only when its image was drawn, and every drawn asset is
    marked. *)
Theorem used_images_are_the_drawn (env : Env) :
  (forall chapters images_dir name info now p,
      p ∈ V2.used_images (V2.run env chapters images_dir name info now)
      <-> In p (placed_assets (V2.create_full_pdf env chapters images_dir name info now)))
  /\ (forall docs images name n,
      n ∈ V1.used_images (V1.run env docs images name)
      <-> In n (placed_assets (V1.create_pdf env docs images name))).
Proof.
  split.
  - intros chapters images_dir name info now.
    unfold V2.create_full_pdf, V2.run. destruct (V2.setup_fonts env) as [fn fb].
    apply exact_assemble.
  - intros docs images name.
    unfold V1.create_pdf, V1.run. destruct (V1.setup_fonts env) as [fn bn]. cbv zeta.
    match goal with |- context [fold_left (V1.chapter _ _ _ ?cl) docs ?s] =>
      assert (used_exact_v1 s) as H
    end.
    { intros n. cbn [V1.used_images V1.cv].
      rewrite V1Once.placed_full_pages, V1Once.placed_cover_page.
      rewrite elem_of_empty. simpl. tauto. }
    apply (exact_chapters_v1 env fn bn (V1.classify_images env images) docs) in H.
    match goal with |- context [fold_left ?f docs ?s] =>
      generalize dependent (fold_left f docs s) end.
    intros s1 H n. cbn [V1.used_images V1.cv V1.set_cv].
    rewrite placed_save, V1Once.placed_full_pages. apply H.
Qed.
